(** * Student expense tracker (et.py): store, handlers and reports

    A shallow embedding of [et.py].  The script is a Streamlit page over
    two SQLite tables ([users], [expenses]); every button handler runs one
    SQL statement and the reports are pandas aggregations over the rows
    returned by [get_expenses].

    Conventions of the embedding:
    - a table is the list of its rows in rowid order, together with the
      [sqlite_sequence] counter that [AUTOINCREMENT] maintains;
    - Python [str] values are [string]s holding their UTF-8 bytes (byte
      order and code point order coincide on UTF-8), rowids are [Z];
    - the [amount] column has REAL affinity and pandas holds it as
      float64; every amount the page can write comes from
      [st.number_input(min_value=1, step=1)], an [int] of at most
      2^53 - 1, so an amount is a [Z].  The sums of the reports come
      twice: as pandas computes them in float64 ([total_expense_f64],
      [category_summary_f64], [top_category_f64], [monthly_summary_f64])
      and in exact arithmetic ([total_expense], [category_summary],
      [top_category]); the two agree on the frames whose amounts add up to
      no more than 2^53 ([exact_range]) and differ beyond;
    - a handler maps the store (and its widget values) to the new store and
      the notice it shows ([st.success], [st.error], [st.warning]). *)

From Stdlib Require Import ZArith List String Ascii Bool Lia.
From Stdlib Require Import DecimalString.
From Stdlib Require Import Sorting.Sorted Sorting.Permutation.
Import ListNotations.

Local Open Scope string_scope.
Local Open Scope list_scope.
Local Open Scope Z_scope.

(** ** hashlib.sha256 *)

Module SHA256.

(** The round constants and the initial state are the first 32 bits of
    the fractional parts of the cube roots of the first 64 primes and of
    the square roots of the first 8. *)
Definition is_prime (n : Z) : bool :=
  forallb (fun d => negb (n mod Z.of_nat d =? 0)) (seq 2 (Z.to_nat n - 2)).

Definition primes : list Z := filter is_prime (map Z.of_nat (seq 2 310)).

Definition cbrt_floor (n : Z) : Z :=
  fold_left (fun r i => let r' := r + 2 ^ Z.of_nat i in
                        if r' ^ 3 <=? n then r' else r)
            (rev (seq 0 36)) 0.

Definition frac32_cbrt (p : Z) : Z := cbrt_floor (p * 2 ^ 96) mod 2 ^ 32.
Definition frac32_sqrt (p : Z) : Z := Z.sqrt (p * 2 ^ 64) mod 2 ^ 32.

Definition K : list Z := Eval vm_compute in map frac32_cbrt primes.
Definition H0 : list Z := Eval vm_compute in map frac32_sqrt (firstn 8 primes).

Definition w32 (x : Z) : Z := x mod 2 ^ 32.
Definition add32 (x y : Z) : Z := w32 (x + y).
Definition not32 (x : Z) : Z := Z.lxor x 0xffffffff.
Definition rotr (n x : Z) : Z :=
  Z.lor (Z.shiftr x n) (w32 (Z.shiftl x (32 - n))).
Definition xor3 (x y z : Z) : Z := Z.lxor (Z.lxor x y) z.

Definition Ch (x y z : Z) : Z := Z.lxor (Z.land x y) (Z.land (not32 x) z).
Definition Maj (x y z : Z) : Z :=
  xor3 (Z.land x y) (Z.land x z) (Z.land y z).
Definition Sigma0 (x : Z) : Z := xor3 (rotr 2 x) (rotr 13 x) (rotr 22 x).
Definition Sigma1 (x : Z) : Z := xor3 (rotr 6 x) (rotr 11 x) (rotr 25 x).
Definition sigma0 (x : Z) : Z := xor3 (rotr 7 x) (rotr 18 x) (Z.shiftr x 3).
Definition sigma1 (x : Z) : Z := xor3 (rotr 17 x) (rotr 19 x) (Z.shiftr x 10).

(** Message padding: a 1 bit, zeros, and the bit length on 64 bits. *)
Definition be_bytes (n : nat) (x : Z) : list Z :=
  map (fun i => (Z.shiftr x (8 * Z.of_nat i)) mod 256) (rev (seq 0 n)).

Definition pad (msg : list Z) : list Z :=
  let len := Z.of_nat (List.length msg) in
  msg ++ [0x80] ++ repeat 0 (Z.to_nat ((55 - len) mod 64))
      ++ be_bytes 8 (8 * len).

Fixpoint be_words (bs : list Z) : list Z :=
  match bs with
  | b0 :: b1 :: b2 :: b3 :: rest =>
      (Z.shiftl b0 24 + Z.shiftl b1 16 + Z.shiftl b2 8 + b3) :: be_words rest
  | _ => []
  end.

(** The message schedule of one block, grown from 16 to 64 words. *)
Definition schedule_step (w : list Z) : list Z :=
  let t := List.length w in
  let at_ (k : nat) := nth (t - k) w 0 in
  w ++ [add32 (add32 (sigma1 (at_ 2%nat)) (at_ 7%nat))
              (add32 (sigma0 (at_ 15%nat)) (at_ 16%nat))].

Definition schedule (block : list Z) : list Z :=
  Nat.iter 48 schedule_step block.

Record regs := Regs { ra : Z; rb : Z; rc : Z; rd : Z;
                      re : Z; rf : Z; rg : Z; rh : Z }.

Definition round (s : regs) (kw : Z * Z) : regs :=
  let t1 := add32 (add32 (add32 (rh s) (Sigma1 (re s)))
                         (add32 (Ch (re s) (rf s) (rg s)) (fst kw)))
                  (snd kw) in
  let t2 := add32 (Sigma0 (ra s)) (Maj (ra s) (rb s) (rc s)) in
  Regs (add32 t1 t2) (ra s) (rb s) (rc s) (add32 (rd s) t1) (re s) (rf s) (rg s).

Definition regs_of (h : list Z) : regs :=
  Regs (nth 0 h 0) (nth 1 h 0) (nth 2 h 0) (nth 3 h 0)
       (nth 4 h 0) (nth 5 h 0) (nth 6 h 0) (nth 7 h 0).

Definition list_of (s : regs) : list Z :=
  [ra s; rb s; rc s; rd s; re s; rf s; rg s; rh s].

Definition compress (h : list Z) (block : list Z) : list Z :=
  let s := fold_left round (combine K (schedule block)) (regs_of h) in
  map (fun p => add32 (fst p) (snd p)) (combine h (list_of s)).

Fixpoint blocks (fuel : nat) (ws : list Z) (h : list Z) : list Z :=
  match fuel, ws with
  | S fuel', _ :: _ => blocks fuel' (skipn 16 ws) (compress h (firstn 16 ws))
  | _, _ => h
  end.

Definition digest (msg : list Z) : list Z :=
  let ws := be_words (pad msg) in
  blocks (List.length ws) ws H0.

Definition hex_digit (x : Z) : ascii :=
  ascii_of_N (Z.to_N (if x <? 10 then 48 + x else 87 + x)).

Definition hex_word (w : Z) : list ascii :=
  map (fun i => hex_digit ((Z.shiftr w (4 * Z.of_nat i)) mod 16))
      (rev (seq 0 8)).

Definition encode (s : string) : list Z :=
  map (fun c => Z.of_N (N_of_ascii c)) (list_ascii_of_string s).

Definition hexdigest (s : string) : string :=
  string_of_list_ascii (flat_map hex_word (digest (encode s))).

End SHA256.

(** [hash_password(password)]: the hex digest of the UTF-8 bytes. *)
Definition hash_password (password : string) : string :=
  SHA256.hexdigest password.

(** ** Calendar dates

    [st.date_input] returns a [datetime.date]; the store keeps its
    [strftime("%Y-%m-%d")] text and the reports read it back with
    [pd.to_datetime]. *)

Record date := mkdate { year : Z; month : Z; day : Z }.

Definition is_leap (y : Z) : bool :=
  ((y mod 4 =? 0) && negb (y mod 100 =? 0)) || (y mod 400 =? 0).

Definition days_in_month (y m : Z) : Z :=
  match m with
  | 2 => if is_leap y then 29 else 28
  | 4 | 6 | 9 | 11 => 30
  | _ => 31
  end.

(** The values of [datetime.date]: years 1 to 9999 ([MINYEAR],
    [MAXYEAR]) and a day that exists in its month. *)
Definition valid_date (d : date) : bool :=
  (1 <=? year d) && (year d <=? 9999)
  && (1 <=? month d) && (month d <=? 12)
  && (1 <=? day d) && (day d <=? days_in_month (year d) (month d)).

Definition digit_char (x : Z) : ascii := ascii_of_N (Z.to_N (48 + x)).

Definition pad2 (x : Z) : string :=
  String (digit_char (x / 10)) (String (digit_char (x mod 10)) EmptyString).

Definition pad4 (x : Z) : string :=
  (pad2 (x / 100) ++ pad2 (x mod 100))%string.

(** [d.strftime("%Y-%m-%d")], the year on four digits as the Python
    documentation gives it.  That is what every platform writes from the
    year 1000 on, and a date widget of the page offers no earlier year
    (its range is ten years around its value).  For the years before
    1000 the C library decides (glibc writes 999 on three digits); the
    text below is four digits there too, and no statement about the text
    of a date is meant for those years. *)
Definition strftime (d : date) : string :=
  (pad4 (year d) ++ "-" ++ pad2 (month d) ++ "-" ++ pad2 (day d))%string.

Definition digit_val (c : ascii) : option Z :=
  let n := Z.of_N (N_of_ascii c) in
  if (48 <=? n) && (n <=? 57) then Some (n - 48) else None.

Definition is_hyphen (c : ascii) : bool := (c =? "-")%char.

Notation "' x <- e ;; k" :=
  (match e with Some x => k | None => None end)
    (at level 10, x pattern, e at level 100, k at level 200).

(** [date.fromisoformat] on the ten characters [YYYY-MM-DD]. *)
Definition fromisoformat (s : string) : option date :=
  match s with
  | String y3 (String y2 (String y1 (String y0 (String h1
      (String m1 (String m0 (String h2
        (String d1 (String d0 EmptyString))))))))) =>
      ' a3 <- digit_val y3 ;; ' a2 <- digit_val y2 ;;
      ' a1 <- digit_val y1 ;; ' a0 <- digit_val y0 ;;
      ' b1 <- digit_val m1 ;; ' b0 <- digit_val m0 ;;
      ' c1 <- digit_val d1 ;; ' c0 <- digit_val d0 ;;
      let d := mkdate (1000 * a3 + 100 * a2 + 10 * a1 + a0)
                      (10 * b1 + b0) (10 * c1 + c0) in
      if is_hyphen h1 && is_hyphen h2 && valid_date d then Some d else None
  | _ => None
  end.

(** [pd.to_datetime] on one cell of the [Date] column.  Only the format
    the page itself writes is modelled: [None] stands for every other
    text (pandas parses some of them and raises on the rest). *)
Definition to_datetime (s : string) : option date := fromisoformat s.

(** A stored date is in ISO format when it reads back as a date. *)
Definition is_iso_date (s : string) : bool :=
  match fromisoformat s with Some _ => true | None => false end.

(** Order of the midnight timestamps of two dates. *)
Definition date_compare (d1 d2 : date) : comparison :=
  match year d1 ?= year d2 with
  | Eq => match month d1 ?= month d2 with
          | Eq => day d1 ?= day d2
          | c => c
          end
  | c => c
  end.

Definition date_leb (d1 d2 : date) : bool :=
  match date_compare d1 d2 with Gt => false | _ => true end.

(** ** The store *)

Record user_row := mkuser
  { u_id : Z; u_username : string; u_password : string }.

Record expense_row := mkexpense
  { e_id : Z; e_user_id : option Z; e_date : string;
    e_category : string; e_amount : Z; e_note : string }.

Record db := mkdb
  { users : list user_row; users_seq : Z;
    expenses : list expense_row; expenses_seq : Z }.

(** [init_db]: both tables are created if they do not exist yet. *)
Definition init_db (file : option db) : db :=
  match file with
  | Some d => d
  | None => mkdb [] 0 [] 0
  end.

(** [INTEGER PRIMARY KEY AUTOINCREMENT]: one more than the largest rowid
    the table has ever held. *)
Definition max_rowid (ids : list Z) : Z := fold_right Z.max 0 ids.

Definition next_rowid (ids : list Z) (seq : Z) : Z :=
  Z.max seq (max_rowid ids) + 1.

Definition next_user_id (d : db) : Z :=
  next_rowid (map u_id (users d)) (users_seq d).

Definition next_expense_id (d : db) : Z :=
  next_rowid (map e_id (expenses d)) (expenses_seq d).

Definition username_taken (d : db) (username : string) : bool :=
  existsb (fun r => (u_username r =? username)%string) (users d).

(** [INSERT INTO users(username,password)]; [None] is the
    [sqlite3.IntegrityError] of the UNIQUE constraint. *)
Definition insert_user (d : db) (username password : string) : option db :=
  if username_taken d username then None
  else
    let id := next_user_id d in
    Some (mkdb (users d ++ [mkuser id username password]) id
               (expenses d) (expenses_seq d)).

(** [SELECT * FROM users WHERE username=? AND password=?], [fetchone]. *)
Definition select_user (d : db) (username hashed : string) : option user_row :=
  find (fun r => (u_username r =? username)%string
                   && (u_password r =? hashed)%string)
       (users d).

Definition get_user_id (d : db) (username : string) : option Z :=
  match find (fun r => (u_username r =? username)%string) (users d) with
  | Some r => Some (u_id r)
  | None => None
  end.

(** A row of the data frame of [get_expenses]. *)
Record row := mkrow
  { ID : Z; Date : string; Category : string; Amount : Z; Note : string }.

Definition owned_by (user_id : option Z) (e : expense_row) : bool :=
  match user_id, e_user_id e with
  | Some u, Some v => u =? v
  | _, _ => false
  end.

Definition get_expenses (d : db) (user_id : option Z) : list row :=
  map (fun e => mkrow (e_id e) (e_date e) (e_category e) (e_amount e) (e_note e))
      (filter (owned_by user_id) (expenses d)).

Definition insert_expense (d : db) (user_id : option Z)
    (date_ category : string) (amount : Z) (note : string) : db :=
  let id := next_expense_id d in
  mkdb (users d) (users_seq d)
       (expenses d ++ [mkexpense id user_id date_ category amount note]) id.

Definition update_row (date_ category : string) (amount : Z) (note : string)
    (id : Z) (e : expense_row) : expense_row :=
  if e_id e =? id
  then mkexpense (e_id e) (e_user_id e) date_ category amount note
  else e.

Definition update_expenses (d : db) (date_ category : string) (amount : Z)
    (note : string) (id : Z) : db :=
  mkdb (users d) (users_seq d)
       (map (update_row date_ category amount note id) (expenses d))
       (expenses_seq d).

Definition delete_expenses (d : db) (id : Z) : db :=
  mkdb (users d) (users_seq d)
       (filter (fun e => negb (e_id e =? id)) (expenses d))
       (expenses_seq d).

(** ** The page: session, notices and handlers *)

Inductive notice :=
| st_success (msg : string)
| st_error (msg : string)
| st_warning (msg : string).

Definition is_error (n : notice) : bool :=
  match n with st_error _ => true | _ => false end.

Record session_state := mksession
  { logged_in : bool; username : option string }.

Definition CATEGORIES : list string :=
  ["Food"; "Travel"; "Shopping"; "Entertainment"; "Other"].

Definition str_of_int (z : Z) : string := NilZero.string_of_int (Z.to_int z).

(** The "Sign Up" button. *)
Definition sign_up (d : db) (new_user new_pass confirm_pass : string)
    : db * notice :=
  if (new_user =? "")%string || (new_pass =? "")%string
  then (d, st_error "❌ Fields cannot be empty.")
  else if negb (new_pass =? confirm_pass)%string
  then (d, st_error "❌ Passwords do not match.")
  else match insert_user d new_user (hash_password new_pass) with
       | Some d' => (d', st_success "✅ Account created! Please login.")
       | None => (d, st_error "❌ Username already exists.")
       end.

(** The "Login" button. *)
Definition login (d : db) (st : session_state) (username_ password : string)
    : session_state * notice :=
  let hashed := hash_password password in
  match select_user d username_ hashed with
  | Some _ =>
      (mksession true (Some username_),
       st_success ("✅ Welcome, " ++ username_ ++ "!")%string)
  | None => (st, st_error "❌ Invalid username or password")
  end.

(** The "Add Expense" button; [date_], [category] and [amount] are the
    values of the date, select and number widgets. *)
Definition add_expense (d : db) (user_id : option Z) (date_ : date)
    (category : string) (amount : Z) (note : string) : db * notice :=
  (insert_expense d user_id (strftime date_) category amount note,
   st_success "✅ Expense added successfully!").

(** The "Save Changes" button of the edit form of row [id]. *)
Definition save_changes (d : db) (new_date : date) (new_category : string)
    (new_amount : Z) (new_note : string) (id : Z) : db * notice :=
  (update_expenses d (strftime new_date) new_category new_amount new_note id,
   st_success "✅ Expense Updated! Refresh to see changes.").

(** The "Delete" button of row [id]. *)
Definition delete_expense (d : db) (id : Z) : db * notice :=
  (delete_expenses d id,
   st_warning ("🗑️ Deleted expense ID " ++ str_of_int id
               ++ "! Refresh to update list.")%string).

(** What the widgets guarantee about the values they hand to the add and
    edit handlers: a category of the select box, an amount of the number
    input ([min_value=1]), a date of the calendar. *)
Definition widget_values_ok (date_ : date) (category : string) (amount : Z)
    : bool :=
  valid_date date_ && existsb (String.eqb category) CATEGORIES && (1 <=? amount).

(** The stores the page can produce, starting from a new database file. *)
Inductive step : db -> db -> Prop :=
| step_sign_up d u p c :
    step d (fst (sign_up d u p c))
| step_add d uid dt c a n :
    widget_values_ok dt c a = true ->
    step d (fst (add_expense d uid dt c a n))
| step_save d dt c a n id :
    widget_values_ok dt c a = true ->
    step d (fst (save_changes d dt c a n id))
| step_delete d id :
    step d (fst (delete_expense d id)).

Inductive reachable : db -> Prop :=
| reachable_init : reachable (init_db None)
| reachable_step d d' : reachable d -> step d d' -> reachable d'.

(** ** Reports *)

Definition sum_amounts (l : list Z) : Z := fold_right Z.add 0 l.

(** [df["Amount"].sum() if not df.empty else 0], the sum taken in exact
    arithmetic; [total_expense_f64] below is the float64 sum that pandas
    computes. *)
Definition total_expense (df : list row) : Z :=
  match df with
  | [] => 0
  | _ => sum_amounts (map Amount df)
  end.

(** [groupby(key)["Amount"].sum()]: one entry per key that occurs, keys
    ascending, each with the sum of its rows.  The summary is built by
    entering the rows one after the other.  The sums are exact here;
    [groupby_sum_f64] below has the float64 sums of pandas. *)
Fixpoint upsert {K : Type} (cmp : K -> K -> comparison) (k : K) (a : Z)
    (g : list (K * Z)) : list (K * Z) :=
  match g with
  | [] => [(k, a)]
  | (k', s) :: g' =>
      match cmp k k' with
      | Lt => (k, a) :: g
      | Eq => (k', s + a) :: g'
      | Gt => (k', s) :: upsert cmp k a g'
      end
  end.

Definition groupby_sum {K : Type} (cmp : K -> K -> comparison)
    (cells : list (K * Z)) : list (K * Z) :=
  fold_left (fun g c => upsert cmp (fst c) (snd c) g) cells [].

(** [Series.idxmax]: the label of the first largest value; [None] is the
    [ValueError] on an empty series. *)
Fixpoint idxmax_from {K : Type} (best : K * Z) (s : list (K * Z)) : K :=
  match s with
  | [] => fst best
  | c :: s' => if snd best <? snd c then idxmax_from c s' else idxmax_from best s'
  end.

Definition idxmax {K : Type} (s : list (K * Z)) : option K :=
  match s with
  | [] => None
  | c :: s' => Some (idxmax_from c s')
  end.

Definition category_cells (df : list row) : list (string * Z) :=
  map (fun r => (Category r, Amount r)) df.

(** [filtered_df.groupby("Category")["Amount"].sum().reset_index()],
    in exact arithmetic. *)
Definition category_summary (df : list row) : list (string * Z) :=
  groupby_sum String.compare (category_cells df).

(** [df.groupby("Category")["Amount"].sum().idxmax() if not df.empty
    else "N/A"], in exact arithmetic; [None] is an exception. *)
Definition top_category (df : list row) : option string :=
  match df with
  | [] => Some "N/A"
  | _ => idxmax (category_summary df)
  end.

(** [df["Date"].min()] and [df["Date"].max()], on the texts. *)
Definition str_min (a b : string) : string := if String.leb a b then a else b.
Definition str_max (a b : string) : string := if String.leb a b then b else a.

Definition Date_min (df : list row) : option string :=
  match df with
  | [] => None
  | r :: df' => Some (fold_left str_min (map Date df') (Date r))
  end.

Definition Date_max (df : list row) : option string :=
  match df with
  | [] => None
  | r :: df' => Some (fold_left str_max (map Date df') (Date r))
  end.

(** The defaults of the two date widgets of the filter:
    [st.date_input("Start Date", df["Date"].min())]. *)
Definition default_start_date (df : list row) : option date :=
  ' s <- Date_min df ;; fromisoformat s.

Definition default_end_date (df : list row) : option date :=
  ' s <- Date_max df ;; fromisoformat s.

(** The date mask of the filter; [None] when a date does not parse. *)
Fixpoint between_dates (start_date end_date : date) (df : list row)
    : option (list row) :=
  match df with
  | [] => Some []
  | r :: df' =>
      ' t <- to_datetime (Date r) ;;
      ' rest <- between_dates start_date end_date df' ;;
      Some (if date_leb start_date t && date_leb t end_date
            then r :: rest else rest)
  end.

(** [filtered_df] of the filter section. *)
Definition filtered_df (df : list row) (filter_category : string)
    (start_date end_date : date) : option (list row) :=
  let by_category :=
    if negb (filter_category =? "All")%string
    then filter (fun r => (Category r =? filter_category)%string) df
    else df in
  between_dates start_date end_date by_category.

(** ** Vocabulary of the statements *)

(** Entries of a summary in ascending key order. *)
Definition key_lt {K : Type} (cmp : K -> K -> comparison) (p q : K * Z) : Prop :=
  cmp (fst p) (fst q) = Lt.

(** The value a summary holds for the keys selected by [is_k]. *)
Definition lookup {K : Type} (is_k : K -> bool) (g : list (K * Z)) : option Z :=
  match find (fun c => is_k (fst c)) g with
  | Some c => Some (snd c)
  | None => None
  end.

Definition has_key {K : Type} (is_k : K -> bool) (cells : list (K * Z)) : bool :=
  existsb (fun c => is_k (fst c)) cells.

Definition total_of {K : Type} (is_k : K -> bool) (cells : list (K * Z)) : Z :=
  sum_amounts (map snd (filter (fun c => is_k (fst c)) cells)).

(** The sum of the amounts of the rows of one category. *)
Definition category_total (c : string) (df : list row) : Z :=
  sum_amounts (map Amount (filter (fun r => (Category r =? c)%string) df)).

(** The filter keeps a row when its category is asked for and its date
    lies between the two bounds, both included. *)
Definition retained (filter_category : string) (start_date end_date : date)
    (r : row) : bool :=
  ((filter_category =? "All")%string || (Category r =? filter_category)%string)
  && match to_datetime (Date r) with
     | Some t => date_leb start_date t && date_leb t end_date
     | None => false
     end.

(** The rowids of the expenses table. *)
Definition expense_ids (d : db) : list Z := map e_id (expenses d).

(** A frame whose dates all read back as dates. *)
Definition dates_are_iso (df : list row) : Prop :=
  Forall (fun r => is_iso_date (Date r) = true) df.

(** A stored row whose date is the text of a calendar date. *)
Definition written_by_strftime (e : expense_row) : Prop :=
  exists dt, valid_date dt = true /\ e_date e = strftime dt.

(** The key test of the summary by category. *)
Definition is_category (c : string) (k : string) : bool := (k =? c)%string.

(** ** float64 sums

    The [amount] column is REAL and pandas holds it as float64.  An
    amount of the number widget is a whole number below 2^53 and a
    float64 as it stands; the float sums and differences of whole
    numbers are whole numbers again.  So a float64 is given by the
    integer it holds, and an operation by the exact result rounded to 53
    significant bits, ties to even.  (Infinity, which a sum would need
    more than 2^970 amounts of the number widget to reach, is left out.) *)

Definition f64_round (x : Z) : Z :=
  let a := Z.abs x in
  if a <? 2 ^ 53 then x
  else
    let k := Z.log2 a - 52 in
    let q := Z.shiftr a k in
    let r := a - Z.shiftl q k in
    let half := 2 ^ (k - 1) in
    let q' := if (half <? r) || ((r =? half) && Z.odd q) then q + 1 else q in
    Z.sgn x * Z.shiftl q' k.

Definition f64_add (x y : Z) : Z := f64_round (x + y).
Definition f64_sub (x y : Z) : Z := f64_round (x - y).

(** The amounts the number widget can hand over: [min_value=1], and for
    whole numbers no more than 2^53 - 1. *)
Definition widget_amounts (df : list row) : Prop :=
  Forall (fun r => 1 <= Amount r <= 2 ^ 53 - 1) df.

(** [Series.sum] of a float64 column is numpy's [add.reduce], which sums
    pairwise: fewer than 8 values one after the other; up to 128 values
    in eight running sums that are then added in pairs, the rest one
    after the other; more values in two halves, the first of a length
    that is a multiple of 8. *)
Definition add_loop (res : Z) (a : list Z) : Z := fold_left f64_add a res.

Record acc8 := Acc8 { r0 : Z; r1 : Z; r2 : Z; r3 : Z;
                      r4 : Z; r5 : Z; r6 : Z; r7 : Z }.

Fixpoint unrolled (r : acc8) (a : list Z) : acc8 * list Z :=
  match a with
  | a0 :: a1 :: a2 :: a3 :: a4 :: a5 :: a6 :: a7 :: rest =>
      unrolled (Acc8 (f64_add (r0 r) a0) (f64_add (r1 r) a1)
                     (f64_add (r2 r) a2) (f64_add (r3 r) a3)
                     (f64_add (r4 r) a4) (f64_add (r5 r) a5)
                     (f64_add (r6 r) a6) (f64_add (r7 r) a7)) rest
  | _ => (r, a)
  end.

Definition acc8_sum (r : acc8) : Z :=
  f64_add (f64_add (f64_add (r0 r) (r1 r)) (f64_add (r2 r) (r3 r)))
          (f64_add (f64_add (r4 r) (r5 r)) (f64_add (r6 r) (r7 r))).

Definition block_sum (a : list Z) : Z :=
  match a with
  | a0 :: a1 :: a2 :: a3 :: a4 :: a5 :: a6 :: a7 :: rest =>
      let '(r, tail) := unrolled (Acc8 a0 a1 a2 a3 a4 a5 a6 a7) rest in
      add_loop (acc8_sum r) tail
  | _ => add_loop 0 a
  end.

Fixpoint pairwise_sum (fuel : nat) (a : list Z) : Z :=
  let n := List.length a in
  if (n <=? 128)%nat then block_sum a
  else
    match fuel with
    | O => 0
    | S fuel' =>
        let n2 := (n / 2 - (n / 2) mod 8)%nat in
        f64_add (pairwise_sum fuel' (firstn n2 a))
                (pairwise_sum fuel' (skipn n2 a))
    end.

Definition np_sum (a : list Z) : Z := pairwise_sum (List.length a) a.

(** [df["Amount"].sum() if not df.empty else 0], as float64. *)
Definition total_expense_f64 (df : list row) : Z :=
  match df with
  | [] => 0
  | _ => np_sum (map Amount df)
  end.

(** [groupby(key)["Amount"].sum()] adds the values of each group in row
    order with a running compensation (Kahan's summation): the sum of
    the group is the last running sum. *)
Definition kahan_step (st : Z * Z) (val : Z) : Z * Z :=
  let sumx := fst st in
  let compensation := snd st in
  let y := f64_sub val compensation in
  let t := f64_add sumx y in
  (t, f64_sub (f64_sub t sumx) y).

Definition kahan_sum (l : list Z) : Z := fst (fold_left kahan_step l (0, 0)).

Definition same_key {K : Type} (cmp : K -> K -> comparison) (k k' : K) : bool :=
  match cmp k' k with Eq => true | _ => false end.

Definition group_values {K : Type} (cmp : K -> K -> comparison) (k : K)
    (cells : list (K * Z)) : list Z :=
  map snd (filter (fun c => same_key cmp k (fst c)) cells).

(** One entry per key that occurs, keys ascending (the keys of
    [groupby_sum]), each with the float64 sum of its group. *)
Definition groupby_sum_f64 {K : Type} (cmp : K -> K -> comparison)
    (cells : list (K * Z)) : list (K * Z) :=
  map (fun kv => (fst kv, kahan_sum (group_values cmp (fst kv) cells)))
      (groupby_sum cmp cells).

(** [filtered_df.groupby("Category")["Amount"].sum().reset_index()], as
    float64. *)
Definition category_summary_f64 (df : list row) : list (string * Z) :=
  groupby_sum_f64 String.compare (category_cells df).

(** [df.groupby("Category")["Amount"].sum().idxmax() if not df.empty
    else "N/A"], as float64; [None] is an exception. *)
Definition top_category_f64 (df : list row) : option string :=
  match df with
  | [] => Some "N/A"
  | _ => idxmax (category_summary_f64 df)
  end.

(** The float64 sum of one category, as the summary holds it. *)
Definition category_total_f64 (c : string) (df : list row) : Z :=
  kahan_sum (map Amount (filter (fun r => (Category r =? c)%string) df)).

(** Frames on which float64 sums are exact: whole amounts that are not
    negative and add up to no more than 2^53. *)
Definition exact_range (df : list row) : Prop :=
  Forall (fun r => 0 <= Amount r) df
  /\ sum_amounts (map Amount df) <= 2 ^ 53.

(** [.dt.to_period("M")]: the calendar month of a date, year and month. *)
Definition year_month (d : date) : Z * Z := (year d, month d).

(** Months in calendar order. *)
Definition year_month_compare (p q : Z * Z) : comparison :=
  match fst p ?= fst q with
  | Eq => snd p ?= snd q
  | c => c
  end.

(** The [Month] column next to the amounts. *)
Fixpoint year_month_cells (df : list row) : option (list ((Z * Z) * Z)) :=
  match df with
  | [] => Some []
  | r :: df' =>
      ' t <- to_datetime (Date r) ;;
      ' rest <- year_month_cells df' ;;
      Some ((year_month t, Amount r) :: rest)
  end.

(** [filtered_df.groupby("Month")["Amount"].sum().reset_index()], as
    float64; [None] when a date does not parse. *)
Definition monthly_summary_f64 (df : list row) : option (list ((Z * Z) * Z)) :=
  ' cells <- year_month_cells df ;;
  Some (groupby_sum_f64 year_month_compare cells).

(** The rows of one calendar month. *)
Definition in_calendar_month (y mo : Z) (r : row) : bool :=
  match to_datetime (Date r) with
  | Some t => (year t =? y) && (month t =? mo)
  | None => false
  end.

(** The sum and the signs of the eight accumulators. *)
Definition acc8_total (r : acc8) : Z :=
  r0 r + r1 r + r2 r + r3 r + r4 r + r5 r + r6 r + r7 r.

Definition acc8_nonneg (r : acc8) : Prop :=
  0 <= r0 r /\ 0 <= r1 r /\ 0 <= r2 r /\ 0 <= r3 r
  /\ 0 <= r4 r /\ 0 <= r5 r /\ 0 <= r6 r /\ 0 <= r7 r.


(** The rows of one calendar month and the sum of their amounts, in
    float64 as the report has it and in exact arithmetic. *)
Definition month_total_f64 (y mo : Z) (df : list row) : Z :=
  kahan_sum (map Amount (filter (in_calendar_month y mo) df)).

Definition month_total (y mo : Z) (df : list row) : Z :=
  sum_amounts (map Amount (filter (in_calendar_month y mo) df)).

Definition is_year_month (p k : Z * Z) : bool :=
  (fst k =? fst p) && (snd k =? snd p).

(** Months in calendar order. *)
Definition month_before (p q : (Z * Z) * Z) : Prop :=
  fst (fst p) < fst (fst q)
  \/ (fst (fst p) = fst (fst q) /\ snd (fst p) < snd (fst q)).

(** A store the page reaches in five steps, and the frame of its owner. *)
Definition sample_db : db :=
  let d1 := fst (sign_up (init_db None) "alice" "s3cret" "s3cret") in
  let d2 := fst (add_expense d1 (Some 1) (mkdate 2024 1 5) "Food" 100 "") in
  let d3 := fst (add_expense d2 (Some 1) (mkdate 2024 1 20) "Travel" 50 "bus") in
  let d4 := fst (add_expense d3 (Some 1) (mkdate 2024 2 1) "Food" 30 "") in
  fst (save_changes d4 (mkdate 2024 2 29) "Other" 45 "gift" 2).

Definition sample_df : list row := get_expenses sample_db (Some 1).

(** ** The rest of the page *)

(** The session of a new browser tab. *)
Definition initial_session : session_state := mksession false None.

(** The "Logout" button. *)
Definition logout (st : session_state) : session_state := mksession false None.

(** [get_user_id(st.session_state["username"])] at the top of the
    dashboard; a session without a name matches no account. *)
Definition session_user_id (d : db) (st : session_state) : option Z :=
  match username st with
  | Some u => get_user_id d u
  | None => None
  end.

(** [list.index]; [None] is its [ValueError]. *)
Fixpoint list_index (x : string) (l : list string) : option nat :=
  match l with
  | [] => None
  | y :: l' =>
      if (y =? x)%string then Some 0%nat
      else ' i <- list_index x l' ;; Some (S i)
  end.

(** The value a select box shows for the option of a given index. *)
Definition selectbox (options : list string) (index : nat) : option string :=
  nth_error options index.

(** The values the edit form of a row starts with: the date, the
    category and the amount read off the row, and its note.  [None] is
    an exception: a date that does not parse, a category that the select
    box does not have, an amount below the [min_value] of the number
    input. *)
Definition edit_form_defaults (r : row) : option (date * string * Z * string) :=
  ' new_date <- to_datetime (Date r) ;;
  ' index <- list_index (Category r) CATEGORIES ;;
  ' new_category <- selectbox CATEGORIES index ;;
  if 1 <=? Amount r
  then Some (new_date, new_category, Amount r, Note r)
  else None.

(** The buttons of the page, with the values of their widgets. *)
Inductive event :=
| click_sign_up (new_user new_pass confirm_pass : string)
| click_login (username_ password : string)
| click_logout
| click_add (date_ : date) (category : string) (amount : Z) (note : string)
| click_save (id : Z) (new_date : date) (new_category : string)
             (new_amount : Z) (new_note : string)
| click_delete (id : Z).

(** The row of the frame that carries the Edit and Delete buttons of
    [id], if the frame has one. *)
Definition listed (df : list row) (id : Z) : option row :=
  find (fun r => ID r =? id) df.

(** One run of the script on a click.  Logged out, the page has the
    sign-up and login forms only; logged in, it has the logout button,
    the add form, and an Edit and a Delete button for every row of the
    frame of the session's user.  [None]: the page has no such button, or
    the widgets cannot hold such values.

    The save click is taken as the script words it: the form of a listed
    row, submitted with its values.  Streamlit draws that form only in
    the run of a click on Edit, and the click on Save starts a new run in
    which the Edit button is [False] again, so the page as deployed does
    not reach the UPDATE.  [run] therefore allows more than the page
    does: what holds after every [run] holds of the page, and what is
    said of a save below is said of the UPDATE of the handler. *)
Definition run (d : db) (st : session_state) (ev : event)
    : option (db * session_state * option notice) :=
  if negb (logged_in st) then
    match ev with
    | click_sign_up new_user new_pass confirm_pass =>
        let res := sign_up d new_user new_pass confirm_pass in
        Some (fst res, st, Some (snd res))
    | click_login username_ password =>
        let res := login d st username_ password in
        Some (d, fst res, Some (snd res))
    | _ => None
    end
  else
    let user_id := session_user_id d st in
    let df := get_expenses d user_id in
    match ev with
    | click_logout => Some (d, logout st, None)
    | click_add date_ category amount note =>
        if widget_values_ok date_ category amount then
          let res := add_expense d user_id date_ category amount note in
          Some (fst res, st, Some (snd res))
        else None
    | click_save id new_date new_category new_amount new_note =>
        match listed df id with
        | Some r =>
            match edit_form_defaults r with
            | Some _ =>
                if widget_values_ok new_date new_category new_amount then
                  let res := save_changes d new_date new_category new_amount
                                          new_note (ID r) in
                  Some (fst res, st, Some (snd res))
                else None
            | None => None
            end
        | None => None
        end
    | click_delete id =>
        match listed df id with
        | Some r =>
            let res := delete_expense d (ID r) in
            Some (fst res, st, Some (snd res))
        | None => None
        end
    | _ => None
    end.

(** The stores and sessions one browser tab can reach. *)
Inductive app_reachable : db -> session_state -> Prop :=
| app_reachable_init : app_reachable (init_db None) initial_session
| app_reachable_run d st ev d' st' n :
    app_reachable d st -> run d st ev = Some (d', st', n) ->
    app_reachable d' st'.

(** Any number of handler steps on the store. *)
Inductive steps : db -> db -> Prop :=
| steps_refl d : steps d d
| steps_step d d' d'' : steps d d' -> step d' d'' -> steps d d''.

(** The characters of a lower-case hexadecimal text. *)
Definition is_lower_hex (c : ascii) : bool :=
  let n := Z.of_N (N_of_ascii c) in
  ((48 <=? n) && (n <=? 57)) || ((97 <=? n) && (n <=? 102)).

(** What the two tables keep: rowids ascending and within the sequence
    counter, user names distinct and not empty, passwords hashed, and in
    the expenses the values the widgets allow. *)
Definition users_ok (d : db) : Prop :=
  StronglySorted (fun r r' => u_id r < u_id r') (users d)
  /\ NoDup (map u_username (users d))
  /\ Forall (fun r => 1 <= u_id r <= users_seq d
                      /\ u_username r <> ""
                      /\ exists p, p <> "" /\ u_password r = hash_password p)
            (users d)
  /\ 0 <= users_seq d.

Definition expenses_ok (d : db) : Prop :=
  StronglySorted (fun e e' => e_id e < e_id e') (expenses d)
  /\ Forall (fun e => 1 <= e_id e <= expenses_seq d
                      /\ 1 <= e_amount e
                      /\ In (e_category e) CATEGORIES)
            (expenses d)
  /\ 0 <= expenses_seq d.

(** The owner of every expense is an account. *)
Definition owners_exist (d : db) : Prop :=
  Forall (fun e => exists uid, e_user_id e = Some uid
                               /\ In uid (map u_id (users d)))
         (expenses d).

(** [df.sort_values("Date", ascending=False)]: the rows by descending
    date text.  The order pandas gives to rows of one date is not fixed by
    the script (the default sort is not stable), so the sorted frame is
    described, not computed: any arrangement of the rows with the dates
    descending. *)
Definition date_desc (r1 r2 : row) : Prop := String.leb (Date r2) (Date r1) = true.

Definition sorted_by_date_desc (df sorted : list row) : Prop :=
  Permutation sorted df /\ StronglySorted date_desc sorted.

(** [recent_expenses]: the first five rows of the sorted frame. *)
Definition is_recent_expenses (df out : list row) : Prop :=
  exists sorted, sorted_by_date_desc df sorted /\ out = firstn 5 sorted.

(** One way to sort: insertion from the right, rows of one date kept in
    their order. *)
Fixpoint insert_by_date (r : row) (l : list row) : list row :=
  match l with
  | [] => [r]
  | x :: l' => if String.leb (Date x) (Date r) then r :: l
               else x :: insert_by_date r l'
  end.

Definition sort_by_date_desc (df : list row) : list row :=
  fold_right insert_by_date [] df.

(** What a session and the store agree on. *)
Definition session_ok (d : db) (st : session_state) : Prop :=
  if logged_in st
  then exists u, username st = Some u /\ username_taken d u = true
  else username st = None.


(** A sequence of clicks, one run each; [None] when a click is not
    possible on the page it meets. *)
Fixpoint runs (d : db) (st : session_state) (evs : list event)
    : option (db * session_state) :=
  match evs with
  | [] => Some (d, st)
  | ev :: evs' =>
      match run d st ev with
      | Some (d', st', _) => runs d' st' evs'
      | None => None
      end
  end.

(** Two users in one tab, one after the other. *)
Definition sample_clicks : list event :=
  [ click_sign_up "alice" "s3cret" "s3cret";
    click_sign_up "bob" "hunter2" "hunter2";
    click_login "alice" "s3cret";
    click_add (mkdate 2024 1 5) "Food" 100 "";
    click_add (mkdate 2024 1 20) "Travel" 50 "bus";
    click_logout;
    click_login "bob" "hunter2";
    click_add (mkdate 2024 2 1) "Food" 30 "" ].

Definition sample_app : db * session_state :=
  match runs (init_db None) initial_session sample_clicks with
  | Some res => res
  | None => (init_db None, initial_session)
  end.

(** * Properties *)

Example sha256_tables :
  List.length SHA256.K = 64%nat /\ List.length SHA256.H0 = 8%nat
  /\ hd 0 SHA256.K = 0x428a2f98 /\ hd 0 SHA256.H0 = 0x6a09e667.
Proof. vm_compute. repeat split; reflexivity. Qed.

Example sha256_abc :
  hash_password "abc"
  = "ba7816bf8f01cfea414140de5dae2223b00361a396177a9cb410ff61f20015ad".
Proof. vm_compute. reflexivity. Qed.

Example sha256_empty :
  hash_password ""
  = "e3b0c44298fc1c149afbf4c8996fb92427ae41e4649b934ca495991b7852b855".
Proof. vm_compute. reflexivity. Qed.

Example sha256_two_blocks :
  hash_password
    "aaaaaaaaaaaaaaaaaaaaaaaaaaaaaaaaaaaaaaaaaaaaaaaaaaaaaaaaaaaaaaaaaaaaaa"
  = "6bd5e5034855a11241f0dee8fc72850ffd9955b28347a86428b5fa19119f6ad0".
Proof. vm_compute. reflexivity. Qed.

(** ** Accounts *)

Lemma existsb_false_forall {A} (f : A -> bool) (l : list A) :
  existsb f l = false -> forall x, In x l -> f x = false.
Proof.
  induction l as [|a l IH]; simpl; intros H x Hx; [contradiction|].
  apply orb_false_iff in H as [Ha Hl].
  destruct Hx as [<-|Hx]; auto.
Qed.

Lemma find_app_skip {A} (f : A -> bool) (l l' : list A) :
  (forall x, In x l -> f x = false) -> find f (l ++ l') = find f l'.
Proof.
  induction l as [|a l IH]; simpl; intros H; [reflexivity|].
  rewrite (H a (or_introl eq_refl)). apply IH. intros x Hx. apply H. now right.
Qed.

Lemma sign_up_success d new_user new_pass confirm_pass d' msg :
  sign_up d new_user new_pass confirm_pass = (d', st_success msg) ->
  new_user <> "" /\ new_pass <> "" /\ new_pass = confirm_pass
  /\ username_taken d new_user = false
  /\ d' = mkdb (users d ++ [mkuser (next_user_id d) new_user
                                   (hash_password new_pass)])
               (next_user_id d) (expenses d) (expenses_seq d).
Proof.
  unfold sign_up, insert_user.
  destruct (String.eqb_spec new_user "") as [->|Hu]; simpl; [discriminate|].
  destruct (String.eqb_spec new_pass "") as [->|Hp]; simpl; [discriminate|].
  destruct (String.eqb_spec new_pass confirm_pass) as [Hc|Hc]; simpl;
    [|discriminate].
  destruct (username_taken d new_user) eqn:Ht; [discriminate|].
  intros H. injection H as <- _. repeat split; assumption.
Qed.

Lemma select_user_new d u h h' :
  username_taken d u = false ->
  select_user (mkdb (users d ++ [mkuser (next_user_id d) u h])
                    (next_user_id d) (expenses d) (expenses_seq d)) u h'
  = if (h =? h')%string then Some (mkuser (next_user_id d) u h) else None.
Proof.
  intros Ht. unfold select_user; simpl.
  rewrite find_app_skip.
  - simpl. rewrite String.eqb_refl. simpl. reflexivity.
  - intros r Hr. unfold username_taken in Ht.
    rewrite (existsb_false_forall _ _ Ht r Hr). reflexivity.
Qed.

(** C1: right after a sign-up that succeeded, the login query with the
    same username and secret returns the row just created and the login
    handler opens the session for that username; with any secret whose
    hash differs from the stored one the query returns nothing and the
    login is refused, the session staying as it was. *)
Theorem login_after_sign_up
    (d d' : db) (new_user new_pass confirm_pass msg : string)
    (st : session_state) :
  sign_up d new_user new_pass confirm_pass = (d', st_success msg) ->
  new_user <> "" /\ new_pass <> ""
  /\ In (mkuser (next_user_id d) new_user (hash_password new_pass)) (users d')
  /\ select_user d' new_user (hash_password new_pass)
     = Some (mkuser (next_user_id d) new_user (hash_password new_pass))
  /\ login d' st new_user new_pass
     = (mksession true (Some new_user),
        st_success ("✅ Welcome, " ++ new_user ++ "!")%string)
  /\ forall s' : string,
       hash_password s' <> hash_password new_pass ->
       select_user d' new_user (hash_password s') = None
       /\ login d' st new_user s'
          = (st, st_error "❌ Invalid username or password").
Proof.
  intros H.
  destruct (sign_up_success _ _ _ _ _ _ H) as (Hu & Hp & _ & Ht & ->).
  pose proof (select_user_new d new_user (hash_password new_pass)) as Hsel.
  split; [assumption|]. split; [assumption|].
  split; [simpl; apply in_or_app; right; left; reflexivity|].
  assert (Hsame : select_user
            (mkdb (users d ++ [mkuser (next_user_id d) new_user
                                      (hash_password new_pass)])
                  (next_user_id d) (expenses d) (expenses_seq d))
            new_user (hash_password new_pass)
          = Some (mkuser (next_user_id d) new_user (hash_password new_pass))).
  { rewrite Hsel by assumption. now rewrite String.eqb_refl. }
  split; [exact Hsame|].
  split; [unfold login; now rewrite Hsame|].
  intros s' Hs'.
  assert (Hother : select_user
            (mkdb (users d ++ [mkuser (next_user_id d) new_user
                                      (hash_password new_pass)])
                  (next_user_id d) (expenses d) (expenses_seq d))
            new_user (hash_password s') = None).
  { rewrite Hsel by assumption.
    destruct (String.eqb_spec (hash_password new_pass) (hash_password s'));
      [congruence|reflexivity]. }
  split; [exact Hother|]. unfold login. now rewrite Hother.
Qed.

Lemma login_after_sign_up_witness :
  let d' := fst (sign_up (init_db None) "alice" "s3cret" "s3cret") in
  select_user d' "alice" (hash_password "s3cret")
  = Some (mkuser 1 "alice" (hash_password "s3cret"))
  /\ login d' (mksession false None) "alice" "guess"
     = (mksession false None, st_error "❌ Invalid username or password").
Proof.
  pose proof (login_after_sign_up (init_db None)
                (fst (sign_up (init_db None) "alice" "s3cret" "s3cret"))
                "alice" "s3cret" "s3cret"
                "✅ Account created! Please login."
                (mksession false None)) as H.
  destruct H as (_ & _ & _ & Hsel & _ & Hbad); [vm_compute; reflexivity|].
  split; [exact Hsel|].
  apply Hbad. vm_compute. discriminate.
Defined.

Lemma find_none_forall {A} (f : A -> bool) (l : list A) :
  (forall x, In x l -> f x = false) -> find f l = None.
Proof.
  intros H. rewrite <- (app_nil_r l). now rewrite find_app_skip.
Qed.

(** C9: a login with the name of an existing account and a secret that
    matches none of its rows, and a login with a name that has no account,
    end in the same way: the same error notice and the session unchanged. *)
Theorem login_failures_indistinguishable
    (d : db) (st : session_state) (u1 p1 u2 p2 : string) :
  username_taken d u1 = true ->
  (forall r, In r (users d) -> u_username r = u1 ->
             u_password r <> hash_password p1) ->
  username_taken d u2 = false ->
  login d st u1 p1 = login d st u2 p2
  /\ login d st u1 p1 = (st, st_error "❌ Invalid username or password").
Proof.
  intros _ Hwrong Hunknown.
  assert (H1 : select_user d u1 (hash_password p1) = None).
  { apply find_none_forall. intros r Hr.
    destruct (String.eqb_spec (u_username r) u1) as [Hu|]; [|reflexivity].
    destruct (String.eqb_spec (u_password r) (hash_password p1)) as [Hp|];
      [|reflexivity].
    exfalso. exact (Hwrong r Hr Hu Hp). }
  assert (H2 : select_user d u2 (hash_password p2) = None).
  { apply find_none_forall. intros r Hr. unfold username_taken in Hunknown.
    now rewrite (existsb_false_forall _ _ Hunknown r Hr). }
  unfold login. rewrite H1, H2. split; reflexivity.
Qed.

Lemma login_failures_indistinguishable_witness :
  let d := fst (sign_up (init_db None) "alice" "s3cret" "s3cret") in
  login d (mksession false None) "alice" "guess"
  = login d (mksession false None) "bob" "s3cret".
Proof.
  refine (proj1 (login_failures_indistinguishable
                   (fst (sign_up (init_db None) "alice" "s3cret" "s3cret"))
                   (mksession false None) "alice" "guess" "bob" "s3cret"
                   _ _ _)).
  - vm_compute; reflexivity.
  - intros r [<-|[]] _. vm_compute. discriminate.
  - vm_compute; reflexivity.
Defined.

(** ** The ledger *)

Lemma max_rowid_ge (ids : list Z) (x : Z) : In x ids -> x <= max_rowid ids.
Proof.
  induction ids as [|a ids IH]; simpl; [contradiction|].
  intros [->|H]; [lia|]. specialize (IH H). lia.
Qed.

Lemma next_expense_id_fresh (d : db) : ~ In (next_expense_id d) (expense_ids d).
Proof.
  unfold next_expense_id, next_rowid, expense_ids. intros H.
  apply max_rowid_ge in H. lia.
Qed.

Lemma update_row_id dt c a n id e : e_id (update_row dt c a n id e) = e_id e.
Proof. unfold update_row. now destruct (e_id e =? id). Qed.

Lemma update_row_owner dt c a n id e :
  e_user_id (update_row dt c a n id e) = e_user_id e.
Proof. unfold update_row. now destruct (e_id e =? id). Qed.

Lemma update_row_other dt c a n id e :
  e_id e <> id -> update_row dt c a n id e = e.
Proof.
  unfold update_row. intros H.
  destruct (Z.eqb_spec (e_id e) id); [contradiction|reflexivity].
Qed.

Lemma map_update_row_fresh dt c a n id (l : list expense_row) :
  ~ In id (map e_id l) -> map (update_row dt c a n id) l = l.
Proof.
  induction l as [|e l IH]; simpl; intros H; [reflexivity|].
  rewrite update_row_other by tauto. f_equal. apply IH. tauto.
Qed.

Lemma get_expenses_In d uid r :
  In r (get_expenses d uid) <->
  exists e, In e (expenses d) /\ owned_by uid e = true
            /\ r = mkrow (e_id e) (e_date e) (e_category e) (e_amount e) (e_note e).
Proof.
  unfold get_expenses. rewrite in_map_iff. split.
  - intros (e & <- & He). apply filter_In in He as [He Ho]. eauto.
  - intros (e & He & Ho & ->). exists e. split; [reflexivity|].
    apply filter_In. auto.
Qed.



Lemma delete_absent d id :
  ~ In id (expense_ids d) -> delete_expenses d id = d.
Proof.
  destruct d as [us useq es eseq]. unfold delete_expenses, expense_ids; simpl.
  intros H. f_equal.
  induction es as [|e es IH]; simpl in *; [reflexivity|].
  destruct (Z.eqb_spec (e_id e) id) as [Heq|Hne]; simpl.
  - exfalso. apply H. now left.
  - f_equal. apply IH. tauto.
Qed.

(** C4, as the code has it: a delete removes every stored row of that id,
    so no later listing shows the id, and keeps every other row; the
    delete of an id that is not stored (a second delete in particular)
    leaves the store as it is and shows the same notice as any other
    delete, which is not an error. *)
Theorem delete_removes_and_never_fails (d : db) (id : Z) :
  let d' := fst (delete_expense d id) in
  ~ In id (expense_ids d')
  /\ (forall uid r, In r (get_expenses d' uid) -> ID r <> id)
  /\ (forall uid r, In r (get_expenses d uid) -> ID r <> id ->
                    In r (get_expenses d' uid))
  /\ delete_expense d' id = (d', snd (delete_expense d id))
  /\ (~ In id (expense_ids d) -> d' = d)
  /\ is_error (snd (delete_expense d id)) = false.
Proof.
  intros d'.
  assert (Hgone : ~ In id (expense_ids d')).
  { subst d'. unfold expense_ids. simpl. intros H.
    apply in_map_iff in H as (e & He & Hin).
    apply filter_In in Hin as [_ Hne]. rewrite He, Z.eqb_refl in Hne.
    discriminate. }
  split; [exact Hgone|]. split; [|split; [|split; [|split]]].
  - intros uid r Hr Hid. apply get_expenses_In in Hr as (e & He & _ & ->).
    simpl in Hid. apply Hgone. unfold expense_ids. rewrite <- Hid.
    now apply in_map.
  - intros uid r Hr Hid. apply get_expenses_In in Hr as (e & He & Ho & ->).
    simpl in Hid. apply get_expenses_In. exists e. split; [|auto].
    subst d'. simpl. apply filter_In. split; [assumption|].
    destruct (Z.eqb_spec (e_id e) id); [contradiction|reflexivity].
  - unfold delete_expense at 1. simpl. now rewrite delete_absent.
  - intros H. subst d'. simpl. now apply delete_absent.
  - reflexivity.
Qed.

Lemma delete_removes_and_never_fails_witness :
  let d := fst (add_expense (init_db None) (Some 1) (mkdate 2024 1 5)
                            "Food" 100 "") in
  fst (delete_expense (fst (delete_expense d 1)) 1) = fst (delete_expense d 1).
Proof.
  intros d.
  destruct (delete_removes_and_never_fails (fst (delete_expense d 1)) 1)
    as (_ & _ & _ & _ & H & _).
  apply H. vm_compute. tauto.
Defined.

(** C4 as the specification states it does not hold: the delete of an
    id that is not stored is no failure.  Here the same id is deleted
    twice, and the second delete shows the notice of the first. *)
Lemma second_delete_is_no_error :
  let d := fst (add_expense (init_db None) (Some 1) (mkdate 2024 1 5)
                            "Food" 100 "") in
  let d1 := fst (delete_expense d 1) in
  ~ In 1 (expense_ids d1)
  /\ is_error (snd (delete_expense d1 1)) = false
  /\ delete_expense d1 1
     = (d1, st_warning "🗑️ Deleted expense ID 1! Refresh to update list.").
Proof.
  vm_compute. split; [tauto|]. split; reflexivity.
Qed.

(** ** Dates and their texts *)

Lemma N_of_digit_char (x : Z) :
  0 <= x <= 9 -> Z.of_N (N_of_ascii (digit_char x)) = 48 + x.
Proof.
  intros H. unfold digit_char. rewrite N_ascii_embedding by lia. lia.
Qed.

Lemma digit_val_digit_char (x : Z) :
  0 <= x <= 9 -> digit_val (digit_char x) = Some x.
Proof.
  intros H. unfold digit_val. rewrite N_of_digit_char by assumption.
  replace (48 <=? 48 + x) with true by (symmetry; apply Z.leb_le; lia).
  replace (48 + x <=? 57) with true by (symmetry; apply Z.leb_le; lia).
  cbn [andb]. f_equal. lia.
Qed.

Lemma digit_val_inv (c : ascii) (x : Z) :
  digit_val c = Some x -> 0 <= x <= 9 /\ c = digit_char x.
Proof.
  unfold digit_val.
  destruct (Z.leb_spec 48 (Z.of_N (N_of_ascii c)));
    destruct (Z.leb_spec (Z.of_N (N_of_ascii c)) 57); simpl; try discriminate.
  intros [= <-]. split; [lia|]. unfold digit_char.
  replace (48 + (Z.of_N (N_of_ascii c) - 48)) with (Z.of_N (N_of_ascii c)) by lia.
  rewrite N2Z.id. symmetry. apply ascii_N_embedding.
Qed.

Lemma days_in_month_bounds (y m : Z) : 28 <= days_in_month y m <= 31.
Proof.
  unfold days_in_month.
  destruct m as [|p|p]; try lia.
  do 4 (try destruct p as [p|p|]); try lia; destruct (is_leap y); lia.
Qed.

Lemma valid_date_bounds (d : date) :
  valid_date d = true ->
  1 <= year d <= 9999 /\ 1 <= month d <= 12 /\ 1 <= day d <= 31.
Proof.
  unfold valid_date. rewrite !andb_true_iff, !Z.leb_le.
  intros (((((? & ?) & ?) & ?) & ?) & Hd).
  pose proof (days_in_month_bounds (year d) (month d)). lia.
Qed.

Lemma two_digits (x : Z) :
  0 <= x < 100 -> 0 <= x / 10 <= 9 /\ 0 <= x mod 10 <= 9.
Proof.
  intros H. pose proof (Z.div_mod x 10 ltac:(lia)).
  pose proof (Z.mod_pos_bound x 10 ltac:(lia)). lia.
Qed.

Lemma four_digits (x : Z) :
  0 <= x < 10000 -> 0 <= x / 100 < 100 /\ 0 <= x mod 100 < 100.
Proof.
  intros H. pose proof (Z.div_mod x 100 ltac:(lia)).
  pose proof (Z.mod_pos_bound x 100 ltac:(lia)). lia.
Qed.

(** What is stored reads back as the date that was entered. *)
Lemma fromisoformat_strftime (d : date) :
  valid_date d = true -> fromisoformat (strftime d) = Some d.
Proof.
  intros Hv. destruct (valid_date_bounds d Hv) as (Hy & Hm & Hd).
  destruct d as [y m dd]; cbn [year month day] in Hy, Hm, Hd.
  destruct (four_digits y ltac:(lia)) as [Hhi Hlo].
  destruct (two_digits (y / 100) Hhi) as [H3 H2].
  destruct (two_digits (y mod 100) Hlo) as [H1 H0].
  destruct (two_digits m ltac:(lia)) as [Hm1 Hm0].
  destruct (two_digits dd ltac:(lia)) as [Hd1 Hd0].
  unfold strftime, pad4, pad2, fromisoformat.
  cbn [year month day append].
  rewrite !digit_val_digit_char by assumption.
  replace (1000 * (y / 100 / 10) + 100 * ((y / 100) mod 10)
           + 10 * (y mod 100 / 10) + (y mod 100) mod 10) with y.
  2:{ pose proof (Z.div_mod y 100 ltac:(lia)).
      pose proof (Z.div_mod (y / 100) 10 ltac:(lia)).
      pose proof (Z.div_mod (y mod 100) 10 ltac:(lia)). lia. }
  replace (10 * (m / 10) + m mod 10) with m
    by (pose proof (Z.div_mod m 10 ltac:(lia)); lia).
  replace (10 * (dd / 10) + dd mod 10) with dd
    by (pose proof (Z.div_mod dd 10 ltac:(lia)); lia).
  rewrite Hv. reflexivity.
Qed.

Lemma strftime_is_iso (d : date) :
  valid_date d = true -> is_iso_date (strftime d) = true.
Proof.
  intros Hv. unfold is_iso_date. now rewrite fromisoformat_strftime.
Qed.

Lemma is_hyphen_inv (c : ascii) : is_hyphen c = true -> c = "-"%char.
Proof. unfold is_hyphen. apply Ascii.eqb_eq. Qed.

Lemma pad2_digits (a1 a0 : Z) :
  0 <= a1 <= 9 -> 0 <= a0 <= 9 ->
  pad2 (10 * a1 + a0)
  = String (digit_char a1) (String (digit_char a0) EmptyString).
Proof.
  intros H1 H0. unfold pad2.
  replace ((10 * a1 + a0) / 10) with a1
    by (apply Z.div_unique with a0; lia).
  replace ((10 * a1 + a0) mod 10) with a0
    by (apply Z.mod_unique with a1; lia).
  reflexivity.
Qed.

Lemma pad4_digits (a3 a2 a1 a0 : Z) :
  0 <= a3 <= 9 -> 0 <= a2 <= 9 -> 0 <= a1 <= 9 -> 0 <= a0 <= 9 ->
  pad4 (1000 * a3 + 100 * a2 + 10 * a1 + a0)
  = String (digit_char a3) (String (digit_char a2)
      (String (digit_char a1) (String (digit_char a0) EmptyString))).
Proof.
  intros H3 H2 H1 H0. unfold pad4.
  replace ((1000 * a3 + 100 * a2 + 10 * a1 + a0) / 100) with (10 * a3 + a2)
    by (apply Z.div_unique with (10 * a1 + a0); lia).
  replace ((1000 * a3 + 100 * a2 + 10 * a1 + a0) mod 100) with (10 * a1 + a0)
    by (apply Z.mod_unique with (10 * a3 + a2); lia).
  rewrite !pad2_digits by assumption. reflexivity.
Qed.

(** A text that reads as a date is the text the page writes for it. *)
Lemma fromisoformat_inv (s : string) (d : date) :
  fromisoformat s = Some d -> valid_date d = true /\ s = strftime d.
Proof.
  unfold fromisoformat.
  do 10 (destruct s as [|? s]; [discriminate|]).
  destruct s; [|discriminate].
  repeat match goal with
         | |- context [digit_val ?c] =>
             let x := fresh "x" in let E := fresh "E" in
             destruct (digit_val c) as [x|] eqn:E; [|discriminate];
             apply digit_val_inv in E; destruct E as [? ->]
         end.
  match goal with
  | |- context [is_hyphen ?c1 && is_hyphen ?c2 && _] =>
      destruct (is_hyphen c1) eqn:Eh1; [|discriminate];
      destruct (is_hyphen c2) eqn:Eh2; [|discriminate]
  end.
  apply is_hyphen_inv in Eh1, Eh2. subst. rewrite !andb_true_l.
  match goal with
  | |- context [valid_date ?v] => destruct (valid_date v) eqn:Hv; [|discriminate]
  end.
  match goal with
  | |- Some ?v = Some d -> _ =>
      intros E; assert (Hd : d = v) by congruence; subst d; clear E
  end.
  split; [exact Hv|].
  unfold strftime, year, month, day.
  rewrite pad4_digits, !pad2_digits by assumption. reflexivity.
Qed.

Lemma is_iso_date_inv (s : string) :
  is_iso_date s = true ->
  exists d, fromisoformat s = Some d /\ valid_date d = true /\ s = strftime d.
Proof.
  unfold is_iso_date. destruct (fromisoformat s) as [d|] eqn:E; [|discriminate].
  intros _. exists d. split; [reflexivity|]. now apply fromisoformat_inv.
Qed.

(** ** The dates of the stored rows *)

Lemma sign_up_expenses d u p c : expenses (fst (sign_up d u p c)) = expenses d.
Proof.
  unfold sign_up, insert_user.
  destruct ((u =? "")%string || (p =? "")%string); [reflexivity|].
  destruct (negb (p =? c)%string); [reflexivity|].
  destruct (username_taken d u); reflexivity.
Qed.

Lemma widget_values_date dt c a :
  widget_values_ok dt c a = true -> valid_date dt = true.
Proof.
  unfold widget_values_ok. rewrite !andb_true_iff. tauto.
Qed.

Lemma step_keeps_strftime d d' :
  step d d' ->
  Forall written_by_strftime (expenses d) ->
  Forall written_by_strftime (expenses d').
Proof.
  intros Hstep Hd. destruct Hstep as [d u p c|d uid dt c a n Hw|d dt c a n id Hw|d id].
  - now rewrite sign_up_expenses.
  - simpl. apply Forall_app. split; [assumption|].
    constructor; [|constructor]. exists dt. split; [|reflexivity].
    now apply widget_values_date in Hw.
  - simpl. apply Forall_forall. intros e He.
    apply in_map_iff in He as (e0 & <- & He0).
    rewrite Forall_forall in Hd. unfold update_row.
    destruct (e_id e0 =? id); [|now apply Hd].
    exists dt. split; [|reflexivity]. now apply widget_values_date in Hw.
  - simpl. rewrite Forall_forall in *. intros e He.
    apply filter_In in He as [He _]. now apply Hd.
Qed.

Lemma reachable_strftime d :
  reachable d -> Forall written_by_strftime (expenses d).
Proof.
  induction 1 as [|d d' _ IH Hstep]; [constructor|].
  now apply (step_keeps_strftime d d').
Qed.

(** C10: in every store the page can reach from a new database, every
    expense row holds as its date the [strftime("%Y-%m-%d")] text of a
    calendar date, and that text is in ISO format: it reads back as a
    date. *)
Theorem stored_dates_are_iso (d : db) :
  reachable d ->
  Forall (fun e => is_iso_date (e_date e) = true
                   /\ exists dt, valid_date dt = true /\ e_date e = strftime dt
                                 /\ fromisoformat (e_date e) = Some dt)
         (expenses d).
Proof.
  intros Hr. apply reachable_strftime in Hr.
  rewrite Forall_forall in *. intros e He.
  destruct (Hr e He) as (dt & Hv & Hs). rewrite Hs. split.
  - now apply strftime_is_iso.
  - exists dt. split; [assumption|]. split; [reflexivity|].
    now apply fromisoformat_strftime.
Qed.

Lemma sample_db_reachable : reachable sample_db.
Proof.
  unfold sample_db.
  repeat first
    [ apply reachable_init
    | eapply reachable_step;
      [| first [ apply step_save; reflexivity
               | apply step_add; reflexivity
               | apply step_sign_up ] ] ].
Qed.

Lemma stored_dates_are_iso_witness :
  Forall (fun e => is_iso_date (e_date e) = true
                   /\ exists dt, valid_date dt = true /\ e_date e = strftime dt
                                 /\ fromisoformat (e_date e) = Some dt)
         (expenses sample_db)
  /\ map e_date (expenses sample_db)
     = ["2024-01-05"; "2024-02-29"; "2024-02-01"].
Proof.
  split; [exact (stored_dates_are_iso sample_db sample_db_reachable)|].
  vm_compute. reflexivity.
Defined.

(** ** The order of the date texts is the order of the dates *)

Lemma ascii_compare_digits (a b : Z) :
  0 <= a <= 9 -> 0 <= b <= 9 ->
  Ascii.compare (digit_char a) (digit_char b) = (a ?= b).
Proof.
  intros Ha Hb. unfold Ascii.compare, digit_char.
  rewrite !N_ascii_embedding by lia.
  rewrite Z2N.inj_compare by lia. apply Z.add_compare_mono_l.
Qed.

Lemma compare_by_quotient (x y b : Z) :
  0 < b ->
  (x ?= y) = match x / b ?= y / b with
             | Eq => x mod b ?= y mod b
             | c => c
             end.
Proof.
  intros Hb.
  pose proof (Z.div_mod x b ltac:(lia)). pose proof (Z.div_mod y b ltac:(lia)).
  pose proof (Z.mod_pos_bound x b Hb). pose proof (Z.mod_pos_bound y b Hb).
  destruct (Z.compare_spec (x / b) (y / b)) as [E|L|G].
  - destruct (Z.compare_spec (x mod b) (y mod b)).
    + apply Z.compare_eq_iff. congruence.
    + apply Z.compare_lt_iff. rewrite E in *. lia.
    + apply Z.compare_gt_iff. rewrite E in *. lia.
  - apply Z.compare_lt_iff. nia.
  - apply Z.compare_gt_iff. nia.
Qed.

Lemma pad2_compare (x y : Z) (s t : string) :
  0 <= x < 100 -> 0 <= y < 100 ->
  String.compare (pad2 x ++ s) (pad2 y ++ t)
  = match x ?= y with
    | Eq => String.compare s t
    | c => c
    end.
Proof.
  intros Hx Hy.
  destruct (two_digits x Hx) as [Hx1 Hx0].
  destruct (two_digits y Hy) as [Hy1 Hy0].
  unfold pad2. cbn [append String.compare].
  rewrite !ascii_compare_digits by assumption.
  rewrite (compare_by_quotient x y 10) by lia.
  destruct (x / 10 ?= y / 10); [|reflexivity|reflexivity].
  destruct (x mod 10 ?= y mod 10); reflexivity.
Qed.

Lemma pad2_append_assoc (x : Z) (u s : string) :
  ((pad2 x ++ u) ++ s = pad2 x ++ (u ++ s))%string.
Proof. reflexivity. Qed.

Lemma pad2_append_nil (x : Z) : pad2 x = (pad2 x ++ "")%string.
Proof. reflexivity. Qed.

Lemma pad4_compare (x y : Z) (s t : string) :
  0 <= x < 10000 -> 0 <= y < 10000 ->
  String.compare (pad4 x ++ s) (pad4 y ++ t)
  = match x ?= y with
    | Eq => String.compare s t
    | c => c
    end.
Proof.
  intros Hx Hy.
  destruct (four_digits x Hx) as [Hx1 Hx0].
  destruct (four_digits y Hy) as [Hy1 Hy0].
  unfold pad4. rewrite !pad2_append_assoc.
  rewrite !pad2_compare by assumption.
  rewrite (compare_by_quotient x y 100) by lia.
  destruct (x / 100 ?= y / 100); reflexivity.
Qed.

Lemma hyphen_compare (s t : string) :
  String.compare ("-" ++ s) ("-" ++ t) = String.compare s t.
Proof. reflexivity. Qed.

Lemma strftime_compare (d1 d2 : date) :
  valid_date d1 = true -> valid_date d2 = true ->
  String.compare (strftime d1) (strftime d2) = date_compare d1 d2.
Proof.
  intros H1 H2.
  destruct (valid_date_bounds d1 H1) as (Hy1 & Hm1 & Hd1).
  destruct (valid_date_bounds d2 H2) as (Hy2 & Hm2 & Hd2).
  unfold strftime, date_compare.
  rewrite pad4_compare, hyphen_compare, pad2_compare, hyphen_compare by lia.
  rewrite (pad2_append_nil (day d1)), (pad2_append_nil (day d2)).
  rewrite pad2_compare by lia.
  destruct (year d1 ?= year d2); try reflexivity.
  destruct (month d1 ?= month d2); try reflexivity.
  destruct (day d1 ?= day d2); reflexivity.
Qed.

(** ** The order of texts *)

Lemma string_compare_refl (s : string) : String.compare s s = Eq.
Proof.
  induction s as [|c s IH]; simpl; [reflexivity|].
  unfold Ascii.compare. now rewrite N.compare_refl.
Qed.

Lemma string_compare_eq (a b : string) : String.compare a b = Eq <-> a = b.
Proof.
  split; [apply String.compare_eq_iff|intros ->; apply string_compare_refl].
Qed.

Lemma string_compare_lt_trans (a b c : string) :
  String.compare a b = Lt -> String.compare b c = Lt -> String.compare a c = Lt.
Proof.
  revert b c. induction a as [|x a IH]; intros [|y b] [|z c]; simpl;
    try discriminate; try reflexivity.
  unfold Ascii.compare.
  destruct (N.compare_spec (N_of_ascii x) (N_of_ascii y)) as [Exy|Lxy|Gxy];
    destruct (N.compare_spec (N_of_ascii y) (N_of_ascii z)) as [Eyz|Lyz|Gyz];
    try discriminate; intros Hab Hbc.
  - rewrite Exy, Eyz, N.compare_refl. eauto.
  - rewrite Exy. now apply N.compare_lt_iff in Lyz as ->.
  - rewrite <- Eyz. now apply N.compare_lt_iff in Lxy as ->.
  - assert (H : (N_of_ascii x < N_of_ascii z)%N) by lia.
    now apply N.compare_lt_iff in H as ->.
Qed.

Lemma string_leb_iff (a b : string) :
  String.leb a b = true <-> String.compare a b = Lt \/ a = b.
Proof.
  unfold String.leb.
  destruct (String.compare a b) eqn:E; split; intros H; auto.
  - right. now apply String.compare_eq_iff.
  - discriminate.
  - destruct H as [H| ->]; [discriminate|].
    rewrite string_compare_refl in E. discriminate.
Qed.

Lemma string_leb_refl (a : string) : String.leb a a = true.
Proof. apply string_leb_iff. now right. Qed.

Lemma string_leb_trans (a b c : string) :
  String.leb a b = true -> String.leb b c = true -> String.leb a c = true.
Proof.
  rewrite !string_leb_iff. intros [H1| ->] [H2| ->]; auto.
  left. eapply string_compare_lt_trans; eassumption.
Qed.

Lemma str_min_spec (a b : string) :
  (str_min a b = a \/ str_min a b = b)
  /\ String.leb (str_min a b) a = true /\ String.leb (str_min a b) b = true.
Proof.
  unfold str_min. destruct (String.leb a b) eqn:E.
  - split; [now left|]. split; [apply string_leb_refl|assumption].
  - split; [now right|]. split; [|apply string_leb_refl].
    destruct (String.leb_total a b) as [H|H]; congruence.
Qed.

Lemma str_max_spec (a b : string) :
  (str_max a b = a \/ str_max a b = b)
  /\ String.leb a (str_max a b) = true /\ String.leb b (str_max a b) = true.
Proof.
  unfold str_max. destruct (String.leb a b) eqn:E.
  - split; [now right|]. split; [assumption|apply string_leb_refl].
  - split; [now left|]. split; [apply string_leb_refl|].
    destruct (String.leb_total a b) as [H|H]; congruence.
Qed.

Lemma fold_str_min_spec (l : list string) (a : string) :
  In (fold_left str_min l a) (a :: l)
  /\ forall s, In s (a :: l) -> String.leb (fold_left str_min l a) s = true.
Proof.
  revert a. induction l as [|b l IH]; intros a; simpl.
  - split; [now left|]. intros s [<-|[]]. apply string_leb_refl.
  - destruct (IH (str_min a b)) as [Hin Hle].
    destruct (str_min_spec a b) as (Hab & Hma & Hmb).
    pose proof (Hle _ (or_introl eq_refl)) as Hm.
    split.
    + destruct Hin as [Hin|Hin]; [|now right; right].
      rewrite <- Hin. destruct Hab as [-> | ->]; [now left|now right; left].
    + intros s [<-|[<-|Hs]].
      * eapply string_leb_trans; eassumption.
      * eapply string_leb_trans; eassumption.
      * apply Hle. now right.
Qed.

Lemma fold_str_max_spec (l : list string) (a : string) :
  In (fold_left str_max l a) (a :: l)
  /\ forall s, In s (a :: l) -> String.leb s (fold_left str_max l a) = true.
Proof.
  revert a. induction l as [|b l IH]; intros a; simpl.
  - split; [now left|]. intros s [<-|[]]. apply string_leb_refl.
  - destruct (IH (str_max a b)) as [Hin Hle].
    destruct (str_max_spec a b) as (Hab & Hma & Hmb).
    pose proof (Hle _ (or_introl eq_refl)) as Hm.
    split.
    + destruct Hin as [Hin|Hin]; [|now right; right].
      rewrite <- Hin. destruct Hab as [-> | ->]; [now left|now right; left].
    + intros s [<-|[<-|Hs]].
      * eapply string_leb_trans; eassumption.
      * eapply string_leb_trans; eassumption.
      * apply Hle. now right.
Qed.

Lemma iso_leb (s1 s2 : string) (d1 d2 : date) :
  fromisoformat s1 = Some d1 -> fromisoformat s2 = Some d2 ->
  String.leb s1 s2 = date_leb d1 d2.
Proof.
  intros H1 H2.
  apply fromisoformat_inv in H1 as [V1 ->].
  apply fromisoformat_inv in H2 as [V2 ->].
  unfold String.leb, date_leb. now rewrite strftime_compare.
Qed.

(** ** The filter *)

Lemma between_dates_spec (s e : date) (df : list row) :
  dates_are_iso df ->
  between_dates s e df
  = Some (filter (fun r => match to_datetime (Date r) with
                           | Some t => date_leb s t && date_leb t e
                           | None => false
                           end) df).
Proof.
  induction 1 as [|r df Hr _ IH]; simpl; [reflexivity|].
  unfold is_iso_date in Hr. unfold to_datetime in *.
  destruct (fromisoformat (Date r)) as [t|]; [|discriminate].
  rewrite IH. reflexivity.
Qed.

(** The filter keeps the rows that [retained] describes, in their order. *)
Lemma filtered_df_spec (df : list row) (c : string) (s e : date) :
  dates_are_iso df ->
  filtered_df df c s e = Some (filter (retained c s e) df).
Proof.
  intros Hiso. unfold filtered_df, retained.
  destruct (String.eqb_spec c "All") as [->|Hc]; cbn [negb orb].
  - now apply between_dates_spec.
  - rewrite between_dates_spec.
    + f_equal. induction df as [|r df IH]; simpl; [reflexivity|].
      inversion Hiso; subst.
      destruct (Category r =? c)%string; simpl; rewrite IH by assumption;
        reflexivity.
    + unfold dates_are_iso in *. rewrite Forall_forall in *.
      intros r Hr. apply filter_In in Hr as [Hr _]. now apply Hiso.
Qed.

Lemma filter_all_true {A} (f : A -> bool) (l : list A) :
  (forall x, In x l -> f x = true) -> filter f l = l.
Proof.
  induction l as [|a l IH]; simpl; intros H; [reflexivity|].
  rewrite (H a (or_introl eq_refl)). f_equal. apply IH.
  intros x Hx. apply H. now right.
Qed.

(** C7: on a frame that is not empty and whose dates are in ISO format,
    the two date widgets default to the earliest and the latest date of
    the frame; with these bounds and the category "All" every row
    satisfies the retention test and the filter returns the frame itself,
    rows and order. *)
Theorem filter_all_full_range (df : list row) :
  df <> [] -> dates_are_iso df ->
  exists d1 d2,
    default_start_date df = Some d1 /\ default_end_date df = Some d2
    /\ (forall r t, In r df -> to_datetime (Date r) = Some t ->
                    date_leb d1 t = true /\ date_leb t d2 = true)
    /\ (forall r, In r df -> retained "All" d1 d2 r = true)
    /\ filtered_df df "All" d1 d2 = Some df.
Proof.
  intros Hne Hiso. destruct df as [|r0 df]; [contradiction|]. clear Hne.
  unfold default_start_date, default_end_date, Date_min, Date_max.
  destruct (fold_str_min_spec (map Date df) (Date r0)) as [Hmin_in Hmin_le].
  destruct (fold_str_max_spec (map Date df) (Date r0)) as [Hmax_in Hmax_ge].
  set (smin := fold_left str_min (map Date df) (Date r0)) in *.
  set (smax := fold_left str_max (map Date df) (Date r0)) in *.
  assert (Hparse : forall s, In s (Date r0 :: map Date df) ->
                             exists t, fromisoformat s = Some t).
  { intros s Hs. change (Date r0 :: map Date df) with (map Date (r0 :: df)) in Hs.
    apply in_map_iff in Hs as (r & <- & Hr).
    unfold dates_are_iso in Hiso. rewrite Forall_forall in Hiso.
    specialize (Hiso r Hr). unfold is_iso_date in Hiso.
    destruct (fromisoformat (Date r)) as [t|]; [eauto|discriminate]. }
  destruct (Hparse smin Hmin_in) as [d1 Hd1].
  destruct (Hparse smax Hmax_in) as [d2 Hd2].
  exists d1, d2. rewrite Hd1, Hd2.
  assert (Hbounds : forall r t, In r (r0 :: df) -> to_datetime (Date r) = Some t ->
                                date_leb d1 t = true /\ date_leb t d2 = true).
  { intros r t Hr Ht. unfold to_datetime in Ht.
    assert (Hs : In (Date r) (Date r0 :: map Date df)).
    { change (Date r0 :: map Date df) with (map Date (r0 :: df)).
      now apply in_map. }
    rewrite <- (iso_leb smin (Date r) d1 t Hd1 Ht).
    rewrite <- (iso_leb (Date r) smax t d2 Ht Hd2). auto. }
  assert (Hret : forall r, In r (r0 :: df) -> retained "All" d1 d2 r = true).
  { intros r Hr. unfold retained. simpl.
    destruct (Hparse (Date r)) as [t Ht].
    { change (Date r0 :: map Date df) with (map Date (r0 :: df)).
      now apply in_map. }
    unfold to_datetime. rewrite Ht.
    destruct (Hbounds r t Hr Ht) as [-> ->]. reflexivity. }
  repeat split; try reflexivity; try (intros; now apply (Hbounds r t)); auto.
  rewrite filtered_df_spec by assumption. f_equal.
  now apply filter_all_true.
Qed.

Lemma filter_all_full_range_witness :
  exists d1 d2,
    default_start_date sample_df = Some d1 /\ default_end_date sample_df = Some d2
    /\ (forall r t, In r sample_df -> to_datetime (Date r) = Some t ->
                    date_leb d1 t = true /\ date_leb t d2 = true)
    /\ (forall r, In r sample_df -> retained "All" d1 d2 r = true)
    /\ filtered_df sample_df "All" d1 d2 = Some sample_df.
Proof.
  apply filter_all_full_range.
  - vm_compute. discriminate.
  - vm_compute. repeat constructor.
Defined.

(** ** Group-by summaries *)

Lemma sum_amounts_app (l1 l2 : list Z) :
  sum_amounts (l1 ++ l2) = sum_amounts l1 + sum_amounts l2.
Proof.
  induction l1 as [|a l1 IH]; simpl; [reflexivity|]. rewrite IH. lia.
Qed.

Lemma sum_upsert {K} (cmp : K -> K -> comparison) k a (g : list (K * Z)) :
  sum_amounts (map snd (upsert cmp k a g)) = sum_amounts (map snd g) + a.
Proof.
  induction g as [|[k' s] g IH]; simpl; [lia|].
  destruct (cmp k k'); simpl; [lia|lia|rewrite IH; lia].
Qed.

Lemma groupby_sum_snoc {K} (cmp : K -> K -> comparison) cells c :
  groupby_sum cmp (cells ++ [c])
  = upsert cmp (fst c) (snd c) (groupby_sum cmp cells).
Proof. unfold groupby_sum. now rewrite fold_left_app. Qed.

(** The entries of a summary add up to the sum of all rows. *)
Lemma sum_groupby_sum {K} (cmp : K -> K -> comparison) (cells : list (K * Z)) :
  sum_amounts (map snd (groupby_sum cmp cells)) = sum_amounts (map snd cells).
Proof.
  induction cells as [|c cells IH] using rev_ind; [reflexivity|].
  rewrite groupby_sum_snoc, sum_upsert, IH, map_app, sum_amounts_app.
  simpl. lia.
Qed.

Section GroupBy.

Context {K : Type} (cmp : K -> K -> comparison).
Hypothesis cmp_eq : forall a b, cmp a b = Eq <-> a = b.
Hypothesis cmp_antisym : forall a b, cmp a b = CompOpp (cmp b a).
Hypothesis cmp_trans :
  forall a b c, cmp a b = Lt -> cmp b c = Lt -> cmp a c = Lt.

Lemma cmp_lt_neq a b : cmp a b = Lt -> a <> b.
Proof.
  intros H ->. assert (E : cmp b b = Eq) by now apply cmp_eq.
  congruence.
Qed.

Lemma cmp_gt_lt a b : cmp a b = Gt -> cmp b a = Lt.
Proof. intros H. rewrite cmp_antisym, H. reflexivity. Qed.

Lemma upsert_keys k a (g : list (K * Z)) c :
  In c (upsert cmp k a g) -> fst c = k \/ exists c', In c' g /\ fst c' = fst c.
Proof.
  induction g as [|[k' s] g IH]; simpl.
  - intros [<-|[]]. now left.
  - destruct (cmp k k') eqn:E; simpl.
    + intros [<-|H]; right; [exists (k', s)|exists c]; simpl; auto.
    + intros [<-|[<-|H]]; [now left| |]; right;
        [exists (k', s)|exists c]; simpl; auto.
    + intros [<-|H]; [right; exists (k', s); simpl; auto|].
      destruct (IH H) as [?|(c' & ? & ?)]; [now left|].
      right. exists c'. auto.
Qed.

Lemma upsert_sorted k a (g : list (K * Z)) :
  StronglySorted (key_lt cmp) g -> StronglySorted (key_lt cmp) (upsert cmp k a g).
Proof.
  induction 1 as [|[k' s] g Hs IH Hall]; simpl.
  - repeat constructor.
  - destruct (cmp k k') eqn:E.
    + constructor; [assumption|exact Hall].
    + constructor; [now constructor|].
      constructor; [exact E|].
      rewrite Forall_forall in *. intros c Hc. unfold key_lt in *; simpl in *.
      eapply cmp_trans; [exact E|]. now apply Hall.
    + constructor; [assumption|].
      rewrite Forall_forall in *. intros c Hc. unfold key_lt in *; simpl in *.
      destruct (upsert_keys _ _ _ _ Hc) as [->|(c' & Hc' & <-)].
      * now apply cmp_gt_lt.
      * now apply Hall.
Qed.

Lemma groupby_sum_sorted (cells : list (K * Z)) :
  StronglySorted (key_lt cmp) (groupby_sum cmp cells).
Proof.
  induction cells as [|c cells IH] using rev_ind; [constructor|].
  rewrite groupby_sum_snoc. now apply upsert_sorted.
Qed.

Section OneKey.

Variables (k : K) (is_k : K -> bool).
Hypothesis is_k_spec : forall k', is_k k' = true <-> k' = k.

Lemma is_k_refl : is_k k = true.
Proof. now apply is_k_spec. Qed.

Lemma is_k_false k' : k' <> k -> is_k k' = false.
Proof.
  intros H. destruct (is_k k') eqn:E; [|reflexivity].
  apply is_k_spec in E. contradiction.
Qed.

Lemma lookup_above (g : list (K * Z)) :
  Forall (fun c => cmp k (fst c) = Lt) g -> lookup is_k g = None.
Proof.
  unfold lookup. induction 1 as [|c g Hc _ IH]; simpl; [reflexivity|].
  rewrite is_k_false; [exact IH|].
  intros E. apply (cmp_lt_neq _ _ Hc). auto.
Qed.

Lemma lookup_upsert_same a (g : list (K * Z)) :
  StronglySorted (key_lt cmp) g ->
  lookup is_k (upsert cmp k a g)
  = Some (match lookup is_k g with Some s => s + a | None => a end).
Proof.
  induction 1 as [|[k' s] g Hs IH Hall]; simpl.
  - unfold lookup; simpl. now rewrite is_k_refl.
  - destruct (cmp k k') eqn:E.
    + apply cmp_eq in E as <-. unfold lookup; simpl. now rewrite is_k_refl.
    + rewrite (lookup_above ((k', s) :: g)).
      * unfold lookup; simpl. now rewrite is_k_refl.
      * constructor; [exact E|].
        rewrite Forall_forall in *. intros c Hc.
        eapply cmp_trans; [exact E|]. now apply Hall.
    + assert (Hk' : is_k k' = false).
      { apply is_k_false. intros ->.
        assert (cmp k k = Eq) by now apply cmp_eq. congruence. }
      unfold lookup in *; simpl. rewrite Hk'. exact IH.
Qed.

Lemma lookup_upsert_other k0 a (g : list (K * Z)) :
  is_k k0 = false -> lookup is_k (upsert cmp k0 a g) = lookup is_k g.
Proof.
  intros H0. unfold lookup. induction g as [|[k' s] g IH]; simpl.
  - now rewrite H0.
  - destruct (cmp k0 k') eqn:E; simpl.
    + apply cmp_eq in E as <-. now rewrite H0.
    + now rewrite H0.
    + destruct (is_k k'); [reflexivity|exact IH].
Qed.

Lemma total_of_no_key (cells : list (K * Z)) :
  has_key is_k cells = false -> total_of is_k cells = 0.
Proof.
  unfold has_key, total_of. induction cells as [|c cells IH]; simpl;
    [reflexivity|].
  intros H. apply orb_false_iff in H as [-> H]. now apply IH.
Qed.

(** The summary holds, for each key that occurs, the sum of its rows,
    and nothing for the other keys. *)
Lemma lookup_groupby_sum (cells : list (K * Z)) :
  lookup is_k (groupby_sum cmp cells)
  = if has_key is_k cells then Some (total_of is_k cells) else None.
Proof.
  induction cells as [|c cells IH] using rev_ind; [reflexivity|].
  rewrite groupby_sum_snoc. unfold has_key, total_of in *.
  rewrite existsb_app, filter_app, map_app, sum_amounts_app. simpl.
  destruct (is_k (fst c)) eqn:Ec.
  - apply is_k_spec in Ec. rewrite Ec.
    rewrite lookup_upsert_same by apply groupby_sum_sorted.
    rewrite IH, orb_true_r. simpl.
    destruct (existsb (fun c0 => is_k (fst c0)) cells) eqn:Eh.
    + f_equal. lia.
    + pose proof (total_of_no_key cells Eh) as Hz.
      unfold total_of in Hz. rewrite Hz. f_equal. lia.
  - rewrite lookup_upsert_other by assumption.
    rewrite IH, orb_false_r. simpl.
    destruct (existsb (fun c0 => is_k (fst c0)) cells);
      [f_equal; lia|reflexivity].
Qed.

Lemma In_lookup (g : list (K * Z)) (v : Z) :
  StronglySorted (key_lt cmp) g ->
  (In (k, v) g <-> lookup is_k g = Some v).
Proof.
  unfold lookup. induction 1 as [|[k' s] g Hs IH Hall]; simpl.
  - split; [contradiction|discriminate].
  - destruct (is_k k') eqn:Ek.
    + apply is_k_spec in Ek as ->. split.
      * intros [[= ->]|Hin]; [reflexivity|].
        rewrite Forall_forall in Hall. specialize (Hall _ Hin).
        unfold key_lt in Hall; simpl in Hall.
        now apply cmp_lt_neq in Hall.
      * intros [= ->]. now left.
    + rewrite <- IH. split; [|now right].
      intros [[= -> _]|Hin]; [|assumption].
      rewrite is_k_refl in Ek. discriminate.
Qed.

End OneKey.

End GroupBy.

(** ** Totals by category *)

Lemma is_category_spec (c k : string) : is_category c k = true <-> k = c.
Proof. apply String.eqb_eq. Qed.

Lemma has_key_category (c : string) (df : list row) :
  has_key (is_category c) (category_cells df) = true <-> In c (map Category df).
Proof.
  unfold has_key, category_cells. rewrite existsb_exists. split.
  - intros (x & Hx & Hc). apply in_map_iff in Hx as (r & <- & Hr).
    apply is_category_spec in Hc. simpl in Hc. subst c. now apply in_map.
  - intros H. apply in_map_iff in H as (r & <- & Hr).
    exists (Category r, Amount r). split.
    + apply in_map_iff. eauto.
    + now apply is_category_spec.
Qed.

Lemma total_of_category (c : string) (df : list row) :
  total_of (is_category c) (category_cells df) = category_total c df.
Proof.
  unfold total_of, category_total, category_cells, is_category.
  induction df as [|r df IH]; simpl; [reflexivity|].
  destruct (Category r =? c)%string; simpl; now rewrite IH.
Qed.

Lemma category_summary_sorted (df : list row) :
  StronglySorted (key_lt String.compare) (category_summary df).
Proof.
  apply groupby_sum_sorted.
  - apply String.compare_antisym.
  - apply string_compare_lt_trans.
Qed.

(** The summary has one entry per category that occurs, with the sum of
    the amounts of that category. *)
Lemma category_summary_spec (df : list row) (c : string) (v : Z) :
  In (c, v) (category_summary df)
  <-> In c (map Category df) /\ v = category_total c df.
Proof.
  rewrite (In_lookup String.compare string_compare_eq c (is_category c)
             (is_category_spec c) _ v (category_summary_sorted df)).
  unfold category_summary.
  rewrite (lookup_groupby_sum String.compare string_compare_eq
             String.compare_antisym string_compare_lt_trans
             c (is_category c) (is_category_spec c)).
  rewrite total_of_category, <- has_key_category.
  destruct (has_key (is_category c) (category_cells df)); split.
  - intros [= <-]. auto.
  - intros [_ ->]. reflexivity.
  - discriminate.
  - intros [H _]. discriminate.
Qed.

(** ** The largest category *)

Lemma idxmax_from_spec {K} (s : list (K * Z)) (best : K * Z) :
  exists l1 v l2,
    best :: s = l1 ++ (idxmax_from best s, v) :: l2
    /\ Forall (fun c => snd c < v) l1
    /\ Forall (fun c => snd c <= v) l2.
Proof.
  revert best. induction s as [|c s IH]; intros best; simpl.
  - exists [], (snd best), []. destruct best. simpl. auto.
  - destruct (Z.ltb_spec (snd best) (snd c)) as [Hlt|Hge].
    + destruct (IH c) as (l1 & v & l2 & Heq & H1 & H2).
      exists (best :: l1), v, l2. simpl. rewrite Heq.
      split; [reflexivity|]. split; [|assumption].
      constructor; [|assumption].
      destruct l1 as [|x l1]; simpl in Heq; injection Heq as Hc _.
      * rewrite Hc in Hlt. exact Hlt.
      * subst x. inversion H1; subst. lia.
    + destruct (IH best) as (l1 & v & l2 & Heq & H1 & H2).
      destruct l1 as [|x l1]; simpl in Heq; injection Heq as Hb Hs.
      * exists [], v, (c :: l2). simpl. rewrite <- Hb, Hs.
        split; [reflexivity|]. split; [constructor|].
        constructor; [|assumption]. rewrite Hb in Hge. exact Hge.
      * subst x. exists (best :: c :: l1), v, l2. simpl.
        split; [do 2 f_equal; exact Hs|]. split; [|assumption].
        inversion H1; subst. repeat constructor; try assumption. lia.
Qed.

Lemma sorted_after {A} (R : A -> A -> Prop) (l1 l2 : list A) (x : A) :
  StronglySorted R (l1 ++ x :: l2) -> Forall (R x) l2.
Proof.
  induction l1 as [|a l1 IH]; simpl; intros H; inversion H; subst; auto.
Qed.

(** The label [idxmax] returns for a sorted summary: its value is the
    largest, and among the entries of that value its key is the least. *)
Lemma idxmax_sorted {K} (cmp : K -> K -> comparison) (g : list (K * Z)) :
  StronglySorted (key_lt cmp) g -> g <> [] ->
  exists k v, idxmax g = Some k /\ In (k, v) g
    /\ forall k' v', In (k', v') g ->
         v' <= v /\ (v' = v -> k' = k \/ cmp k k' = Lt).
Proof.
  intros Hs Hne. destruct g as [|c g]; [contradiction|].
  destruct (idxmax_from_spec g c) as (l1 & v & l2 & Heq & H1 & H2).
  exists (idxmax_from c g), v. split; [reflexivity|].
  rewrite Heq in Hs |- *. split; [apply in_or_app; right; now left|].
  intros k' v' Hin. apply sorted_after in Hs.
  rewrite Forall_forall in *.
  apply in_app_or in Hin as [Hin|[[= <- <-]|Hin]].
  - specialize (H1 _ Hin). simpl in H1. split; lia.
  - split; [lia|]. now left.
  - specialize (H2 _ Hin). specialize (Hs _ Hin). simpl in *.
    split; [assumption|]. intros _. now right.
Qed.

(** ** Order of integers *)

Lemma z_compare_eq (a b : Z) : (a ?= b) = Eq <-> a = b.
Proof. apply Z.compare_eq_iff. Qed.

Lemma z_compare_antisym (a b : Z) : (a ?= b) = CompOpp (b ?= a).
Proof. apply Z.compare_antisym. Qed.

Lemma z_compare_lt_trans (a b c : Z) :
  (a ?= b) = Lt -> (b ?= c) = Lt -> (a ?= c) = Lt.
Proof. rewrite !Z.compare_lt_iff. lia. Qed.

(** * Further properties of the page *)

(** ** What the tables keep *)

Lemma max_rowid_le (ids : list Z) (seq : Z) :
  0 <= seq -> Forall (fun i => i <= seq) ids -> max_rowid ids <= seq.
Proof.
  intros H0. induction 1 as [|i ids Hi _ IH]; simpl; lia.
Qed.

Lemma sorted_snoc {A} (R : A -> A -> Prop) (l : list A) (a : A) :
  StronglySorted R l -> Forall (fun x => R x a) l -> StronglySorted R (l ++ [a]).
Proof.
  induction 1 as [|x l Hs IH Hx]; simpl; intros Ha.
  - repeat constructor.
  - inversion Ha; subst. constructor; [auto|].
    apply Forall_app. split; [assumption|]. now constructor.
Qed.

Lemma sorted_filter {A} (R : A -> A -> Prop) (f : A -> bool) (l : list A) :
  StronglySorted R l -> StronglySorted R (filter f l).
Proof.
  induction 1 as [|x l Hs IH Hx]; simpl; [constructor|].
  destruct (f x); [|assumption]. constructor; [assumption|].
  rewrite Forall_forall in *. intros y Hy. apply filter_In in Hy as [Hy _]. auto.
Qed.

Lemma sorted_map_same {A} (R : A -> A -> Prop) (g : A -> A) (l : list A) :
  (forall x y, R x y -> R (g x) (g y)) ->
  StronglySorted R l -> StronglySorted R (map g l).
Proof.
  intros Hg. induction 1 as [|x l Hs IH Hx]; simpl; constructor; [assumption|].
  rewrite Forall_forall in *. intros y Hy.
  apply in_map_iff in Hy as (y0 & <- & Hy0). auto.
Qed.

Lemma sorted_lt_NoDup {A} (key : A -> Z) (l : list A) :
  StronglySorted (fun x y => key x < key y) l -> NoDup (map key l).
Proof.
  induction 1 as [|x l Hs IH Hx]; simpl; constructor; [|assumption].
  intros Hin. apply in_map_iff in Hin as (y & Hk & Hy).
  rewrite Forall_forall in Hx. specialize (Hx y Hy). lia.
Qed.

Lemma sorted_lt_key_inj {A} (key : A -> Z) (l : list A) (x y : A) :
  StronglySorted (fun x y => key x < key y) l ->
  In x l -> In y l -> key x = key y -> x = y.
Proof.
  induction 1 as [|a l Hs IH Ha]; simpl; [contradiction|].
  rewrite Forall_forall in Ha.
  intros [<-|Hx] [<-|Hy] Hk; auto.
  - specialize (Ha y Hy). lia.
  - specialize (Ha x Hx). lia.
Qed.

Lemma next_user_id_ok (d : db) : users_ok d -> next_user_id d = users_seq d + 1.
Proof.
  intros (_ & _ & Hall & H0). unfold next_user_id, next_rowid.
  assert (max_rowid (map u_id (users d)) <= users_seq d).
  { apply max_rowid_le; [assumption|]. rewrite Forall_forall in *.
    intros i Hi. apply in_map_iff in Hi as (r & <- & Hr).
    destruct (Hall r Hr) as [? _]. lia. }
  lia.
Qed.

Lemma next_expense_id_ok (d : db) :
  expenses_ok d -> next_expense_id d = expenses_seq d + 1.
Proof.
  intros (_ & Hall & H0). unfold next_expense_id, next_rowid.
  assert (max_rowid (map e_id (expenses d)) <= expenses_seq d).
  { apply max_rowid_le; [assumption|]. rewrite Forall_forall in *.
    intros i Hi. apply in_map_iff in Hi as (r & <- & Hr).
    destruct (Hall r Hr) as [? _]. lia. }
  lia.
Qed.

Lemma sign_up_cases d u p c :
  (fst (sign_up d u p c) = d /\ is_error (snd (sign_up d u p c)) = true)
  \/ (u <> "" /\ p <> "" /\ p = c /\ username_taken d u = false
      /\ sign_up d u p c
         = (mkdb (users d ++ [mkuser (next_user_id d) u (hash_password p)])
                 (next_user_id d) (expenses d) (expenses_seq d),
            st_success "✅ Account created! Please login.")).
Proof.
  unfold sign_up, insert_user.
  destruct (String.eqb_spec u "") as [->|Hu]; simpl; [now left|].
  destruct (String.eqb_spec p "") as [->|Hp]; simpl; [now left|].
  destruct (String.eqb_spec p c) as [Hc|Hc]; simpl; [|now left].
  destruct (username_taken d u) eqn:Ht; [now left|].
  right. repeat split; assumption.
Qed.

Lemma username_taken_iff d u :
  username_taken d u = true <-> In u (map u_username (users d)).
Proof.
  unfold username_taken. rewrite existsb_exists, in_map_iff. split.
  - intros (r & Hr & E). apply String.eqb_eq in E. eauto.
  - intros (r & E & Hr). exists r. split; [assumption|]. now apply String.eqb_eq.
Qed.

Lemma step_users_ok d d' : step d d' -> users_ok d -> users_ok d'.
Proof.
  intros Hstep Hok.
  destruct Hstep as [d u p c|d uid dt c a n Hw|d dt c a n id Hw|d id];
    try exact Hok.
  destruct (sign_up_cases d u p c) as [[-> _]|(Hu & Hp & _ & Ht & ->)];
    [exact Hok|].
  rewrite (next_user_id_ok d Hok). destruct Hok as (Hs & Hn & Hall & H0).
  unfold users_ok; simpl. split; [|split; [|split]].
  - apply sorted_snoc; [assumption|]. rewrite Forall_forall in *.
    intros r Hr. simpl. destruct (Hall r Hr) as [? _]. lia.
  - rewrite map_app. simpl.
    apply Permutation_NoDup with (l := u :: map u_username (users d)).
    + apply Permutation_cons_append.
    + constructor; [|assumption]. intros Hin.
      apply username_taken_iff in Hin. congruence.
  - apply Forall_app. split.
    + rewrite Forall_forall in *. intros r Hr.
      destruct (Hall r Hr) as (? & ? & ?). repeat split; auto; lia.
    + constructor; [|constructor]. simpl. repeat split; try lia; auto.
      exists p. auto.
  - lia.
Qed.

Lemma step_expenses_ok d d' : step d d' -> expenses_ok d -> expenses_ok d'.
Proof.
  intros Hstep Hok.
  destruct Hstep as [d u p c|d uid dt c a n Hw|d dt c a n id Hw|d id].
  - destruct (sign_up_cases d u p c) as [[-> _]|(_ & _ & _ & _ & ->)];
      exact Hok.
  - unfold add_expense, insert_expense. simpl.
    rewrite (next_expense_id_ok d Hok). destruct Hok as (Hs & Hall & H0).
    unfold widget_values_ok in Hw. rewrite !andb_true_iff in Hw.
    destruct Hw as [[_ Hc] Ha]. apply Z.leb_le in Ha.
    apply existsb_exists in Hc as (c' & Hc' & E). apply String.eqb_eq in E.
    subst c'.
    unfold expenses_ok; simpl. split; [|split].
    + apply sorted_snoc; [assumption|]. rewrite Forall_forall in *.
      intros e He. simpl. destruct (Hall e He) as [? _]. lia.
    + apply Forall_app. split.
      * rewrite Forall_forall in *. intros e He.
        destruct (Hall e He) as (? & ? & ?). repeat split; auto; lia.
      * constructor; [|constructor]. simpl. repeat split; auto; lia.
    + lia.
  - destruct Hok as (Hs & Hall & H0).
    unfold widget_values_ok in Hw. rewrite !andb_true_iff in Hw.
    destruct Hw as [[_ Hc] Ha]. apply Z.leb_le in Ha.
    apply existsb_exists in Hc as (c' & Hc' & E). apply String.eqb_eq in E.
    subst c'.
    unfold expenses_ok; simpl. split; [|split; [|assumption]].
    + apply sorted_map_same; [|assumption]. intros x y.
      now rewrite !update_row_id.
    + rewrite Forall_forall in *. intros e He.
      apply in_map_iff in He as (e0 & <- & He0).
      destruct (Hall e0 He0) as (? & ? & ?). unfold update_row.
      destruct (e_id e0 =? id); simpl; auto.
  - destruct Hok as (Hs & Hall & H0).
    unfold expenses_ok; simpl. split; [|split; [|assumption]].
    + now apply sorted_filter.
    + rewrite Forall_forall in *. intros e He.
      apply filter_In in He as [He _]. auto.
Qed.

Lemma reachable_users_ok d : reachable d -> users_ok d.
Proof.
  induction 1 as [|d d' _ IH Hstep].
  - unfold users_ok; simpl. repeat split; try constructor; lia.
  - now apply (step_users_ok d d').
Qed.

Lemma reachable_expenses_ok d : reachable d -> expenses_ok d.
Proof.
  induction 1 as [|d d' _ IH Hstep].
  - unfold expenses_ok; simpl. repeat split; try constructor; lia.
  - now apply (step_expenses_ok d d').
Qed.

(** X1: the accounts of every reachable store: rowids ascending in table
    order and between 1 and the sequence counter, user names distinct and
    not empty, and every stored password the hash of a secret that is
    not empty. *)
Theorem reachable_accounts_invariant (d : db) :
  reachable d ->
  NoDup (map u_username (users d))
  /\ NoDup (map u_id (users d))
  /\ StronglySorted Z.lt (map u_id (users d))
  /\ Forall (fun r => 1 <= u_id r <= users_seq d
                      /\ u_username r <> ""
                      /\ exists p, p <> "" /\ u_password r = hash_password p)
            (users d).
Proof.
  intros Hr. destruct (reachable_users_ok d Hr) as (Hs & Hn & Hall & _).
  split; [assumption|]. split; [now apply sorted_lt_NoDup|].
  split; [|assumption].
  clear -Hs. induction Hs as [|x l Hs IH Hx]; simpl; constructor; [assumption|].
  rewrite Forall_forall in *. intros i Hi.
  apply in_map_iff in Hi as (y & <- & Hy). auto.
Qed.

Lemma reachable_accounts_invariant_witness :
  NoDup (map u_username (users sample_db))
  /\ map u_id (users sample_db) = [1].
Proof.
  split.
  - exact (proj1 (reachable_accounts_invariant sample_db sample_db_reachable)).
  - reflexivity.
Defined.

(** X2: the expenses of every reachable store: rowids ascending in table
    order, hence distinct, and between 1 and the sequence counter; every
    amount at least 1 and every category one of the select box. *)
Theorem reachable_expenses_invariant (d : db) :
  reachable d ->
  NoDup (expense_ids d)
  /\ StronglySorted Z.lt (expense_ids d)
  /\ next_expense_id d = expenses_seq d + 1
  /\ Forall (fun e => 1 <= e_id e <= expenses_seq d
                      /\ 1 <= e_amount e
                      /\ In (e_category e) CATEGORIES)
            (expenses d).
Proof.
  intros Hr. pose proof (reachable_expenses_ok d Hr) as Hok.
  pose proof (next_expense_id_ok d Hok) as Hnext.
  destruct Hok as (Hs & Hall & _).
  split; [now apply sorted_lt_NoDup|].
  split; [|split; assumption].
  unfold expense_ids.
  clear -Hs. induction Hs as [|x l Hs IH Hx]; simpl; constructor; [assumption|].
  rewrite Forall_forall in *. intros i Hi.
  apply in_map_iff in Hi as (y & <- & Hy). auto.
Qed.

Lemma reachable_expenses_invariant_witness :
  NoDup (expense_ids sample_db) /\ expense_ids sample_db = [1; 2; 3].
Proof.
  split.
  - exact (proj1 (reachable_expenses_invariant sample_db sample_db_reachable)).
  - reflexivity.
Defined.

(** ** Accounts over time *)

Lemma steps_reachable d d' : reachable d -> steps d d' -> reachable d'.
Proof.
  intros Hr Hs. revert Hr.
  induction Hs as [d|d d' d'' _ IH Hstep]; intros Hr; [assumption|].
  apply (reachable_step d' d''); auto.
Qed.

Lemma step_users_grow d d' :
  step d d' -> exists more, users d' = users d ++ more.
Proof.
  intros [d0 u p c|d0 uid dt c a n Hw|d0 dt c a n id Hw|d0 id];
    try (exists []; simpl; now rewrite app_nil_r).
  destruct (sign_up_cases d0 u p c) as [[-> _]|(_ & _ & _ & _ & ->)].
  - exists []. now rewrite app_nil_r.
  - simpl. eauto.
Qed.

Lemma steps_users_grow d d' :
  steps d d' -> exists more, users d' = users d ++ more.
Proof.
  induction 1 as [d|d d' d'' _ [m1 E1] Hstep].
  - exists []. now rewrite app_nil_r.
  - destruct (step_users_grow _ _ Hstep) as [m2 E2].
    exists (m1 ++ m2). now rewrite E2, E1, app_assoc.
Qed.

Lemma sign_up_taken d u p c :
  username_taken d u = true ->
  fst (sign_up d u p c) = d /\ is_error (snd (sign_up d u p c)) = true.
Proof.
  intros Ht. destruct (sign_up_cases d u p c) as [H|(_ & _ & _ & Hf & _)];
    [assumption|congruence].
Qed.

(** X3: accounts are never removed or changed: after any further steps the
    user table still starts with the rows it had.  So a user name that is
    taken stays taken, and every later sign-up with it, whatever the
    secret, is refused and leaves the store as it is. *)
Theorem taken_username_stays_refused (d d' : db) (u : string) :
  steps d d' -> username_taken d u = true ->
  (exists more, users d' = users d ++ more)
  /\ username_taken d' u = true
  /\ forall p c, fst (sign_up d' u p c) = d'
                 /\ is_error (snd (sign_up d' u p c)) = true.
Proof.
  intros Hs Ht. destruct (steps_users_grow d d' Hs) as [more E].
  assert (Ht' : username_taken d' u = true).
  { apply username_taken_iff. rewrite E, map_app. apply in_or_app. left.
    now apply username_taken_iff. }
  split; [eauto|]. split; [assumption|].
  intros p c. now apply sign_up_taken.
Qed.

Lemma sample_steps :
  steps (fst (sign_up (init_db None) "alice" "s3cret" "s3cret")) sample_db.
Proof.
  unfold sample_db.
  repeat first
    [ apply steps_refl
    | eapply steps_step;
      [| first [ apply step_save; reflexivity
               | apply step_add; reflexivity ] ] ].
Qed.

Lemma taken_username_stays_refused_witness :
  is_error (snd (sign_up sample_db "alice" "other" "other")) = true.
Proof.
  refine (proj2 (proj2 (proj2 (taken_username_stays_refused _ sample_db "alice"
                                 sample_steps _)) "other" "other")).
  reflexivity.
Defined.

Lemma get_user_id_unique d r :
  NoDup (map u_username (users d)) -> In r (users d) ->
  get_user_id d (u_username r) = Some (u_id r).
Proof.
  unfold get_user_id. intros Hn Hr.
  induction (users d) as [|x l IH]; simpl in *; [contradiction|].
  inversion Hn as [|? ? Hx Hl]; subst.
  destruct (String.eqb_spec (u_username x) (u_username r)) as [E|E].
  - destruct Hr as [->|Hr]; [reflexivity|].
    exfalso. apply Hx. rewrite E. now apply in_map.
  - destruct Hr as [->|Hr]; [congruence|]. auto.
Qed.

(** X4: in a reachable store a login is accepted only for an account:
    when the login handler shows no error, the users table has a row of
    that name whose password is the hash of the secret entered, the
    session is opened under that name, and [get_user_id] of the name is
    the id of that row; when it shows an error the session is as
    before. *)
Theorem login_accepts_only_accounts
    (d : db) (st : session_state) (u p : string) :
  reachable d ->
  (is_error (snd (login d st u p)) = false ->
   exists r, In r (users d) /\ u_username r = u
             /\ u_password r = hash_password p
             /\ get_user_id d u = Some (u_id r)
             /\ fst (login d st u p) = mksession true (Some u))
  /\ (is_error (snd (login d st u p)) = true -> fst (login d st u p) = st).
Proof.
  intros Hr. destruct (reachable_users_ok d Hr) as (_ & Hn & _ & _).
  unfold login. destruct (select_user d u (hash_password p)) as [r|] eqn:E;
    simpl; split; try discriminate; try reflexivity.
  intros _. unfold select_user in E. apply find_some in E as [Hin Hm].
  apply andb_true_iff in Hm as [Hu Hp].
  apply String.eqb_eq in Hu, Hp. exists r. repeat split; auto.
  rewrite <- Hu. now apply get_user_id_unique.
Qed.

Lemma login_accepts_only_accounts_witness :
  exists r, In r (users sample_db) /\ u_username r = "alice"
            /\ u_password r = hash_password "s3cret"
            /\ get_user_id sample_db "alice" = Some (u_id r)
            /\ fst (login sample_db initial_session "alice" "s3cret")
               = mksession true (Some "alice").
Proof.
  apply (proj1 (login_accepts_only_accounts sample_db initial_session
                  "alice" "s3cret" sample_db_reachable)).
  vm_compute. reflexivity.
Defined.

(** ** Rowids over time *)

Lemma step_expenses_seq d d' : step d d' -> expenses_seq d <= expenses_seq d'.
Proof.
  intros [d0 u p c|d0 uid dt c a n Hw|d0 dt c a n id Hw|d0 id]; simpl; try lia.
  - destruct (sign_up_cases d0 u p c) as [[-> _]|(_ & _ & _ & _ & ->)];
      simpl; lia.
  - unfold next_expense_id, next_rowid. lia.
Qed.

Lemma steps_expenses_seq d d' : steps d d' -> expenses_seq d <= expenses_seq d'.
Proof.
  induction 1 as [d|d d' d'' _ IH Hstep]; [lia|].
  apply step_expenses_seq in Hstep. lia.
Qed.

(** X5: rowids of expenses are never used twice: an id that a reachable
    store holds is smaller than the id any later add assigns, also when
    the row has been deleted in between. *)
Theorem expense_ids_never_reused (d d' : db) (id : Z) :
  reachable d -> steps d d' -> In id (expense_ids d) ->
  id < next_expense_id d'
  /\ forall uid dt c a n,
       expense_ids (fst (add_expense d' uid dt c a n))
       = expense_ids d' ++ [next_expense_id d'].
Proof.
  intros Hr Hs Hin.
  destruct (reachable_expenses_ok d Hr) as (_ & Hall & _).
  assert (Hle : id <= expenses_seq d).
  { unfold expense_ids in Hin. apply in_map_iff in Hin as (e & <- & He).
    rewrite Forall_forall in Hall. destruct (Hall e He) as [? _]. lia. }
  pose proof (steps_expenses_seq d d' Hs) as Hmono.
  assert (Hlt : id < next_expense_id d').
  { unfold next_expense_id, next_rowid. lia. }
  split; [assumption|].
  intros uid dt c a n. unfold expense_ids. simpl. now rewrite map_app.
Qed.

Lemma expense_ids_never_reused_witness :
  let d1 := fst (delete_expense sample_db 3) in
  3 < next_expense_id d1
  /\ expense_ids (fst (add_expense d1 (Some 1) (mkdate 2024 3 1) "Food" 5 ""))
     = [1; 2; 4].
Proof.
  split; [|reflexivity].
  refine (proj1 (expense_ids_never_reused sample_db
                   (fst (delete_expense sample_db 3)) 3 sample_db_reachable _ _)).
  - eapply steps_step; [apply steps_refl|apply step_delete].
  - vm_compute. tauto.
Defined.

(** ** Whose rows a listing shows *)

Lemma owned_by_iff uid e : owned_by (Some uid) e = true <-> e_user_id e = Some uid.
Proof.
  unfold owned_by. destruct (e_user_id e) as [v|]; [|split; discriminate].
  rewrite Z.eqb_eq. split; congruence.
Qed.

Lemma owned_by_update dt c a n id uid e :
  owned_by uid (update_row dt c a n id e) = owned_by uid e.
Proof. unfold owned_by. now rewrite update_row_owner. Qed.

(** X6: a listing shows the rows of its user only, and an add changes the
    listing of nobody else: the frame of a session without an account is
    empty; every row listed for a user is stored under that user; after
    an add for [u] the frame of [u] is the old one followed by the new
    row, and the frame of any other user is the old one. *)
Theorem listing_is_per_user
    (d : db) (u v : Z) (dt : date) (c : string) (a : Z) (n : string) :
  get_expenses d None = []
  /\ (forall r, In r (get_expenses d (Some v)) ->
        exists e, In e (expenses d) /\ e_user_id e = Some v /\ e_id e = ID r)
  /\ get_expenses (fst (add_expense d (Some u) dt c a n)) (Some v)
     = if u =? v
       then get_expenses d (Some v)
            ++ [mkrow (next_expense_id d) (strftime dt) c a n]
       else get_expenses d (Some v).
Proof.
  split; [|split].
  - unfold get_expenses. induction (expenses d) as [|e l IH]; [reflexivity|].
    simpl. exact IH.
  - intros r Hr. apply get_expenses_In in Hr as (e & He & Ho & ->).
    exists e. split; [assumption|]. split; [now apply owned_by_iff|reflexivity].
  - unfold get_expenses. simpl. rewrite filter_app, map_app. simpl.
    rewrite (Z.eqb_sym v u).
    destruct (u =? v); simpl; [reflexivity|now rewrite app_nil_r].
Qed.

Lemma listing_is_per_user_witness :
  exists e, In e (expenses sample_db) /\ e_user_id e = Some 1 /\ e_id e = 2.
Proof.
  refine (proj1 (proj2 (listing_is_per_user sample_db 1 1 (mkdate 2024 1 1)
                          "Food" 1 ""))
                (mkrow 2 "2024-02-29" "Other" 45 "gift") _).
  vm_compute. tauto.
Defined.

Lemma get_expenses_save_other d dt c a n id v :
  (forall e, In e (expenses d) -> e_user_id e = Some v -> e_id e <> id) ->
  get_expenses (fst (save_changes d dt c a n id)) (Some v)
  = get_expenses d (Some v).
Proof.
  unfold get_expenses, save_changes, update_expenses. cbn [fst expenses].
  intros H. f_equal.
  induction (expenses d) as [|e l IH]; [reflexivity|]. cbn [map filter].
  rewrite owned_by_update.
  destruct (owned_by (Some v) e) eqn:Ho.
  - rewrite update_row_other.
    + f_equal. apply IH. intros e' He'. apply H. now right.
    + apply H; [now left|]. now apply owned_by_iff.
  - apply IH. intros e' He'. apply H. now right.
Qed.

Lemma get_expenses_delete_other d id v :
  (forall e, In e (expenses d) -> e_user_id e = Some v -> e_id e <> id) ->
  get_expenses (fst (delete_expense d id)) (Some v) = get_expenses d (Some v).
Proof.
  unfold get_expenses, delete_expense, delete_expenses. cbn [fst expenses].
  intros H. f_equal.
  induction (expenses d) as [|e l IH]; [reflexivity|]. cbn [filter].
  destruct (owned_by (Some v) e) eqn:Ho.
  - destruct (Z.eqb_spec (e_id e) id) as [E|E]; cbn [negb filter].
    + exfalso. apply (H e); [now left|now apply owned_by_iff|exact E].
    + rewrite Ho. f_equal. apply IH. intros e' He'. apply H. now right.
  - destruct (e_id e =? id); cbn [negb filter]; [|rewrite Ho];
      apply IH; intros e' He'; apply H; now right.
Qed.

(** ** One browser tab *)

Lemma run_step d st ev d' st' n :
  run d st ev = Some (d', st', n) -> d' = d \/ step d d'.
Proof.
  unfold run. destruct (logged_in st); simpl.
  - destruct ev as [u p c|u p| |dt c a nt|id dt c a nt|id]; try discriminate.
    + intros [= <- _ _]. now left.
    + destruct (widget_values_ok dt c a) eqn:Hw; [|discriminate].
      intros [= <- _ _]. right. now apply step_add.
    + destruct (listed _ id) as [r|]; [|discriminate].
      destruct (edit_form_defaults r); [|discriminate].
      destruct (widget_values_ok dt c a) eqn:Hw; [|discriminate].
      intros [= <- _ _]. right. now apply step_save.
    + destruct (listed _ id) as [r|]; [|discriminate].
      intros [= <- _ _]. right. apply step_delete.
  - destruct ev as [u p c|u p| |dt c a nt|id dt c a nt|id]; try discriminate.
    + intros [= <- _ _]. right. apply step_sign_up.
    + intros [= <- _ _]. now left.
Qed.

Lemma app_reachable_reachable d st : app_reachable d st -> reachable d.
Proof.
  induction 1 as [|d st ev d' st' n _ IH Hrun]; [apply reachable_init|].
  destruct (run_step _ _ _ _ _ _ Hrun) as [->|Hstep]; [assumption|].
  now apply (reachable_step d d').
Qed.

Lemma step_username_taken d d' u :
  step d d' -> username_taken d u = true -> username_taken d' u = true.
Proof.
  intros Hstep Ht. destruct (step_users_grow d d' Hstep) as [more E].
  apply username_taken_iff. rewrite E, map_app. apply in_or_app. left.
  now apply username_taken_iff.
Qed.

Lemma run_session_ok d st ev d' st' n :
  run d st ev = Some (d', st', n) -> session_ok d st -> session_ok d' st'.
Proof.
  intros Hrun Hok. pose proof (run_step _ _ _ _ _ _ Hrun) as Hd.
  assert (Hkeep : forall u, username_taken d u = true -> username_taken d' u = true).
  { intros u Hu. destruct Hd as [->|Hs]; [assumption|].
    now apply (step_username_taken d d'). }
  unfold run in Hrun. unfold session_ok in *.
  destruct (logged_in st) eqn:Hl; simpl in Hrun.
  - destruct Hok as (u0 & Hu0 & Ht0).
    assert (Hsame : session_ok d' st).
    { unfold session_ok. rewrite Hl. eauto. }
    unfold session_ok in Hsame. rewrite Hl in Hsame.
    destruct ev as [u p c|u p| |dt c a nt|id dt c a nt|id]; try discriminate.
    + injection Hrun as <- <- _. reflexivity.
    + destruct (widget_values_ok dt c a); [|discriminate].
      injection Hrun as _ <- _. now rewrite Hl.
    + destruct (listed _ id) as [r|]; [|discriminate].
      destruct (edit_form_defaults r); [|discriminate].
      destruct (widget_values_ok dt c a); [|discriminate].
      injection Hrun as _ <- _. now rewrite Hl.
    + destruct (listed _ id) as [r|]; [|discriminate].
      injection Hrun as _ <- _. now rewrite Hl.
  - destruct ev as [u p c|u p| |dt c a nt|id dt c a nt|id]; try discriminate.
    + injection Hrun as _ <- _. now rewrite Hl.
    + injection Hrun as <- <- _. unfold login.
      destruct (select_user d u (hash_password p)) as [r|] eqn:E; simpl.
      * exists u. split; [reflexivity|].
        unfold select_user in E. apply find_some in E as [Hin Hm].
        apply andb_true_iff in Hm as [Hu _]. apply String.eqb_eq in Hu.
        apply username_taken_iff. rewrite <- Hu. now apply in_map.
      * now rewrite Hl.
Qed.

Lemma app_reachable_session_ok d st : app_reachable d st -> session_ok d st.
Proof.
  induction 1 as [|d st ev d' st' n _ IH Hrun]; [reflexivity|].
  now apply (run_session_ok d st ev d' st' n).
Qed.

Lemma username_taken_get_user_id d u :
  username_taken d u = true ->
  exists id, get_user_id d u = Some id /\ In id (map u_id (users d)).
Proof.
  unfold username_taken, get_user_id. intros Ht.
  destruct (find (fun r => (u_username r =? u)%string) (users d)) as [r|] eqn:E.
  - exists (u_id r). split; [reflexivity|].
    apply find_some in E as [Hin _]. now apply in_map.
  - apply existsb_exists in Ht as (r & Hr & Hm).
    pose proof (find_none _ _ E r Hr) as Hf. simpl in Hf. congruence.
Qed.

(** X7: a session that is logged in always belongs to an account: in
    every state a browser tab can reach, a logged-in session carries a
    user name whose [get_user_id] is the id of a row of the users table
    (never [None]), and a logged-out session carries no name. *)
Theorem logged_in_session_has_account (d : db) (st : session_state) :
  app_reachable d st ->
  (logged_in st = true ->
   exists u id, username st = Some u /\ session_user_id d st = Some id
                /\ In id (map u_id (users d)))
  /\ (logged_in st = false -> username st = None /\ session_user_id d st = None).
Proof.
  intros Hr. apply app_reachable_session_ok in Hr. unfold session_ok in Hr.
  unfold session_user_id. split; intros Hl; rewrite Hl in Hr.
  - destruct Hr as (u & Hu & Ht).
    destruct (username_taken_get_user_id d u Ht) as (id & Hid & Hin).
    exists u, id. rewrite Hu. auto.
  - rewrite Hr. auto.
Qed.

Lemma runs_reachable d st evs d' st' :
  app_reachable d st -> runs d st evs = Some (d', st') -> app_reachable d' st'.
Proof.
  revert d st. induction evs as [|ev evs IH]; simpl; intros d st Hr.
  - intros [= <- <-]. assumption.
  - destruct (run d st ev) as [[[d1 st1] n]|] eqn:E; [|discriminate].
    apply IH. now apply (app_reachable_run d st ev d1 st1 n).
Qed.

Lemma sample_app_reachable : app_reachable (fst sample_app) (snd sample_app).
Proof.
  apply (runs_reachable (init_db None) initial_session sample_clicks).
  - apply app_reachable_init.
  - vm_compute. reflexivity.
Qed.

Lemma logged_in_session_has_account_witness :
  exists u id, username (snd sample_app) = Some u
               /\ session_user_id (fst sample_app) (snd sample_app) = Some id
               /\ In id (map u_id (users (fst sample_app))).
Proof.
  apply (proj1 (logged_in_session_has_account _ _ sample_app_reachable)).
  vm_compute. reflexivity.
Defined.

Lemma get_expenses_same d d' uid :
  expenses d' = expenses d -> get_expenses d' uid = get_expenses d uid.
Proof. unfold get_expenses. now intros ->. Qed.

Lemma get_expenses_add d u v dt c a n :
  get_expenses (fst (add_expense d (Some u) dt c a n)) (Some v)
  = if u =? v
    then get_expenses d (Some v) ++ [mkrow (next_expense_id d) (strftime dt) c a n]
    else get_expenses d (Some v).
Proof.
  unfold get_expenses. simpl. rewrite filter_app, map_app. simpl.
  rewrite (Z.eqb_sym v u).
  destruct (u =? v); simpl; [reflexivity|now rewrite app_nil_r].
Qed.

Lemma listed_In df id r : listed df id = Some r -> In r df /\ ID r = id.
Proof.
  unfold listed. intros E. apply find_some in E as [Hin Hid].
  apply Z.eqb_eq in Hid. auto.
Qed.

Lemma run_owners_exist d st ev d' st' n :
  run d st ev = Some (d', st', n) ->
  session_ok d st -> owners_exist d -> owners_exist d'.
Proof.
  intros Hrun Hses Hown. unfold owners_exist in *.
  unfold run in Hrun. destruct (logged_in st) eqn:Hl; simpl in Hrun.
  - unfold session_ok in Hses. rewrite Hl in Hses.
    destruct Hses as (u0 & Hu0 & Ht0).
    destruct (username_taken_get_user_id d u0 Ht0) as (uid & Hid & Hin).
    assert (Huid : session_user_id d st = Some uid).
    { unfold session_user_id. now rewrite Hu0. }
    rewrite Huid in Hrun.
    destruct ev as [u p c|u p| |dt c a nt|id dt c a nt|id]; try discriminate.
    + injection Hrun as <- _ _. assumption.
    + destruct (widget_values_ok dt c a); [|discriminate].
      injection Hrun as <- _ _. simpl.
      apply Forall_app. split; [assumption|].
      constructor; [|constructor]. simpl. eauto.
    + destruct (listed _ id) as [r|]; [|discriminate].
      destruct (edit_form_defaults r); [|discriminate].
      destruct (widget_values_ok dt c a); [|discriminate].
      injection Hrun as <- _ _. simpl.
      rewrite Forall_forall in *. intros e He.
      apply in_map_iff in He as (e0 & <- & He0).
      rewrite update_row_owner. auto.
    + destruct (listed _ id) as [r|]; [|discriminate].
      injection Hrun as <- _ _. simpl.
      rewrite Forall_forall in *. intros e He.
      apply filter_In in He as [He _]. auto.
  - destruct ev as [u p c|u p| |dt c a nt|id dt c a nt|id]; try discriminate.
    + injection Hrun as <- _ _.
      destruct (step_users_grow d _ (step_sign_up d u p c)) as [more E].
      rewrite sign_up_expenses, E.
      rewrite Forall_forall in *. intros e He.
      destruct (Hown e He) as (uid & Ho & Hin). exists uid.
      split; [assumption|]. rewrite map_app. apply in_or_app. now left.
    + injection Hrun as <- _ _. assumption.
Qed.

Lemma app_reachable_owners_exist d st : app_reachable d st -> owners_exist d.
Proof.
  induction 1 as [|d st ev d' st' n Hr IH Hrun]; [constructor|].
  apply (run_owners_exist d st ev d' st' n Hrun); [|assumption].
  now apply app_reachable_session_ok.
Qed.

(** X8: the owner of every stored expense is an account: in every state a
    browser tab can reach, each row of the expenses table carries the id
    of a row of the users table, never NULL, and so the row is in the
    frame of that user. *)
Theorem every_expense_has_an_owner (d : db) (st : session_state) :
  app_reachable d st ->
  forall e, In e (expenses d) ->
    exists uid, e_user_id e = Some uid /\ In uid (map u_id (users d))
      /\ In (mkrow (e_id e) (e_date e) (e_category e) (e_amount e) (e_note e))
            (get_expenses d (Some uid)).
Proof.
  intros Hr e He. apply app_reachable_owners_exist in Hr.
  unfold owners_exist in Hr. rewrite Forall_forall in Hr.
  destruct (Hr e He) as (uid & Ho & Hin). exists uid.
  split; [assumption|]. split; [assumption|].
  apply get_expenses_In. exists e. split; [assumption|].
  split; [now apply owned_by_iff|reflexivity].
Qed.

Lemma every_expense_has_an_owner_witness :
  exists uid, Some 2 = Some uid /\ In uid (map u_id (users (fst sample_app)))
    /\ In (mkrow 3 "2024-02-01" "Food" 30 "")
          (get_expenses (fst sample_app) (Some uid)).
Proof.
  apply (every_expense_has_an_owner _ _ sample_app_reachable
           (mkexpense 3 (Some 2) "2024-02-01" "Food" 30 "")).
  vm_compute. tauto.
Defined.

Ltac run_inv H :=
  match type of H with
  | Some (?a, ?b, _) = Some (?d', ?st', _) =>
      let E1 := fresh in
      let E2 := fresh in
      assert (E1 : d' = a) by congruence;
      assert (E2 : st' = b) by congruence;
      clear H; try subst d'; try subst st'
  end.

(** X9: a user changes nobody else's ledger: whatever button is clicked
    in a state a browser tab can reach, the frame of every user other
    than the one of the session is after the run what it was before. *)
Theorem run_keeps_other_ledgers
    (d : db) (st : session_state) (ev : event)
    (d' : db) (st' : session_state) (n : option notice) (v : Z) :
  app_reachable d st -> run d st ev = Some (d', st', n) ->
  session_user_id d st <> Some v ->
  get_expenses d' (Some v) = get_expenses d (Some v).
Proof.
  intros Hr Hrun Hv.
  pose proof (app_reachable_session_ok d st Hr) as Hses.
  destruct (reachable_expenses_ok d (app_reachable_reachable d st Hr))
    as (Hsorted & _ & _).
  unfold run in Hrun. destruct (logged_in st) eqn:Hl; cbn [negb] in Hrun.
  - unfold session_ok in Hses. rewrite Hl in Hses.
    destruct Hses as (u0 & Hu0 & Ht0).
    destruct (username_taken_get_user_id d u0 Ht0) as (uid & Hid & Hin).
    assert (Huid : session_user_id d st = Some uid).
    { unfold session_user_id. now rewrite Hu0. }
    rewrite Huid in Hrun, Hv.
    assert (Hne : uid <> v) by congruence.
    assert (Hother : forall r, In r (get_expenses d (Some uid)) ->
              forall e, In e (expenses d) -> e_user_id e = Some v ->
                        e_id e <> ID r).
    { intros r Hin_r e He Ho Heq.
      apply get_expenses_In in Hin_r as (e0 & He0 & Ho0 & ->). simpl in Heq.
      assert (e = e0) by
        (apply (sorted_lt_key_inj e_id (expenses d)); assumption).
      subst e0. apply owned_by_iff in Ho0. congruence. }
    destruct ev as [u p c|u p| |dt c a nt|id dt c a nt|id]; try discriminate.
    + run_inv Hrun. reflexivity.
    + destruct (widget_values_ok dt c a); [|discriminate].
      run_inv Hrun. rewrite get_expenses_add.
      destruct (Z.eqb_spec uid v); [contradiction|reflexivity].
    + destruct (listed _ id) as [r|] eqn:El; [|discriminate].
      destruct (edit_form_defaults r); [|discriminate].
      destruct (widget_values_ok dt c a); [|discriminate].
      run_inv Hrun. apply listed_In in El as [Hin_r _].
      apply get_expenses_save_other. now apply Hother.
    + destruct (listed _ id) as [r|] eqn:El; [|discriminate].
      run_inv Hrun. apply listed_In in El as [Hin_r _].
      apply get_expenses_delete_other. now apply Hother.
  - destruct ev as [u p c|u p| |dt c a nt|id dt c a nt|id]; try discriminate.
    + run_inv Hrun. apply get_expenses_same.
      apply sign_up_expenses.
    + run_inv Hrun. reflexivity.
Qed.

Lemma run_keeps_other_ledgers_witness :
  get_expenses (fst (delete_expense (fst sample_app) 3)) (Some 1)
  = get_expenses (fst sample_app) (Some 1).
Proof.
  apply (run_keeps_other_ledgers (fst sample_app) (snd sample_app)
           (click_delete 3) _ (snd sample_app)
           (Some (snd (delete_expense (fst sample_app) 3))) 1
           sample_app_reachable).
  - vm_compute. reflexivity.
  - vm_compute. discriminate.
Defined.

(** ** Saving and deleting *)

Lemma db_eta (d : db) :
  mkdb (users d) (users_seq d) (expenses d) (expenses_seq d) = d.
Proof. now destruct d. Qed.

Lemma save_absent d dt c a n id :
  ~ In id (expense_ids d) -> fst (save_changes d dt c a n id) = d.
Proof.
  intros H. unfold save_changes, update_expenses. cbn [fst].
  rewrite map_update_row_fresh by exact H. apply db_eta.
Qed.



Lemma list_index_nth (x : string) (l : list string) (i : nat) :
  list_index x l = Some i -> nth_error l i = Some x.
Proof.
  revert i. induction l as [|y l IH]; simpl; intros i; [discriminate|].
  destruct (String.eqb_spec y x) as [->|_].
  - intros [= <-]. reflexivity.
  - destruct (list_index x l) as [j|]; [|discriminate].
    intros [= <-]. simpl. now apply IH.
Qed.

Lemma list_index_In (x : string) (l : list string) :
  In x l -> exists i, list_index x l = Some i.
Proof.
  induction l as [|y l IH]; simpl; [contradiction|]. intros H.
  destruct (String.eqb_spec y x) as [_|Hne]; [eauto|].
  destruct H as [H|H]; [contradiction|].
  destruct (IH H) as [i ->]. eauto.
Qed.

Lemma map_update_row_same (l : list expense_row) (e : expense_row) :
  StronglySorted (fun x y => e_id x < e_id y) l -> In e l ->
  map (update_row (e_date e) (e_category e) (e_amount e) (e_note e) (e_id e)) l
  = l.
Proof.
  intros Hs He. rewrite <- (map_id l) at 2. apply map_ext_in. intros x Hx.
  unfold update_row. destruct (Z.eqb_spec (e_id x) (e_id e)) as [E|_];
    [|reflexivity].
  assert (x = e) by (apply (sorted_lt_key_inj e_id l); assumption).
  subst x. now destruct e.
Qed.

(** X11: opening the edit form of a listed row and saving it untouched
    changes nothing: in a reachable store the form of every listed row can
    be built (the date parses, the category is one of the select box, the
    amount is at least 1), it starts with the values of the row, the
    widgets accept these values, and saving them under the id of the row
    gives back the same store. *)
Theorem edit_then_save_unchanged (d : db) (uid : option Z) (r : row) :
  reachable d -> In r (get_expenses d uid) ->
  exists dt,
    edit_form_defaults r = Some (dt, Category r, Amount r, Note r)
    /\ strftime dt = Date r
    /\ widget_values_ok dt (Category r) (Amount r) = true
    /\ fst (save_changes d dt (Category r) (Amount r) (Note r) (ID r)) = d.
Proof.
  intros Hr Hin.
  destruct (reachable_expenses_ok d Hr) as (Hsorted & Hall & _).
  pose proof (reachable_strftime d Hr) as Hdates.
  apply get_expenses_In in Hin as (e & He & _ & ->).
  cbn [ID Date Category Amount Note].
  rewrite Forall_forall in Hall, Hdates.
  destruct (Hall e He) as (_ & Ha & Hc).
  destruct (Hdates e He) as (dt & Hv & Hd).
  exists dt. unfold edit_form_defaults, to_datetime.
  cbn [ID Date Category Amount Note].
  rewrite Hd, (fromisoformat_strftime dt Hv).
  destruct (list_index_In _ _ Hc) as [i Hi]. rewrite Hi.
  unfold selectbox. rewrite (list_index_nth _ _ _ Hi).
  rewrite (proj2 (Z.leb_le _ _) Ha).
  split; [reflexivity|]. split; [reflexivity|]. split.
  - unfold widget_values_ok. rewrite Hv, (proj2 (Z.leb_le _ _) Ha).
    rewrite andb_true_r. cbn [andb]. apply existsb_exists.
    exists (e_category e). split; [assumption|apply String.eqb_refl].
  - unfold save_changes, update_expenses. cbn [fst]. rewrite <- Hd.
    rewrite map_update_row_same by assumption. apply db_eta.
Qed.

Lemma edit_then_save_unchanged_witness :
  exists dt,
    edit_form_defaults (mkrow 2 "2024-02-29" "Other" 45 "gift")
    = Some (dt, "Other", 45, "gift")
    /\ strftime dt = "2024-02-29"
    /\ widget_values_ok dt "Other" 45 = true
    /\ fst (save_changes sample_db dt "Other" 45 "gift" 2) = sample_db.
Proof.
  apply (edit_then_save_unchanged sample_db (Some 1)
           (mkrow 2 "2024-02-29" "Other" 45 "gift") sample_db_reachable).
  vm_compute. tauto.
Defined.

(** X12: an add followed by the delete of the id it assigned brings back
    the rows and the users that were stored before; only the sequence
    counter has moved, to that id. *)
Theorem add_then_delete_restores_rows
    (d : db) (uid : option Z) (dt : date) (c : string) (a : Z) (n : string) :
  let d1 := fst (add_expense d uid dt c a n) in
  let d2 := fst (delete_expense d1 (next_expense_id d)) in
  expenses d2 = expenses d /\ users d2 = users d
  /\ expenses_seq d2 = next_expense_id d
  /\ (forall u, get_expenses d2 u = get_expenses d u)
  /\ next_expense_id d < next_expense_id d2.
Proof.
  intros d1 d2.
  assert (E : expenses d2 = expenses d).
  { subst d2 d1. unfold delete_expense, delete_expenses, add_expense,
      insert_expense. cbn [fst expenses].
    rewrite filter_app. cbn [filter e_id]. rewrite Z.eqb_refl. cbn [negb].
    rewrite app_nil_r. apply filter_all_true. intros e He.
    destruct (Z.eqb_spec (e_id e) (next_expense_id d)) as [Heq|]; [|reflexivity].
    exfalso. apply (next_expense_id_fresh d). unfold expense_ids.
    rewrite <- Heq. now apply in_map. }
  split; [exact E|]. split; [reflexivity|]. split; [reflexivity|].
  split; [intros u; now apply get_expenses_same|].
  change (next_expense_id d
          < Z.max (next_expense_id d) (max_rowid (map e_id (expenses d2))) + 1).
  lia.
Qed.

(** ** Dates as texts, and the filter in general *)

Lemma date_leb_iff (d1 d2 : date) :
  date_leb d1 d2 = true
  <-> year d1 < year d2
      \/ (year d1 = year d2
          /\ (month d1 < month d2
              \/ (month d1 = month d2 /\ day d1 <= day d2))).
Proof.
  unfold date_leb, date_compare.
  destruct (Z.compare_spec (year d1) (year d2));
    [destruct (Z.compare_spec (month d1) (month d2));
     [destruct (Z.compare_spec (day d1) (day d2))|..]|..];
    split; intros; try discriminate; try reflexivity; lia.
Qed.

Lemma date_leb_trans (d1 d2 d3 : date) :
  date_leb d1 d2 = true -> date_leb d2 d3 = true -> date_leb d1 d3 = true.
Proof. rewrite !date_leb_iff. lia. Qed.

Lemma date_compare_gt_leb (d1 d2 : date) :
  date_compare d1 d2 = Gt -> date_leb d1 d2 = false.
Proof. unfold date_leb. now intros ->. Qed.

Lemma filter_idem {A} (f : A -> bool) (l : list A) :
  filter f (filter f l) = filter f l.
Proof.
  induction l as [|a l IH]; simpl; [reflexivity|].
  destruct (f a) eqn:E; simpl; [rewrite E; f_equal|]; exact IH.
Qed.

Lemma dates_are_iso_filter (f : row -> bool) (df : list row) :
  dates_are_iso df -> dates_are_iso (filter f df).
Proof.
  unfold dates_are_iso. rewrite !Forall_forall. intros H r Hr.
  apply filter_In in Hr as [Hr _]. auto.
Qed.

(** X14: the filter in general: on a frame whose dates are in ISO format
    it returns exactly the rows whose category is the one asked for (any
    category for "All") and whose date lies between the two bounds, both
    included, in the order of the frame; filtering the result again with
    the same widgets changes nothing; and a start date after the end
    date leaves no row. *)
Theorem filter_keeps_exactly_retained
    (df : list row) (c : string) (s e : date) :
  dates_are_iso df ->
  exists out,
    filtered_df df c s e = Some out
    /\ out = filter (retained c s e) df
    /\ (forall r, In r out <->
          In r df
          /\ (c = "All" \/ Category r = c)
          /\ exists t, to_datetime (Date r) = Some t
                       /\ date_leb s t = true /\ date_leb t e = true)
    /\ filtered_df out c s e = Some out
    /\ (date_compare s e = Gt -> out = []).
Proof.
  intros Hiso. exists (filter (retained c s e) df).
  split; [now apply filtered_df_spec|]. split; [reflexivity|].
  assert (Hret : forall r, retained c s e r = true <->
            (c = "All" \/ Category r = c)
            /\ exists t, to_datetime (Date r) = Some t
                         /\ date_leb s t = true /\ date_leb t e = true).
  { intros r. unfold retained.
    rewrite andb_true_iff, orb_true_iff, !String.eqb_eq.
    destruct (to_datetime (Date r)) as [t|].
    - rewrite andb_true_iff. split.
      + intros [Hc Hd]. split; [assumption|]. eauto.
      + intros [Hc (t' & [= <-] & Hd)]. auto.
    - split; [intros [_ H]; discriminate|intros [_ (t & H & _)]; discriminate]. }
  split; [|split].
  - intros r. rewrite filter_In, Hret. reflexivity.
  - rewrite filtered_df_spec by now apply dates_are_iso_filter.
    now rewrite filter_idem.
  - intros Hgt. apply date_compare_gt_leb in Hgt.
    destruct (filter (retained c s e) df) as [|r out] eqn:E; [reflexivity|].
    assert (Hin : In r (filter (retained c s e) df)) by (rewrite E; now left).
    apply filter_In in Hin as [_ Hr]. apply Hret in Hr as [_ (t & _ & H1 & H2)].
    rewrite (date_leb_trans s t e H1 H2) in Hgt. discriminate.
Qed.

Lemma filter_keeps_exactly_retained_witness :
  exists out,
    filtered_df sample_df "Food" (mkdate 2024 1 1) (mkdate 2024 1 31) = Some out
    /\ out = filter (retained "Food" (mkdate 2024 1 1) (mkdate 2024 1 31)) sample_df
    /\ (forall r, In r out <->
          In r sample_df
          /\ ("Food" = "All" \/ Category r = "Food")
          /\ exists t, to_datetime (Date r) = Some t
                       /\ date_leb (mkdate 2024 1 1) t = true
                       /\ date_leb t (mkdate 2024 1 31) = true)
    /\ filtered_df out "Food" (mkdate 2024 1 1) (mkdate 2024 1 31) = Some out
    /\ (date_compare (mkdate 2024 1 1) (mkdate 2024 1 31) = Gt -> out = []).
Proof.
  apply filter_keeps_exactly_retained.
  unfold dates_are_iso.
  repeat (constructor; [reflexivity|]). constructor.
Defined.

(** ** Reports and the order of the rows *)

Lemma sorted_summaries_ext {K} (cmp : K -> K -> comparison)
    (g1 g2 : list (K * Z)) :
  (forall a b, cmp a b = Eq <-> a = b) ->
  (forall a b c, cmp a b = Lt -> cmp b c = Lt -> cmp a c = Lt) ->
  StronglySorted (key_lt cmp) g1 -> StronglySorted (key_lt cmp) g2 ->
  (forall c, In c g1 <-> In c g2) -> g1 = g2.
Proof.
  intros cmp_eq cmp_trans H1. revert g2.
  assert (Hirr : forall a b : K * Z, key_lt cmp a b -> key_lt cmp b a -> False).
  { unfold key_lt. intros a b Hab Hba.
    pose proof (cmp_trans _ _ _ Hab Hba) as H.
    rewrite (proj2 (cmp_eq (fst a) (fst a)) eq_refl) in H. discriminate. }
  assert (Hrefl : forall a : K * Z, key_lt cmp a a -> False).
  { intros a H. exact (Hirr a a H H). }
  induction H1 as [|a t1 Hs1 IH Ha]; intros g2 H2 Hiff.
  - destruct g2 as [|b t2]; [reflexivity|].
    exfalso. apply (Hiff b). now left.
  - destruct H2 as [|b t2 Hs2 Hb].
    { exfalso. apply (Hiff a). now left. }
    rewrite Forall_forall in Ha, Hb.
    assert (Eab : a = b).
    { destruct (proj1 (Hiff a) (or_introl eq_refl)) as [E|Hin2]; [auto|].
      destruct (proj2 (Hiff b) (or_introl eq_refl)) as [E|Hin1]; [auto|].
      exfalso. exact (Hirr a b (Ha b Hin1) (Hb a Hin2)). }
    subst b. f_equal. apply IH; [assumption|].
    intros c. split; intros Hc.
    + destruct (proj1 (Hiff c) (or_intror Hc)) as [E|H]; [|assumption].
      subst c. exfalso. exact (Hrefl a (Ha a Hc)).
    + destruct (proj2 (Hiff c) (or_intror Hc)) as [E|H]; [|assumption].
      subst c. exfalso. exact (Hrefl a (Hb a Hc)).
Qed.

Lemma sum_filter_perm {A} (f : A -> bool) (g : A -> Z) (l l' : list A) :
  Permutation l l' ->
  sum_amounts (map g (filter f l)) = sum_amounts (map g (filter f l')).
Proof.
  induction 1 as [|x l l' _ IH|x y l|l l' l'' _ IH1 _ IH2]; simpl.
  - reflexivity.
  - destruct (f x); simpl; lia.
  - destruct (f x), (f y); simpl; lia.
  - congruence.
Qed.

Lemma sum_map_perm {A} (g : A -> Z) (l l' : list A) :
  Permutation l l' -> sum_amounts (map g l) = sum_amounts (map g l').
Proof.
  induction 1 as [|x l l' _ IH|x y l|l l' l'' _ IH1 _ IH2]; simpl; lia.
Qed.

Lemma total_expense_sum (df : list row) :
  total_expense df = sum_amounts (map Amount df).
Proof. now destruct df. Qed.

Lemma existsb_perm {A} (f : A -> bool) (l l' : list A) :
  Permutation l l' -> existsb f l = existsb f l'.
Proof.
  intros Hp. destruct (existsb f l) eqn:E; symmetry.
  - apply existsb_exists in E as (x & Hx & Hf). apply existsb_exists.
    exists x. split; [|assumption]. eapply Permutation_in; eassumption.
  - destruct (existsb f l') eqn:E'; [|reflexivity].
    apply existsb_exists in E' as (x & Hx & Hf).
    assert (existsb f l = true).
    { apply existsb_exists. exists x. split; [|assumption].
      eapply Permutation_in; [apply Permutation_sym|]; eassumption. }
    congruence.
Qed.






(** ** The shape of a stored password *)

Lemma compress_length (h block : list Z) :
  List.length h = 8%nat -> List.length (SHA256.compress h block) = 8%nat.
Proof.
  intros H. unfold SHA256.compress. rewrite length_map, length_combine, H.
  reflexivity.
Qed.

Lemma blocks_length (fuel : nat) (ws h : list Z) :
  List.length h = 8%nat -> List.length (SHA256.blocks fuel ws h) = 8%nat.
Proof.
  revert ws h. induction fuel as [|fuel IH]; intros ws h H; simpl.
  - now destruct ws.
  - destruct ws; [assumption|]. apply IH. now apply compress_length.
Qed.

Lemma hex_word_length (w : Z) : List.length (SHA256.hex_word w) = 8%nat.
Proof. reflexivity. Qed.

Lemma flat_map_hex_length (l : list Z) :
  List.length (flat_map SHA256.hex_word l) = (8 * List.length l)%nat.
Proof.
  induction l as [|w l IH]; [reflexivity|].
  cbn [flat_map]. rewrite length_app, hex_word_length, IH. simpl List.length. lia.
Qed.

Lemma string_of_list_ascii_length (l : list ascii) :
  String.length (string_of_list_ascii l) = List.length l.
Proof. induction l as [|c l IH]; simpl; congruence. Qed.

Lemma hex_digit_is_lower_hex (v : Z) :
  0 <= v < 16 -> is_lower_hex (SHA256.hex_digit v) = true.
Proof.
  intros H. destruct v as [|p|p]; [reflexivity| |lia].
  do 4 (destruct p as [p|p|]; try lia; try reflexivity).
Qed.

Lemma hex_word_is_lower_hex (w : Z) :
  Forall (fun c => is_lower_hex c = true) (SHA256.hex_word w).
Proof.
  unfold SHA256.hex_word. apply Forall_forall. intros c Hc.
  apply in_map_iff in Hc as (i & <- & _).
  apply hex_digit_is_lower_hex. apply Z.mod_pos_bound. lia.
Qed.

Lemma hash_password_shape (password : string) :
  String.length (hash_password password) = 64%nat
  /\ Forall (fun c => is_lower_hex c = true)
            (list_ascii_of_string (hash_password password)).
Proof.
  unfold hash_password, SHA256.hexdigest. split.
  - rewrite string_of_list_ascii_length, flat_map_hex_length.
    unfold SHA256.digest. rewrite blocks_length; reflexivity.
  - rewrite list_ascii_of_string_of_list_ascii.
    apply Forall_flat_map. apply Forall_forall. intros w _.
    apply hex_word_is_lower_hex.
Qed.

(** X18: what is stored as a password is never the secret as entered but
    a text of 64 lower-case hexadecimal digits: this is the form of
    [hash_password] of any text, and so of the password column of every
    row of the users table of a reachable store. *)
Theorem stored_passwords_are_hex64 (password : string) (d : db) :
  String.length (hash_password password) = 64%nat
  /\ Forall (fun c => is_lower_hex c = true)
            (list_ascii_of_string (hash_password password))
  /\ (reachable d ->
      Forall (fun r => String.length (u_password r) = 64%nat
                       /\ Forall (fun c => is_lower_hex c = true)
                                 (list_ascii_of_string (u_password r)))
             (users d)).
Proof.
  destruct (hash_password_shape password) as [Hlen Hhex].
  split; [assumption|]. split; [assumption|].
  intros Hr. destruct (reachable_users_ok d Hr) as (_ & _ & Hall & _).
  rewrite Forall_forall in *. intros r Hin.
  destruct (Hall r Hin) as (_ & _ & p & _ & ->). apply hash_password_shape.
Qed.

Lemma stored_passwords_are_hex64_witness :
  Forall (fun r => String.length (u_password r) = 64%nat
                   /\ Forall (fun c => is_lower_hex c = true)
                             (list_ascii_of_string (u_password r)))
         (users sample_db).
Proof.
  exact (proj2 (proj2 (stored_passwords_are_hex64 "" sample_db))
               sample_db_reachable).
Defined.

(** ** The recent expenses *)

Lemma insert_by_date_perm (r : row) (l : list row) :
  Permutation (insert_by_date r l) (r :: l).
Proof.
  induction l as [|x l IH]; simpl; [reflexivity|].
  destruct (String.leb (Date x) (Date r)); [reflexivity|].
  rewrite IH. apply perm_swap.
Qed.

Lemma insert_by_date_sorted (r : row) (l : list row) :
  StronglySorted date_desc l -> StronglySorted date_desc (insert_by_date r l).
Proof.
  induction 1 as [|x l Hs IH Hx]; simpl.
  - repeat constructor.
  - destruct (String.leb (Date x) (Date r)) eqn:E.
    + constructor; [now constructor|].
      constructor; [exact E|].
      rewrite Forall_forall in *. intros y Hy. unfold date_desc in *.
      eapply string_leb_trans; [apply Hx; exact Hy|exact E].
    + constructor; [assumption|].
      rewrite Forall_forall in *. intros y Hy.
      apply (Permutation_in _ (insert_by_date_perm r l)) in Hy.
      destruct Hy as [Ey|Hy]; [subst y|now apply Hx].
      unfold date_desc.
      destruct (String.leb_total (Date x) (Date r)); [congruence|assumption].
Qed.

Lemma sort_by_date_desc_sorted (df : list row) :
  sorted_by_date_desc df (sort_by_date_desc df).
Proof.
  unfold sorted_by_date_desc, sort_by_date_desc.
  induction df as [|r df [IHp IHs]]; simpl.
  - split; constructor.
  - split.
    + rewrite insert_by_date_perm. now constructor.
    + now apply insert_by_date_sorted.
Qed.

Lemma sorted_app_between {A} (R : A -> A -> Prop) (l1 l2 : list A) :
  StronglySorted R (l1 ++ l2) ->
  StronglySorted R l1 /\ forall x y, In x l1 -> In y l2 -> R x y.
Proof.
  induction l1 as [|a l1 IH]; simpl; intros H.
  - split; [constructor|contradiction].
  - inversion H as [|? ? Hs Ha]; subst. destruct (IH Hs) as [Hs1 Hb].
    rewrite Forall_forall in Ha. split.
    + constructor; [assumption|]. apply Forall_forall. intros y Hy.
      apply Ha. apply in_or_app. now left.
    + intros x y [<-|Hx] Hy; [|now apply Hb].
      apply Ha. apply in_or_app. now right.
Qed.

Lemma desc_texts_unique (l1 l2 : list string) :
  Permutation l1 l2 ->
  StronglySorted (fun a b => String.leb b a = true) l1 ->
  StronglySorted (fun a b => String.leb b a = true) l2 ->
  l1 = l2.
Proof.
  intros Hp H1. revert l2 Hp.
  induction H1 as [|a t1 Hs1 IH Ha]; intros l2 Hp H2.
  - apply Permutation_nil in Hp. now subst.
  - destruct H2 as [|b t2 Hs2 Hb].
    { apply Permutation_sym, Permutation_nil in Hp. discriminate. }
    rewrite Forall_forall in Ha, Hb.
    assert (Eab : a = b).
    { assert (Hin_a : In a (b :: t2))
        by (eapply Permutation_in; [exact Hp|now left]).
      assert (Hin_b : In b (a :: t1))
        by (eapply Permutation_in; [apply Permutation_sym; exact Hp|now left]).
      destruct Hin_a as [E|Hin_a]; [auto|].
      destruct Hin_b as [E|Hin_b]; [auto|].
      apply String.leb_antisym; [apply Hb|apply Ha]; assumption. }
    subst b. f_equal. apply IH; [|assumption].
    now apply Permutation_cons_inv in Hp.
Qed.

Lemma sorted_dates_desc (l : list row) :
  StronglySorted date_desc l ->
  StronglySorted (fun a b => String.leb b a = true) (map Date l).
Proof.
  induction 1 as [|x l Hs IH Hx]; simpl; constructor; [assumption|].
  rewrite Forall_forall in *. intros s Hin.
  apply in_map_iff in Hin as (y & <- & Hy). now apply Hx.
Qed.

(** X19: the five recent expenses: sorting by descending date text and
    taking five rows is possible for every frame; whatever order the sort
    gives to rows of one date, the rows taken are rows of the frame, as
    many as the frame has up to five, in descending order of date; every
    row of the frame is either among them or no later than each of them;
    and their dates are always the same list. *)
Theorem recent_expenses_are_the_latest (df : list row) :
  is_recent_expenses df (firstn 5 (sort_by_date_desc df))
  /\ forall out, is_recent_expenses df out ->
       List.length out = Nat.min 5 (List.length df)
       /\ incl out df
       /\ StronglySorted date_desc out
       /\ (forall r r', In r out -> In r' df ->
             In r' out \/ String.leb (Date r') (Date r) = true)
       /\ map Date out = map Date (firstn 5 (sort_by_date_desc df)).
Proof.
  split.
  - exists (sort_by_date_desc df). split; [apply sort_by_date_desc_sorted|reflexivity].
  - intros out (sorted & [Hp Hs] & ->).
    pose proof (firstn_skipn 5 sorted) as Hsplit.
    pose proof Hs as Hs0.
    rewrite <- Hsplit in Hs0. apply sorted_app_between in Hs0 as [Hs1 Hbetween].
    split; [|split; [|split; [|split]]].
    + rewrite length_firstn. now rewrite (Permutation_length Hp).
    + intros r Hr. eapply Permutation_in; [exact Hp|].
      rewrite <- Hsplit. apply in_or_app. now left.
    + exact Hs1.
    + intros r r' Hr Hr'.
      apply (Permutation_in _ (Permutation_sym Hp)) in Hr'.
      rewrite <- Hsplit in Hr'. apply in_app_or in Hr' as [H|H]; [now left|].
      right. exact (Hbetween r r' Hr H).
    + destruct (sort_by_date_desc_sorted df) as [Hp' Hs'].
      rewrite <- !firstn_map. f_equal. apply desc_texts_unique.
      * apply Permutation_map. rewrite Hp. now apply Permutation_sym.
      * now apply sorted_dates_desc.
      * now apply sorted_dates_desc.
Qed.

Lemma recent_expenses_are_the_latest_witness :
  List.length (firstn 5 (sort_by_date_desc sample_df))
  = Nat.min 5 (List.length sample_df)
  /\ map Date (firstn 5 (sort_by_date_desc sample_df))
     = ["2024-02-29"; "2024-02-01"; "2024-01-05"].
Proof.
  destruct (recent_expenses_are_the_latest sample_df) as [Hrec Hall].
  split; [exact (proj1 (Hall _ Hrec))|reflexivity].
Defined.

(** ** Sign-up, case by case *)

(** X20: a sign-up is accepted exactly when the name and the secret are
    not empty, the confirmation repeats the secret and the name has no
    account yet; it then appends one account, of a new id, with the hash
    of the secret, and touches no expense.  In every other case it shows
    an error and leaves the store as it is; an empty field is reported
    before a wrong confirmation, and that before a name that is taken. *)
Theorem sign_up_outcomes (d : db) (u p c : string) :
  (is_error (snd (sign_up d u p c)) = false
   <-> u <> "" /\ p <> "" /\ p = c /\ username_taken d u = false)
  /\ (is_error (snd (sign_up d u p c)) = true -> fst (sign_up d u p c) = d)
  /\ (is_error (snd (sign_up d u p c)) = false ->
      users (fst (sign_up d u p c))
      = users d ++ [mkuser (next_user_id d) u (hash_password p)]
      /\ ~ In (next_user_id d) (map u_id (users d))
      /\ expenses (fst (sign_up d u p c)) = expenses d)
  /\ (u = "" \/ p = "" ->
      snd (sign_up d u p c) = st_error "❌ Fields cannot be empty.")
  /\ (u <> "" -> p <> "" -> p <> c ->
      snd (sign_up d u p c) = st_error "❌ Passwords do not match.")
  /\ (u <> "" -> p <> "" -> p = c -> username_taken d u = true ->
      snd (sign_up d u p c) = st_error "❌ Username already exists.").
Proof.
  assert (Hfresh : ~ In (next_user_id d) (map u_id (users d))).
  { unfold next_user_id, next_rowid. intros H. apply max_rowid_ge in H. lia. }
  unfold sign_up, insert_user.
  destruct (String.eqb_spec u "") as [Hu|Hu]; cbn [orb negb].
  { cbn [fst snd is_error]. repeat split; try discriminate; try tauto. }
  destruct (String.eqb_spec p "") as [Hp|Hp]; cbn [orb negb].
  { cbn [fst snd is_error]. repeat split; try discriminate; try tauto. }
  destruct (String.eqb_spec p c) as [Hc|Hc]; cbn [orb negb].
  2:{ cbn [fst snd is_error]. repeat split; try discriminate; try tauto. }
  destruct (username_taken d u) eqn:Ht; cbn [fst snd is_error users expenses].
  - repeat split; try discriminate; try tauto.
  - repeat split; try discriminate; try tauto.
Qed.

Lemma sign_up_outcomes_witness :
  is_error (snd (sign_up (init_db None) "alice" "s3cret" "s3cret")) = false
  /\ snd (sign_up sample_db "alice" "x" "x")
     = st_error "❌ Username already exists.".
Proof.
  split.
  - apply (proj2 (proj1 (sign_up_outcomes (init_db None)
                           "alice" "s3cret" "s3cret"))).
    repeat split; try discriminate; reflexivity.
  - apply (proj2 (proj2 (proj2 (proj2 (proj2
             (sign_up_outcomes sample_db "alice" "x" "x")))))).
    + discriminate.
    + discriminate.
    + reflexivity.
    + reflexivity.
Defined.

(** ** One row per id *)




(** ** An add and the reports *)

Lemma category_total_app (k : string) (l1 l2 : list row) :
  category_total k (l1 ++ l2) = category_total k l1 + category_total k l2.
Proof.
  unfold category_total. now rewrite filter_app, map_app, sum_amounts_app.
Qed.

(** * The reports in float64 *)

(** ** Where float64 sums are exact *)

Lemma f64_round_exact (z : Z) : Z.abs z <= 2 ^ 53 -> f64_round z = z.
Proof.
  intros H. unfold f64_round.
  destruct (Z.ltb_spec (Z.abs z) (2 ^ 53)) as [_|Hge]; [reflexivity|].
  assert (E : z = 2 ^ 53 \/ z = - 2 ^ 53) by lia.
  destruct E as [-> | ->]; reflexivity.
Qed.

Lemma f64_add_exact (x y : Z) :
  0 <= x -> 0 <= y -> x + y <= 2 ^ 53 -> f64_add x y = x + y.
Proof. intros. unfold f64_add. apply f64_round_exact. lia. Qed.

Lemma f64_sub_exact (x y : Z) :
  0 <= y <= x -> x <= 2 ^ 53 -> f64_sub x y = x - y.
Proof. intros. unfold f64_sub. apply f64_round_exact. lia. Qed.

Lemma sum_amounts_nonneg (l : list Z) :
  Forall (fun a => 0 <= a) l -> 0 <= sum_amounts l.
Proof. induction 1; simpl; lia. Qed.

Lemma add_loop_exact (l : list Z) (res : Z) :
  Forall (fun a => 0 <= a) l -> 0 <= res -> res + sum_amounts l <= 2 ^ 53 ->
  add_loop res l = res + sum_amounts l.
Proof.
  unfold add_loop. intros Hl. revert res.
  induction Hl as [|a l Ha Hl IH]; intros res Hres Hb; simpl in *; [lia|].
  pose proof (sum_amounts_nonneg l Hl).
  rewrite f64_add_exact by lia. rewrite IH by lia. lia.
Qed.

Lemma unrolled_exact (n : nat) (a : list Z) (r : acc8) :
  (List.length a <= n)%nat ->
  Forall (fun x => 0 <= x) a -> acc8_nonneg r ->
  acc8_total r + sum_amounts a <= 2 ^ 53 ->
  acc8_nonneg (fst (unrolled r a))
  /\ Forall (fun x => 0 <= x) (snd (unrolled r a))
  /\ acc8_total (fst (unrolled r a)) + sum_amounts (snd (unrolled r a))
     = acc8_total r + sum_amounts a.
Proof.
  revert a r. induction n as [|n IH]; intros a r Hn Ha Hr Hb.
  - destruct a; [|simpl in Hn; lia]. simpl. auto.
  - do 8 (destruct a as [|? a]; [simpl; auto|]).
    repeat match goal with
           | H : Forall _ (_ :: _) |- _ => inversion H; subst; clear H
           end.
    pose proof (sum_amounts_nonneg a ltac:(assumption)) as Hrest.
    cbn [unrolled].
    match goal with
    | |- context [unrolled ?r' a] =>
        assert (Hr' : acc8_nonneg r' /\ acc8_total r' + sum_amounts a
                                      = acc8_total r + sum_amounts
                                          (z :: z0 :: z1 :: z2 :: z3 :: z4 :: z5 :: z6 :: a));
        [|destruct Hr' as [Hn' Hs']; destruct (IH a r') as (I1 & I2 & I3);
          [simpl in Hn; lia|assumption|assumption|lia|]]
    end.
    + destruct Hr as (? & ? & ? & ? & ? & ? & ? & ?).
      unfold acc8_nonneg, acc8_total in *. cbn [r0 r1 r2 r3 r4 r5 r6 r7].
      simpl sum_amounts in *.
      rewrite !f64_add_exact by lia. lia.
    + split; [assumption|]. split; [assumption|]. lia.
Qed.

Lemma acc8_sum_exact (r : acc8) :
  acc8_nonneg r -> acc8_total r <= 2 ^ 53 -> acc8_sum r = acc8_total r.
Proof.
  intros (? & ? & ? & ? & ? & ? & ? & ?) Hb.
  unfold acc8_sum, acc8_total in *.
  rewrite (f64_add_exact (r0 r) (r1 r)), (f64_add_exact (r2 r) (r3 r)),
    (f64_add_exact (r4 r) (r5 r)), (f64_add_exact (r6 r) (r7 r)) by lia.
  rewrite (f64_add_exact (r0 r + r1 r)), (f64_add_exact (r4 r + r5 r)) by lia.
  rewrite f64_add_exact by lia. lia.
Qed.

Lemma block_sum_exact (a : list Z) :
  Forall (fun x => 0 <= x) a -> sum_amounts a <= 2 ^ 53 ->
  block_sum a = sum_amounts a.
Proof.
  intros Ha Hb. unfold block_sum.
  do 8 (destruct a as [|? a]; [now apply add_loop_exact|]).
  repeat match goal with
         | H : Forall _ (_ :: _) |- _ => inversion H; subst; clear H
         end.
  pose proof (sum_amounts_nonneg a ltac:(assumption)) as Hrest.
  simpl sum_amounts in Hb.
  destruct (unrolled_exact (List.length a) a (Acc8 z z0 z1 z2 z3 z4 z5 z6))
    as (I1 & I2 & I3);
    [lia|assumption|unfold acc8_nonneg; simpl; lia|unfold acc8_total; simpl; lia|].
  destruct (unrolled (Acc8 z z0 z1 z2 z3 z4 z5 z6) a) as [r tail].
  cbn [fst snd] in *. unfold acc8_total at 2 in I3. cbn [r0 r1 r2 r3 r4 r5 r6 r7] in I3.
  pose proof (sum_amounts_nonneg tail I2).
  assert (0 <= acc8_total r)
    by (destruct I1 as (? & ? & ? & ? & ? & ? & ? & ?); unfold acc8_total; lia).
  rewrite acc8_sum_exact by (try assumption; lia).
  rewrite add_loop_exact by (try assumption; lia).
  simpl sum_amounts. lia.
Qed.

Lemma sum_amounts_split (n : nat) (a : list Z) :
  sum_amounts a = sum_amounts (firstn n a) + sum_amounts (skipn n a).
Proof. now rewrite <- sum_amounts_app, firstn_skipn. Qed.

Lemma Forall_firstn {A} (P : A -> Prop) (n : nat) (l : list A) :
  Forall P l -> Forall P (firstn n l).
Proof.
  rewrite !Forall_forall. intros H x Hx. apply H.
  rewrite <- (firstn_skipn n l). apply in_or_app. now left.
Qed.

Lemma Forall_skipn {A} (P : A -> Prop) (n : nat) (l : list A) :
  Forall P l -> Forall P (skipn n l).
Proof.
  rewrite !Forall_forall. intros H x Hx. apply H.
  rewrite <- (firstn_skipn n l). apply in_or_app. now right.
Qed.

Lemma halves_shorter (n : nat) :
  (128 < n)%nat ->
  (0 < n / 2 - (n / 2) mod 8 < n)%nat.
Proof.
  intros H.
  pose proof (Nat.div_mod_eq n 2). pose proof (Nat.mod_upper_bound n 2).
  pose proof (Nat.mod_upper_bound (n / 2) 8). lia.
Qed.

Lemma pairwise_sum_exact (fuel : nat) (a : list Z) :
  (List.length a <= fuel)%nat ->
  Forall (fun x => 0 <= x) a -> sum_amounts a <= 2 ^ 53 ->
  pairwise_sum fuel a = sum_amounts a.
Proof.
  revert a. induction fuel as [|fuel IH]; intros a Hn Ha Hb.
  - destruct a; [reflexivity|simpl in Hn; lia].
  - cbn [pairwise_sum].
    destruct (Nat.leb_spec (List.length a) 128) as [_|Hbig];
      [now apply block_sum_exact|].
    destruct (halves_shorter _ Hbig) as [Hpos Hlt].
    set (n2 := (List.length a / 2 - (List.length a / 2) mod 8)%nat) in *.
    pose proof (Forall_firstn _ n2 a Ha) as H1.
    pose proof (Forall_skipn _ n2 a Ha) as H2.
    pose proof (sum_amounts_nonneg _ H1). pose proof (sum_amounts_nonneg _ H2).
    pose proof (sum_amounts_split n2 a) as Hs.
    rewrite !IH.
    + rewrite f64_add_exact by lia. lia.
    + rewrite length_skipn. lia.
    + assumption.
    + lia.
    + rewrite length_firstn. lia.
    + assumption.
    + lia.
Qed.

(** The fuel of [np_sum] never runs out: any fuel from the length of the
    column on gives the same sum. *)
Lemma pairwise_sum_fuel (f1 f2 : nat) (a : list Z) :
  (List.length a <= f1)%nat -> (List.length a <= f2)%nat ->
  pairwise_sum f1 a = pairwise_sum f2 a.
Proof.
  revert f2 a. induction f1 as [|f1 IH]; intros f2 a H1 H2.
  - destruct a; [|simpl in H1; lia]. now destruct f2.
  - destruct f2 as [|f2].
    { destruct a; [reflexivity|simpl in H2; lia]. }
    cbn [pairwise_sum].
    destruct (Nat.leb_spec (List.length a) 128) as [_|Hbig]; [reflexivity|].
    destruct (halves_shorter _ Hbig) as [Hpos Hlt].
    f_equal; apply IH; rewrite ?length_firstn, ?length_skipn; lia.
Qed.

Lemma np_sum_exact (a : list Z) :
  Forall (fun x => 0 <= x) a -> sum_amounts a <= 2 ^ 53 ->
  np_sum a = sum_amounts a.
Proof. intros. unfold np_sum. now apply pairwise_sum_exact. Qed.

Lemma kahan_fold_exact (l : list Z) (s : Z) :
  Forall (fun a => 0 <= a) l -> 0 <= s -> s + sum_amounts l <= 2 ^ 53 ->
  fold_left kahan_step l (s, 0) = (s + sum_amounts l, 0).
Proof.
  intros Hl. revert s.
  induction Hl as [|a l Ha Hl IH]; intros s Hs Hb; simpl in *.
  - f_equal. lia.
  - pose proof (sum_amounts_nonneg l Hl).
    unfold kahan_step at 2. cbn [fst snd].
    rewrite (f64_sub_exact a 0) by lia. rewrite Z.sub_0_r.
    rewrite f64_add_exact by lia.
    rewrite (f64_sub_exact (s + a) s) by lia.
    replace (s + a - s) with a by lia.
    rewrite (f64_sub_exact a a) by lia. rewrite Z.sub_diag.
    rewrite IH by lia. f_equal. lia.
Qed.

Lemma kahan_sum_exact (l : list Z) :
  Forall (fun a => 0 <= a) l -> sum_amounts l <= 2 ^ 53 ->
  kahan_sum l = sum_amounts l.
Proof.
  intros Hl Hb. unfold kahan_sum. rewrite kahan_fold_exact by (auto; lia).
  reflexivity.
Qed.

(** ** Sums by category *)

Lemma sum_filter_le {A} (f : A -> bool) (g : A -> Z) (l : list A) :
  Forall (fun x => 0 <= g x) l ->
  Forall (fun a => 0 <= a) (map g (filter f l))
  /\ sum_amounts (map g (filter f l)) <= sum_amounts (map g l).
Proof.
  induction 1 as [|x l Hx Hl [IH1 IH2]]; simpl.
  - split; [constructor|lia].
  - destruct (f x); simpl; split; try constructor; auto; lia.
Qed.

Lemma same_key_string (c k : string) :
  same_key String.compare c k = (k =? c)%string.
Proof.
  unfold same_key. destruct (String.eqb_spec k c) as [->|Hne].
  - now rewrite string_compare_refl.
  - destruct (String.compare k c) eqn:E; try reflexivity.
    apply String.compare_eq_iff in E. congruence.
Qed.

Lemma group_values_category (c : string) (df : list row) :
  group_values String.compare c (category_cells df)
  = map Amount (filter (fun r => (Category r =? c)%string) df).
Proof.
  unfold group_values, category_cells.
  induction df as [|r df IH]; simpl; [reflexivity|].
  rewrite same_key_string. destruct (Category r =? c)%string; simpl;
    now rewrite IH.
Qed.

Lemma groupby_sum_f64_sorted {K} (cmp : K -> K -> comparison)
    (cells : list (K * Z)) :
  StronglySorted (key_lt cmp) (groupby_sum cmp cells) ->
  StronglySorted (key_lt cmp) (groupby_sum_f64 cmp cells).
Proof.
  unfold groupby_sum_f64.
  induction 1 as [|kv g Hs IH Hkv]; simpl; constructor; [assumption|].
  rewrite Forall_forall in *. intros x Hx.
  apply in_map_iff in Hx as (y & <- & Hy). exact (Hkv y Hy).
Qed.

Lemma groupby_sum_f64_In {K} (cmp : K -> K -> comparison)
    (cells : list (K * Z)) (k : K) (v : Z) :
  In (k, v) (groupby_sum_f64 cmp cells)
  <-> (exists s, In (k, s) (groupby_sum cmp cells))
      /\ v = kahan_sum (group_values cmp k cells).
Proof.
  unfold groupby_sum_f64. rewrite in_map_iff. split.
  - intros ([k' s] & [= <- <-] & Hin). simpl. eauto.
  - intros [[s Hin] ->]. exists (k, s). auto.
Qed.

Lemma category_summary_f64_sorted (df : list row) :
  StronglySorted (key_lt String.compare) (category_summary_f64 df).
Proof. apply groupby_sum_f64_sorted, category_summary_sorted. Qed.

(** The float64 summary has one entry per category that occurs, with
    the float64 sum of the amounts of that category in row order. *)
Lemma category_summary_f64_spec (df : list row) (c : string) (v : Z) :
  In (c, v) (category_summary_f64 df)
  <-> In c (map Category df) /\ v = category_total_f64 c df.
Proof.
  unfold category_summary_f64, category_total_f64.
  rewrite groupby_sum_f64_In, group_values_category. split.
  - intros [[s Hs] ->]. split; [|reflexivity].
    now apply (category_summary_spec df c s).
  - intros [Hc ->]. split; [|reflexivity].
    exists (category_total c df). apply category_summary_spec. auto.
Qed.

Lemma exact_range_amounts (df : list row) :
  exact_range df -> Forall (fun a => 0 <= a) (map Amount df).
Proof.
  intros [H _]. apply Forall_forall. intros a Ha.
  apply in_map_iff in Ha as (r & <- & Hr). rewrite Forall_forall in H. auto.
Qed.

Lemma category_total_f64_exact (c : string) (df : list row) :
  exact_range df -> category_total_f64 c df = category_total c df.
Proof.
  intros [Hpos Hb]. unfold category_total_f64, category_total.
  destruct (sum_filter_le (fun r => (Category r =? c)%string) Amount df Hpos)
    as [H1 H2].
  apply kahan_sum_exact; [assumption|lia].
Qed.

Lemma category_summary_f64_exact (df : list row) :
  exact_range df -> category_summary_f64 df = category_summary df.
Proof.
  intros Hex. unfold category_summary_f64, groupby_sum_f64.
  fold (category_summary df). rewrite <- (map_id (category_summary df)) at 2.
  apply map_ext_in. intros [c s] Hin. simpl.
  rewrite group_values_category. fold (category_total_f64 c df).
  rewrite category_total_f64_exact by assumption.
  apply category_summary_spec in Hin as [_ ->]. reflexivity.
Qed.

Lemma total_expense_f64_exact (df : list row) :
  exact_range df -> total_expense_f64 df = total_expense df.
Proof.
  intros Hex. rewrite total_expense_sum. destruct df as [|r df]; [reflexivity|].
  unfold total_expense_f64. apply np_sum_exact.
  - now apply exact_range_amounts.
  - apply Hex.
Qed.

Lemma top_category_f64_exact (df : list row) :
  exact_range df -> top_category_f64 df = top_category df.
Proof.
  intros Hex. unfold top_category_f64, top_category.
  now rewrite category_summary_f64_exact.
Qed.

Lemma exact_range_perm (df df' : list row) :
  Permutation df df' -> exact_range df -> exact_range df'.
Proof.
  intros Hp [H1 H2]. split.
  - eapply Permutation_Forall; eassumption.
  - rewrite <- (sum_map_perm Amount df df' Hp). assumption.
Qed.

(** C2, as the code has it: on a frame of whole amounts that are not
    negative and add up to no more than 2^53, the float64 total is the
    exact sum of the amounts and equals the sum of the entries of the
    float64 summary by category, which holds for each category that
    occurs the exact sum of the amounts of its rows. *)
Theorem total_f64_is_sum_of_category_summary (df : list row) :
  exact_range df ->
  total_expense_f64 df = sum_amounts (map snd (category_summary_f64 df))
  /\ total_expense_f64 df = sum_amounts (map Amount df)
  /\ total_expense_f64 [] = 0
  /\ forall c v, In (c, v) (category_summary_f64 df)
                 <-> In c (map Category df) /\ v = category_total c df.
Proof.
  intros Hex.
  rewrite total_expense_f64_exact, category_summary_f64_exact by assumption.
  split; [|split; [|split]].
  - unfold category_summary. rewrite sum_groupby_sum.
    unfold category_cells. rewrite map_map. simpl. apply total_expense_sum.
  - apply total_expense_sum.
  - reflexivity.
  - apply category_summary_spec.
Qed.

Lemma sample_df_exact : exact_range sample_df.
Proof.
  split; [repeat (constructor; [vm_compute; discriminate|]); constructor|].
  vm_compute. discriminate.
Qed.

Lemma total_f64_is_sum_of_category_summary_witness :
  total_expense_f64 sample_df
  = sum_amounts (map snd (category_summary_f64 sample_df))
  /\ In ("Food", category_total "Food" sample_df)
        (category_summary_f64 sample_df).
Proof.
  destruct (total_f64_is_sum_of_category_summary sample_df sample_df_exact)
    as (Hsum & _ & _ & Hspec).
  split; [exact Hsum|].
  apply Hspec. split; [vm_compute; tauto|reflexivity].
Defined.

(** C2 as the specification states it does not hold: four rows of one
    category, each an amount the number widget accepts.  The float64
    total is 2^53, the one entry of the summary by category 2^53 + 2. *)
Lemma total_f64_differs_from_category_sums :
  let df := [mkrow 1 "2024-01-05" "Food" (2 ^ 53 - 1) "";
             mkrow 2 "2024-01-05" "Food" 1 "";
             mkrow 3 "2024-01-05" "Food" 1 "";
             mkrow 4 "2024-01-05" "Food" 1 ""] in
  widget_amounts df
  /\ total_expense_f64 df = 9007199254740992
  /\ category_summary_f64 df = [("Food", 9007199254740994)]
  /\ total_expense_f64 df <> sum_amounts (map snd (category_summary_f64 df)).
Proof.
  split; [repeat constructor; simpl; lia|].
  split; [reflexivity|]. split; [reflexivity|]. vm_compute. discriminate.
Qed.

(** ** The largest category, in float64 *)

Lemma category_summary_f64_nonempty (df : list row) :
  df <> [] -> category_summary_f64 df <> [].
Proof.
  destruct df as [|r df]; [contradiction|]. intros _ E.
  assert (Hin : In (Category r, category_total_f64 (Category r) (r :: df))
                   (category_summary_f64 (r :: df))).
  { apply category_summary_f64_spec. split; [now left|reflexivity]. }
  rewrite E in Hin. contradiction.
Qed.

(** C6, as the code has it: [top_category] of the empty frame is "N/A";
    on a frame with rows it is a category that occurs, whose float64 sum
    no other category exceeds, and which comes first in the order of
    texts among the categories of that same float64 sum; when all rows
    have one category it is that category; and on a frame of whole
    amounts that are not negative and add up to no more than 2^53 the
    float64 sums are the exact sums. *)
Theorem top_category_spec (df : list row) :
  (df = [] -> top_category_f64 df = Some "N/A")
  /\ (df <> [] ->
      exists c, top_category_f64 df = Some c /\ In c (map Category df)
        /\ forall c', In c' (map Category df) ->
             category_total_f64 c' df <= category_total_f64 c df
             /\ (category_total_f64 c' df = category_total_f64 c df ->
                 String.leb c c' = true))
  /\ (forall c, df <> [] -> (forall r, In r df -> Category r = c) ->
                top_category_f64 df = Some c)
  /\ (exact_range df ->
      forall c, category_total_f64 c df = category_total c df).
Proof.
  assert (Hmain : df <> [] ->
      exists c, top_category_f64 df = Some c /\ In c (map Category df)
        /\ forall c', In c' (map Category df) ->
             category_total_f64 c' df <= category_total_f64 c df
             /\ (category_total_f64 c' df = category_total_f64 c df ->
                 String.leb c c' = true)).
  { intros Hne.
    destruct (idxmax_sorted String.compare _ (category_summary_f64_sorted df)
                (category_summary_f64_nonempty df Hne))
      as (c & v & Hidx & Hin & Hmax).
    apply category_summary_f64_spec in Hin as [Hc ->].
    exists c. split.
    - destruct df; [contradiction|exact Hidx].
    - split; [assumption|]. intros c' Hc'.
      destruct (Hmax c' (category_total_f64 c' df)) as [Hle Htie].
      { apply category_summary_f64_spec. auto. }
      split; [assumption|]. intros E. apply string_leb_iff.
      destruct (Htie E) as [->|Hlt]; auto. }
  split; [intros ->; reflexivity|]. split; [exact Hmain|]. split.
  - intros c Hne Hall. destruct (Hmain Hne) as (c0 & -> & Hc0 & _).
    apply in_map_iff in Hc0 as (r & <- & Hr). now rewrite (Hall r Hr).
  - intros Hex c. now apply category_total_f64_exact.
Qed.

Lemma top_category_spec_witness :
  top_category_f64 [] = Some "N/A"
  /\ top_category_f64 [mkrow 1 "2024-01-05" "Travel" 40 "";
                       mkrow 2 "2024-01-06" "Food" 40 ""] = Some "Food"
  /\ top_category_f64 [mkrow 1 "2024-01-05" "Travel" 40 ""] = Some "Travel"
  /\ category_total_f64 "Food" sample_df = category_total "Food" sample_df.
Proof.
  split; [apply (proj1 (top_category_spec [])); reflexivity|].
  split; [vm_compute; reflexivity|]. split.
  - apply (proj1 (proj2 (proj2 (top_category_spec
                                  [mkrow 1 "2024-01-05" "Travel" 40 ""])))).
    + discriminate.
    + intros r [<-|[]]. reflexivity.
  - apply (proj2 (proj2 (proj2 (top_category_spec sample_df)))).
    apply sample_df_exact.
Defined.

(** C6 as the specification states it does not hold: five rows, each an
    amount the number widget accepts.  Travel holds 2^53 + 1 and Food
    2^53; in float64 both sums are 2^53, and the category shown is Food,
    which has the smaller sum. *)
Lemma top_category_f64_is_not_the_largest_sum :
  let df := [mkrow 1 "2024-01-05" "Travel" (2 ^ 53 - 1) "";
             mkrow 2 "2024-01-05" "Travel" 1 "";
             mkrow 3 "2024-01-05" "Travel" 1 "";
             mkrow 4 "2024-01-05" "Food" (2 ^ 53 - 1) "";
             mkrow 5 "2024-01-05" "Food" 1 ""] in
  widget_amounts df
  /\ category_summary_f64 df
     = [("Food", 9007199254740992); ("Travel", 9007199254740992)]
  /\ top_category_f64 df = Some "Food"
  /\ category_total "Food" df = 9007199254740992
  /\ category_total "Travel" df = 9007199254740993
  /\ category_total "Food" df < category_total "Travel" df.
Proof.
  split; [repeat constructor; simpl; lia|].
  split; [reflexivity|]. split; [reflexivity|].
  split; [reflexivity|]. split; reflexivity.
Qed.

(** ** The reports and the order of the rows *)

Lemma exact_reports_perm (df df' : list row) :
  Permutation df df' ->
  total_expense df = total_expense df'
  /\ category_summary df = category_summary df'
  /\ top_category df = top_category df'.
Proof.
  intros Hp.
  assert (Hsum : category_summary df = category_summary df').
  { apply (sorted_summaries_ext String.compare).
    - apply string_compare_eq.
    - apply string_compare_lt_trans.
    - apply category_summary_sorted.
    - apply category_summary_sorted.
    - intros [c v]. rewrite !category_summary_spec.
      unfold category_total. rewrite (sum_filter_perm _ Amount df df' Hp).
      split; intros [Hin ->]; (split; [|reflexivity]).
      + eapply Permutation_in; [apply Permutation_map; exact Hp|assumption].
      + eapply Permutation_in;
          [apply Permutation_map; apply Permutation_sym; exact Hp|assumption]. }
  split; [|split; [exact Hsum|]].
  - rewrite !total_expense_sum. now apply sum_map_perm.
  - destruct df as [|r df], df' as [|r' df']; try reflexivity.
    + apply Permutation_nil in Hp. discriminate.
    + apply Permutation_sym, Permutation_nil in Hp. discriminate.
    + unfold top_category. now rewrite Hsum.
Qed.

(** X15: within the exact range the dashboard does not depend on the
    order in which the store returns the rows: two frames with the same
    rows in any order, of whole amounts that are not negative and add up
    to no more than 2^53, have the same float64 total, the same float64
    summary by category and the same top category. *)
Theorem category_reports_ignore_row_order (df df' : list row) :
  exact_range df -> Permutation df df' ->
  total_expense_f64 df = total_expense_f64 df'
  /\ category_summary_f64 df = category_summary_f64 df'
  /\ top_category_f64 df = top_category_f64 df'.
Proof.
  intros Hex Hp. pose proof (exact_range_perm df df' Hp Hex) as Hex'.
  rewrite !total_expense_f64_exact, !category_summary_f64_exact,
    !top_category_f64_exact by assumption.
  now apply exact_reports_perm.
Qed.

Lemma category_reports_ignore_row_order_witness :
  category_summary_f64 (rev sample_df) = category_summary_f64 sample_df.
Proof.
  symmetry.
  apply (proj1 (proj2 (category_reports_ignore_row_order sample_df
                         (rev sample_df) sample_df_exact
                         (Permutation_rev sample_df)))).
Defined.

(** Beyond the exact range the float64 total does depend on the order of
    the rows. *)
Example total_f64_depends_on_row_order :
  total_expense_f64 [mkrow 1 "2024-01-05" "Food" (2 ^ 53 - 1) "";
                     mkrow 2 "2024-01-05" "Food" 1 "";
                     mkrow 3 "2024-01-05" "Food" 1 "";
                     mkrow 4 "2024-01-05" "Food" 1 ""]
  = 9007199254740992
  /\ total_expense_f64 [mkrow 2 "2024-01-05" "Food" 1 "";
                        mkrow 3 "2024-01-05" "Food" 1 "";
                        mkrow 4 "2024-01-05" "Food" 1 "";
                        mkrow 1 "2024-01-05" "Food" (2 ^ 53 - 1) ""]
     = 9007199254740994.
Proof. split; reflexivity. Qed.

(** ** An add and the reports *)

Lemma exact_range_app_l (l1 l2 : list row) :
  exact_range (l1 ++ l2) -> exact_range l1.
Proof.
  intros [Hpos Hb]. apply Forall_app in Hpos as [H1 H2]. split; [assumption|].
  rewrite map_app, sum_amounts_app in Hb.
  assert (0 <= sum_amounts (map Amount l2)).
  { apply sum_amounts_nonneg. apply Forall_forall. intros a Ha.
    apply in_map_iff in Ha as (r & <- & Hr). rewrite Forall_forall in H2. auto. }
  lia.
Qed.

(** X22: what an add does to the reports of its user, within the exact
    range: the frame gains the new row at its end; when the amounts of
    the new frame are not negative and add up to no more than 2^53, the
    float64 total grows by the amount, the float64 sum of the category
    of the row grows by the amount and that of every other category
    stays, and the summary by category has the entry of the new sum. *)
Theorem add_raises_the_totals
    (d : db) (u : Z) (dt : date) (c : string) (a : Z) (n : string) :
  let df := get_expenses d (Some u) in
  let df' := get_expenses (fst (add_expense d (Some u) dt c a n)) (Some u) in
  exact_range df' ->
  df' = df ++ [mkrow (next_expense_id d) (strftime dt) c a n]
  /\ total_expense_f64 df' = total_expense_f64 df + a
  /\ (forall k, category_total_f64 k df'
                = category_total_f64 k df + (if (c =? k)%string then a else 0))
  /\ In (c, category_total_f64 c df + a) (category_summary_f64 df').
Proof.
  intros df df' Hex'.
  assert (E : df' = df ++ [mkrow (next_expense_id d) (strftime dt) c a n]).
  { subst df df'. rewrite get_expenses_add. now rewrite Z.eqb_refl. }
  assert (Hex : exact_range df).
  { apply (exact_range_app_l df [mkrow (next_expense_id d) (strftime dt) c a n]).
    now rewrite <- E. }
  assert (Hk : forall k, category_total k df'
                = category_total k df + (if (c =? k)%string then a else 0)).
  { intros k. rewrite E, category_total_app. f_equal.
    unfold category_total. cbn [filter Category].
    destruct (c =? k)%string; cbn [map sum_amounts fold_right Amount]; lia. }
  split; [exact E|]. split; [|split].
  - rewrite !total_expense_f64_exact by assumption.
    rewrite !total_expense_sum, E, map_app, sum_amounts_app.
    cbn [map sum_amounts fold_right Amount]. lia.
  - intros k. rewrite !category_total_f64_exact by assumption. apply Hk.
  - rewrite category_summary_f64_exact, category_total_f64_exact by assumption.
    apply category_summary_spec. split.
    + rewrite E, map_app. apply in_or_app. right. now left.
    + rewrite Hk, String.eqb_refl. reflexivity.
Qed.

Lemma add_raises_the_totals_witness :
  total_expense_f64
    (get_expenses (fst (add_expense sample_db (Some 1) (mkdate 2024 3 1)
                                    "Food" 25 "")) (Some 1))
  = total_expense_f64 (get_expenses sample_db (Some 1)) + 25.
Proof.
  refine (proj1 (proj2 (add_raises_the_totals sample_db 1 (mkdate 2024 3 1)
                          "Food" 25 "" _))).
  split; [repeat (constructor; [vm_compute; discriminate|]); constructor|].
  vm_compute. discriminate.
Defined.

(** Beyond the exact range an add can leave the float64 total where it
    was. *)
Example add_beyond_2p53_is_lost :
  let df := [mkrow 1 "2024-01-05" "Food" (2 ^ 53 - 1) "";
             mkrow 2 "2024-01-05" "Food" 1 ""] in
  total_expense_f64 df = 9007199254740992
  /\ total_expense_f64 (df ++ [mkrow 3 "2024-01-05" "Food" 1 ""])
     = 9007199254740992.
Proof. split; reflexivity. Qed.

(** ** Sums by key, in float64 and exactly *)

Section GroupByF64.

Context {K : Type} (cmp : K -> K -> comparison).
Hypothesis cmp_eq : forall a b, cmp a b = Eq <-> a = b.
Hypothesis cmp_antisym : forall a b, cmp a b = CompOpp (cmp b a).
Hypothesis cmp_trans :
  forall a b c, cmp a b = Lt -> cmp b c = Lt -> cmp a c = Lt.

Lemma same_key_spec (k k' : K) : same_key cmp k k' = true <-> k' = k.
Proof.
  unfold same_key. rewrite <- cmp_eq.
  destruct (cmp k' k); split; auto; discriminate.
Qed.

(** An entry of the float64 summary, by the cells of its key. *)
Lemma groupby_sum_f64_entry (cells : list (K * Z)) (k : K) (v : Z) :
  In (k, v) (groupby_sum_f64 cmp cells)
  <-> has_key (same_key cmp k) cells = true
      /\ v = kahan_sum (group_values cmp k cells).
Proof.
  rewrite groupby_sum_f64_In.
  assert (Hs : StronglySorted (key_lt cmp) (groupby_sum cmp cells))
    by now apply groupby_sum_sorted.
  assert (Hk : (exists s, In (k, s) (groupby_sum cmp cells))
               <-> has_key (same_key cmp k) cells = true).
  { split.
    - intros [s Hin].
      rewrite (In_lookup cmp cmp_eq k (same_key cmp k) (same_key_spec k) _ s Hs)
        in Hin.
      rewrite (lookup_groupby_sum cmp cmp_eq cmp_antisym cmp_trans k
                 (same_key cmp k) (same_key_spec k)) in Hin.
      destruct (has_key (same_key cmp k) cells); [reflexivity|discriminate].
    - intros Hh. exists (total_of (same_key cmp k) cells).
      rewrite (In_lookup cmp cmp_eq k (same_key cmp k) (same_key_spec k) _ _ Hs).
      rewrite (lookup_groupby_sum cmp cmp_eq cmp_antisym cmp_trans k
                 (same_key cmp k) (same_key_spec k)).
      now rewrite Hh. }
  now rewrite Hk.
Qed.

(** Within the exact range the float64 summary is the exact one. *)
Lemma groupby_sum_f64_exact (cells : list (K * Z)) :
  Forall (fun c => 0 <= snd c) cells ->
  sum_amounts (map snd cells) <= 2 ^ 53 ->
  groupby_sum_f64 cmp cells = groupby_sum cmp cells.
Proof.
  intros Hpos Hb. unfold groupby_sum_f64.
  rewrite <- (map_id (groupby_sum cmp cells)) at 2.
  apply map_ext_in. intros [k s] Hin. simpl. f_equal.
  assert (Hs : StronglySorted (key_lt cmp) (groupby_sum cmp cells))
    by now apply groupby_sum_sorted.
  rewrite (In_lookup cmp cmp_eq k (same_key cmp k) (same_key_spec k) _ s Hs)
    in Hin.
  rewrite (lookup_groupby_sum cmp cmp_eq cmp_antisym cmp_trans k
             (same_key cmp k) (same_key_spec k)) in Hin.
  destruct (has_key (same_key cmp k) cells); [|discriminate].
  injection Hin as <-. unfold group_values, total_of.
  destruct (sum_filter_le (fun c => same_key cmp k (fst c)) snd cells Hpos)
    as [H1 H2].
  apply kahan_sum_exact; [assumption|lia].
Qed.

End GroupByF64.

(** ** The monthly report *)

Lemma year_month_compare_eq (p q : Z * Z) :
  year_month_compare p q = Eq <-> p = q.
Proof.
  destruct p as [y m], q as [y' m']. unfold year_month_compare. simpl.
  destruct (Z.compare_spec y y') as [E|L|G].
  - rewrite Z.compare_eq_iff. split; [intros ->; now rewrite E|].
    intros [= _ H]. exact H.
  - split; [discriminate|]. intros [= H _]. lia.
  - split; [discriminate|]. intros [= H _]. lia.
Qed.

Lemma year_month_compare_antisym (p q : Z * Z) :
  year_month_compare p q = CompOpp (year_month_compare q p).
Proof.
  unfold year_month_compare.
  rewrite (z_compare_antisym (fst p) (fst q)).
  destruct (fst q ?= fst p); try reflexivity. apply z_compare_antisym.
Qed.

Lemma year_month_compare_lt (p q : Z * Z) :
  year_month_compare p q = Lt
  <-> fst p < fst q \/ (fst p = fst q /\ snd p < snd q).
Proof.
  unfold year_month_compare.
  destruct (Z.compare_spec (fst p) (fst q)) as [E|L|G].
  - rewrite Z.compare_lt_iff. split; [now right|].
    intros [H|[_ H]]; [lia|exact H].
  - split; [now left|reflexivity].
  - split; [discriminate|lia].
Qed.

Lemma year_month_compare_lt_trans (p q r : Z * Z) :
  year_month_compare p q = Lt -> year_month_compare q r = Lt ->
  year_month_compare p r = Lt.
Proof. rewrite !year_month_compare_lt. lia. Qed.

Lemma same_key_year_month (p k : Z * Z) :
  same_key year_month_compare p k = is_year_month p k.
Proof.
  unfold is_year_month.
  destruct (same_key year_month_compare p k) eqn:E; symmetry.
  - apply (same_key_spec year_month_compare year_month_compare_eq) in E.
    subst k. now rewrite !Z.eqb_refl.
  - apply andb_false_iff.
    destruct (Z.eqb_spec (fst k) (fst p)) as [E1|E1]; [|now left].
    destruct (Z.eqb_spec (snd k) (snd p)) as [E2|E2]; [|now right].
    assert (k = p) by (destruct k, p; simpl in *; congruence).
    apply (same_key_spec year_month_compare year_month_compare_eq) in H.
    congruence.
Qed.

Lemma year_month_cells_spec (df : list row) :
  dates_are_iso df ->
  exists cells,
    year_month_cells df = Some cells
    /\ map snd cells = map Amount df
    /\ forall y mo,
         has_key (same_key year_month_compare (y, mo)) cells
         = existsb (in_calendar_month y mo) df
         /\ group_values year_month_compare (y, mo) cells
            = map Amount (filter (in_calendar_month y mo) df).
Proof.
  induction 1 as [|r df Hr _ IH]; simpl.
  - exists []. split; [reflexivity|]. split; [reflexivity|].
    intros y mo. split; reflexivity.
  - destruct IH as (cells & -> & Hamt & Hcells).
    unfold is_iso_date in Hr. unfold to_datetime in *.
    destruct (fromisoformat (Date r)) as [t|] eqn:Et; [|discriminate].
    exists ((year_month t, Amount r) :: cells). split; [reflexivity|].
    split; [simpl; now rewrite Hamt|].
    intros y mo. destruct (Hcells y mo) as [Hh Hg].
    unfold has_key, group_values, in_calendar_month, to_datetime in *.
    cbn [existsb filter map fst snd]. rewrite Et, Hh.
    rewrite same_key_year_month. unfold is_year_month, year_month.
    cbn [fst snd]. split; [reflexivity|].
    destruct ((year t =? y) && (month t =? mo)); cbn [map snd];
      now rewrite Hg.
Qed.

Lemma monthly_summary_f64_sorted (cells : list ((Z * Z) * Z)) :
  StronglySorted month_before (groupby_sum_f64 year_month_compare cells).
Proof.
  assert (H : StronglySorted (key_lt year_month_compare)
                (groupby_sum_f64 year_month_compare cells)).
  { apply groupby_sum_f64_sorted, groupby_sum_sorted.
    - apply year_month_compare_antisym.
    - apply year_month_compare_lt_trans. }
  induction H as [|a l _ IH Ha]; constructor; [assumption|].
  rewrite Forall_forall in *. intros x Hx.
  apply year_month_compare_lt. exact (Ha x Hx).
Qed.

(** The entries of the monthly report. *)
Lemma monthly_summary_f64_entries (df : list row) :
  dates_are_iso df ->
  exists ms,
    monthly_summary_f64 df = Some ms
    /\ StronglySorted month_before ms
    /\ (forall y mo s,
          In ((y, mo), s) ms
          <-> existsb (in_calendar_month y mo) df = true
              /\ s = month_total_f64 y mo df)
    /\ (exact_range df -> sum_amounts (map snd ms) = sum_amounts (map Amount df)).
Proof.
  intros Hiso.
  destruct (year_month_cells_spec df Hiso) as (cells & Hcells & Hamt & Hspec).
  unfold monthly_summary_f64. rewrite Hcells.
  exists (groupby_sum_f64 year_month_compare cells). split; [reflexivity|].
  split; [apply monthly_summary_f64_sorted|]. split.
  - intros y mo s.
    rewrite (groupby_sum_f64_entry year_month_compare year_month_compare_eq
               year_month_compare_antisym year_month_compare_lt_trans).
    destruct (Hspec y mo) as [-> ->]. reflexivity.
  - intros [Hpos Hb].
    rewrite (groupby_sum_f64_exact year_month_compare year_month_compare_eq
               year_month_compare_antisym year_month_compare_lt_trans).
    + now rewrite sum_groupby_sum, Hamt.
    + apply Forall_forall. intros c Hc.
      assert (Hs' : In (snd c) (map Amount df))
        by (rewrite <- Hamt; now apply in_map).
      apply in_map_iff in Hs' as (r & <- & Hr).
      rewrite Forall_forall in Hpos. now apply Hpos.
    + now rewrite Hamt.
Qed.

Lemma month_total_f64_exact (y mo : Z) (df : list row) :
  exact_range df -> month_total_f64 y mo df = month_total y mo df.
Proof.
  intros [Hpos Hb]. unfold month_total_f64, month_total.
  destruct (sum_filter_le (in_calendar_month y mo) Amount df Hpos) as [H1 H2].
  apply kahan_sum_exact; [assumption|lia].
Qed.

Lemma in_calendar_month_spec (y mo : Z) (r : row) :
  in_calendar_month y mo r = true
  <-> exists t, to_datetime (Date r) = Some t /\ year t = y /\ month t = mo.
Proof.
  unfold in_calendar_month. destruct (to_datetime (Date r)) as [t|].
  - rewrite andb_true_iff, !Z.eqb_eq. split.
    + intros [? ?]. exists t. auto.
    + intros (t' & [= <-] & ? & ?). auto.
  - split; [discriminate|]. intros (t & H & _). discriminate.
Qed.

(** C8, as the code has it: on a frame whose dates are in ISO format the
    monthly report is produced; its entries are in strictly ascending
    calendar order (by year, then by month); it holds an entry for
    exactly the pairs of a year and a month in which the date of a row
    falls, each with the float64 sum of the amounts of the rows of that
    year and month; and on a frame of whole amounts that are not
    negative and add up to no more than 2^53 that float64 sum is the
    exact sum. *)
Theorem monthly_summary_spec (df : list row) :
  dates_are_iso df ->
  exists ms,
    monthly_summary_f64 df = Some ms
    /\ StronglySorted
         (fun p q => fst (fst p) < fst (fst q)
                     \/ (fst (fst p) = fst (fst q) /\ snd (fst p) < snd (fst q)))
         ms
    /\ (forall y mo s,
          In ((y, mo), s) ms
          <-> (exists r t, In r df /\ to_datetime (Date r) = Some t
                           /\ year t = y /\ month t = mo)
              /\ s = month_total_f64 y mo df)
    /\ (exact_range df ->
        forall y mo, month_total_f64 y mo df = month_total y mo df).
Proof.
  intros Hiso.
  destruct (monthly_summary_f64_entries df Hiso) as (ms & Hms & Hs & Hin & _).
  exists ms. split; [assumption|]. split; [exact Hs|]. split.
  - intros y mo s. rewrite Hin, existsb_exists. split.
    + intros [(r & Hr & Hm) ->]. split; [|reflexivity].
      apply in_calendar_month_spec in Hm as (t & Ht & Hy & Hmo).
      exists r, t. auto.
    + intros [(r & t & Hr & Ht & Hy & Hmo) ->]. split; [|reflexivity].
      exists r. split; [assumption|].
      apply in_calendar_month_spec. exists t. auto.
  - intros Hex y mo. now apply month_total_f64_exact.
Qed.

Lemma sample_df_iso : dates_are_iso sample_df.
Proof.
  unfold dates_are_iso. repeat (constructor; [reflexivity|]). constructor.
Qed.

Lemma monthly_summary_spec_witness :
  exists ms,
    monthly_summary_f64 sample_df = Some ms
    /\ forall y mo s,
         In ((y, mo), s) ms
         <-> (exists r t, In r sample_df /\ to_datetime (Date r) = Some t
                          /\ year t = y /\ month t = mo)
             /\ s = month_total_f64 y mo sample_df.
Proof.
  destruct (monthly_summary_spec sample_df sample_df_iso)
    as (ms & Hms & _ & Hin & _).
  exists ms. split; [exact Hms|exact Hin].
Defined.

(** C8 as the specification states it does not hold: three rows of one
    month, each an amount the number widget accepts.  The amounts add up
    to 2^53 + 1; the entry of the month is 2^53. *)
Lemma monthly_entry_is_not_the_sum :
  let df := [mkrow 1 "2024-01-05" "Food" (2 ^ 53 - 1) "";
             mkrow 2 "2024-01-20" "Travel" 1 "";
             mkrow 3 "2024-01-31" "Food" 1 ""] in
  widget_amounts df
  /\ monthly_summary_f64 df = Some [((2024, 1), 9007199254740992)]
  /\ month_total 2024 1 df = 9007199254740993.
Proof.
  split; [repeat constructor; simpl; lia|]. split; reflexivity.
Qed.

Example monthly_summary_sample :
  monthly_summary_f64
    [mkrow 1 "2024-02-01" "Food" 30 "";
     mkrow 2 "2024-01-05" "Food" 100 "";
     mkrow 3 "2023-12-31" "Other" 7 "";
     mkrow 4 "2024-01-20" "Travel" 50 ""]
  = Some [((2023, 12), 7); ((2024, 1), 150); ((2024, 2), 30)].
Proof. reflexivity. Qed.

(** The scenario of the specification: three rows of one owner. *)
Example scenario_reports :
  let df := [mkrow 1 "2024-01-05" "Food" 100 "";
             mkrow 2 "2024-01-20" "Travel" 50 "";
             mkrow 3 "2024-02-01" "Food" 30 ""] in
  total_expense_f64 df = 180
  /\ category_summary_f64 df = [("Food", 130); ("Travel", 50)]
  /\ top_category_f64 df = Some "Food"
  /\ monthly_summary_f64 df = Some [((2024, 1), 150); ((2024, 2), 30)].
Proof. repeat split; reflexivity. Qed.

(** X16: within the exact range the monthly report accounts for every
    row once: on a frame whose dates are in ISO format, of whole amounts
    that are not negative and add up to no more than 2^53, its entries
    add up to the float64 total of the frame, and it is the same report
    for the same rows in any other order. *)
Theorem monthly_summary_adds_up (df : list row) :
  dates_are_iso df -> exact_range df ->
  exists ms,
    monthly_summary_f64 df = Some ms
    /\ sum_amounts (map snd ms) = total_expense_f64 df
    /\ forall df', Permutation df df' -> monthly_summary_f64 df' = Some ms.
Proof.
  intros Hiso Hex.
  destruct (monthly_summary_f64_entries df Hiso) as (ms & Hms & Hs & Hin & Hsum).
  exists ms. split; [assumption|]. split.
  - rewrite total_expense_f64_exact, total_expense_sum by assumption. auto.
  - intros df' Hp.
    assert (Hiso' : dates_are_iso df').
    { unfold dates_are_iso in *. eapply Permutation_Forall; eassumption. }
    pose proof (exact_range_perm df df' Hp Hex) as Hex'.
    destruct (monthly_summary_f64_entries df' Hiso')
      as (ms' & -> & Hs' & Hin' & _).
    f_equal.
    assert (Hkey : forall l, StronglySorted month_before l ->
                             StronglySorted (key_lt year_month_compare) l).
    { induction 1 as [|a l _ IH Ha]; constructor; [assumption|].
      rewrite Forall_forall in *. intros x Hx.
      apply year_month_compare_lt. exact (Ha x Hx). }
    apply (sorted_summaries_ext year_month_compare).
    + apply year_month_compare_eq.
    + apply year_month_compare_lt_trans.
    + now apply Hkey.
    + now apply Hkey.
    + intros [[y mo] s]. rewrite Hin, Hin'.
      rewrite !month_total_f64_exact by assumption.
      unfold month_total. rewrite (sum_filter_perm _ Amount df df' Hp).
      rewrite (existsb_perm _ df df' Hp). reflexivity.
Qed.

Lemma monthly_summary_adds_up_witness :
  exists ms,
    monthly_summary_f64 sample_df = Some ms
    /\ sum_amounts (map snd ms) = total_expense_f64 sample_df
    /\ forall df', Permutation sample_df df' ->
                   monthly_summary_f64 df' = Some ms.
Proof.
  exact (monthly_summary_adds_up sample_df sample_df_iso sample_df_exact).
Defined.

(** ** The add form *)

(** C5, as the code has it: on the dashboard of a logged-in session, an
    amount below 1 cannot be submitted (the number input refuses it), so
    no run adds a record for it; for a date of the calendar, an amount of
    at least 1 and a category of the select box, the run of the add
    button appends exactly one row, for the user of the session and under
    an id that is larger than every stored id, leaves the users alone,
    and hands back its success notice and nothing else. *)
Theorem add_appends_one_record
    (d : db) (st : session_state) (dt : date) (c : string) (a : Z)
    (n : string) :
  logged_in st = true ->
  (a < 1 -> run d st (click_add dt c a n) = None)
  /\ (valid_date dt = true -> 1 <= a -> In c CATEGORIES ->
      let id := next_expense_id d in
      let user_id := session_user_id d st in
      exists d',
        run d st (click_add dt c a n)
        = Some (d', st, Some (st_success "✅ Expense added successfully!"))
        /\ expenses d'
           = expenses d ++ [mkexpense id user_id (strftime dt) c a n]
        /\ ~ In id (expense_ids d)
        /\ (forall i, In i (expense_ids d) -> i < id)
        /\ users d' = users d).
Proof.
  intros Hl. unfold run. rewrite Hl. cbn [negb]. split.
  - intros Ha. unfold widget_values_ok.
    replace (1 <=? a) with false by (symmetry; apply Z.leb_gt; lia).
    now rewrite andb_false_r.
  - intros Hv Ha Hc.
    assert (Hw : widget_values_ok dt c a = true).
    { unfold widget_values_ok. rewrite Hv.
      replace (1 <=? a) with true by (symmetry; apply Z.leb_le; lia).
      rewrite andb_true_r, andb_true_l. apply existsb_exists.
      exists c. split; [assumption|apply String.eqb_refl]. }
    rewrite Hw. eexists. split; [reflexivity|].
    split; [reflexivity|]. split; [apply next_expense_id_fresh|].
    split; [|reflexivity].
    intros i Hi. unfold next_expense_id, next_rowid.
    unfold expense_ids in Hi. apply max_rowid_ge in Hi. lia.
Qed.

Lemma sample_app_logged_in : logged_in (snd sample_app) = true.
Proof. vm_compute. reflexivity. Qed.

Lemma add_appends_one_record_witness :
  run (fst sample_app) (snd sample_app)
      (click_add (mkdate 2024 3 1) "Food" 0 "") = None
  /\ exists d',
       run (fst sample_app) (snd sample_app)
           (click_add (mkdate 2024 3 1) "Food" 100 "lunch")
       = Some (d', snd sample_app,
               Some (st_success "✅ Expense added successfully!"))
       /\ map e_id (expenses d') = map e_id (expenses (fst sample_app)) ++ [4].
Proof.
  split.
  - apply (proj1 (add_appends_one_record (fst sample_app) (snd sample_app)
                    (mkdate 2024 3 1) "Food" 0 "" sample_app_logged_in)).
    lia.
  - assert (Hc : In "Food" CATEGORIES) by (simpl; tauto).
    assert (Ha : 1 <= 100) by lia.
    destruct (proj2 (add_appends_one_record (fst sample_app) (snd sample_app)
                       (mkdate 2024 3 1) "Food" 100 "lunch"
                       sample_app_logged_in) eq_refl Ha Hc)
      as (d' & Hrun & Hexp & _).
    exists d'. split; [exact Hrun|].
    rewrite Hexp, map_app. reflexivity.
Defined.

(** C5 as the specification states it does not hold: the add hands no id
    back.  The same form submitted twice stores two rows, under the ids
    4 and 5, and both runs hand back the same success notice: what the
    add returns does not tell the id it assigned. *)
Lemma add_hands_back_no_id :
  let d := fst sample_app in
  let st := snd sample_app in
  let ev := click_add (mkdate 2024 3 1) "Food" 100 "" in
  let d1 := match run d st ev with Some (d1, _, _) => d1 | None => d end in
  let d2 := match run d1 st ev with Some (d2, _, _) => d2 | None => d1 end in
  expense_ids d = [1; 2; 3]
  /\ expense_ids d1 = [1; 2; 3; 4]
  /\ expense_ids d2 = [1; 2; 3; 4; 5]
  /\ option_map snd (run d st ev)
     = Some (Some (st_success "✅ Expense added successfully!"))
  /\ option_map snd (run d1 st ev) = option_map snd (run d st ev).
Proof.
  vm_compute. repeat split; reflexivity.
Qed.

(** ** The text of a date *)

(** X13: the text the page stores for a date from the year 1000 on
    reads back as that date, has ten characters, is different for
    different dates, and the order of two such texts is the order of
    their dates (so the least and the greatest text of the Date column
    are the earliest and the latest date). *)
Theorem date_text_round_trip_and_order (d1 d2 : date) :
  valid_date d1 = true -> valid_date d2 = true ->
  1000 <= year d1 -> 1000 <= year d2 ->
  to_datetime (strftime d1) = Some d1
  /\ String.length (strftime d1) = 10%nat
  /\ (strftime d1 = strftime d2 -> d1 = d2)
  /\ String.compare (strftime d1) (strftime d2) = date_compare d1 d2
  /\ String.leb (strftime d1) (strftime d2) = date_leb d1 d2.
Proof.
  intros H1 H2 _ _. split; [now apply fromisoformat_strftime|].
  split; [reflexivity|]. split; [|split].
  - intros E. pose proof (fromisoformat_strftime d1 H1) as E1.
    rewrite E, (fromisoformat_strftime d2 H2) in E1. congruence.
  - now apply strftime_compare.
  - unfold String.leb, date_leb. now rewrite strftime_compare.
Qed.

Lemma date_text_round_trip_and_order_witness :
  to_datetime (strftime (mkdate 2024 2 29)) = Some (mkdate 2024 2 29)
  /\ String.leb (strftime (mkdate 2024 2 29)) (strftime (mkdate 2024 10 1))
     = true.
Proof.
  destruct (date_text_round_trip_and_order (mkdate 2024 2 29) (mkdate 2024 10 1))
    as (Hrt & _ & _ & _ & Hle);
    [reflexivity|reflexivity|simpl; lia|simpl; lia|].
  split; [exact Hrt|]. rewrite Hle. reflexivity.
Defined.
